(** * Ferry: mock-interview orchestrator and AI-invocation layer

    A shallow embedding of [src/services/geminiService.ts], of the
    [MockInterviewView] component and of [App.handleMockComplete],
    followed by the properties established about them. *)

From Stdlib Require Import ZArith List String Ascii Lia Permutation Bool Sorted.
From stdpp Require Import base list strings gmap pretty.
Import ListNotations.

Set Warnings "-register-all".

Local Open Scope Z_scope.

(* ================================================================== *)
(** * Part I. Definitions                                              *)
(* ================================================================== *)

(** ** The JavaScript host: thrown values, outcomes, effects *)

Module JS.

(** What a [throw] (or a rejected promise) carries. *)
Inductive Exn : Type :=
| JsUndefined
| JsError (name : string) (message : string).

(** The completion of a call: a value or an exception. *)
Inductive Outcome (A : Type) : Type :=
| Return (a : A)
| Throw (e : Exn).
Arguments Return {A} a.
Arguments Throw {A} e.

Definition is_throw {A} (o : Outcome A) : bool :=
  match o with Return _ => false | Throw _ => true end.

Definition thrown {A} (o : Outcome A) : Exn :=
  match o with Return _ => JsUndefined | Throw e => e end.

(** Observable side effects of the code itself. *)
Inductive Effect : Type :=
| ConsoleWarn (msg : string) (e : Exn)
| ConsoleError (msg : string) (e : Exn)
| SetTimeout (ms : Z)
| Alert (msg : string).

(** The world an asynchronous function runs in: the state [X] of the
    external collaborators (service, devices) and the effect log. *)
Record World (X : Type) : Type := mkWorld { env : X; log : list Effect }.
Arguments mkWorld {X} env log.
Arguments env {X} w.
Arguments log {X} w.

(** An [async] function: sequential code that may throw. *)
Definition IO (X A : Type) : Type := World X -> Outcome A * World X.

Definition ret {X A} (a : A) : IO X A := fun w => (Return a, w).

Definition throw {X A} (e : Exn) : IO X A := fun w => (Throw e, w).

Definition bind {X A B} (m : IO X A) (k : A -> IO X B) : IO X B :=
  fun w => match m w with
           | (Return a, w') => k a w'
           | (Throw e, w') => (Throw e, w')
           end.

Definition try_catch {X A} (body : IO X A) (handler : Exn -> IO X A) : IO X A :=
  fun w => match body w with
           | (Return a, w') => (Return a, w')
           | (Throw e, w') => handler e w'
           end.

Definition emit {X} (ev : Effect) : IO X unit :=
  fun w => (Return tt, mkWorld (env w) (log w ++ [ev])).

(** An operation of a collaborator: it acts on the collaborator state only. *)
Definition perform {X A} (op : X -> Outcome A * X) : IO X A :=
  fun w => let '(r, x') := op (env w) in (r, mkWorld x' (log w)).

(** Lift a synchronous, effect-free computation. *)
Definition lift {X A} (o : Outcome A) : IO X A := fun w => (o, w).

End JS.

Import JS.

Declare Scope io_scope.
Delimit Scope io_scope with io.
Notation "'await' x '<-' c1 ';' c2" := (bind c1 (fun x => c2))
  (at level 10, x name, c1 at level 100, c2 at level 200) : io_scope.
Notation "'exec' c1 ';' c2" := (bind c1 (fun _ => c2))
  (at level 10, c1 at level 100, c2 at level 200) : io_scope.

(** ** [withRetry] *)

Module Retry.

(** [`Attempt ${i + 1} failed:`] *)
Definition attempt_failed_msg (i : nat) : string :=
  "Attempt " +:+ pretty (S i) +:+ " failed:".

(** The [for (let i = 0; i < retries; i++)] loop, entered at index [i]
    with [remaining = retries - i] iterations left. *)
Fixpoint withRetry_from {X T} (fn : IO X T) (remaining i : nat) (lastError : Exn)
  : IO X T :=
  match remaining with
  | O => throw lastError
  | S remaining' =>
      try_catch fn (fun error =>
        (exec emit (ConsoleWarn (attempt_failed_msg i) error);
         exec emit (SetTimeout (1000 * 2 ^ Z.of_nat i));
         withRetry_from fn remaining' (S i) error)%io)
  end.

Definition withRetry {X T} (fn : IO X T) (retries : nat) : IO X T :=
  withRetry_from fn retries 0 JsUndefined.

(** [retries = 3] *)
Definition default_retries : nat := 3.

(** Instrumentation: the same operation, counting its executions. *)
Definition counted {X T} (fn : X -> Outcome T * X) : X * nat -> Outcome T * (X * nat) :=
  fun xc => let '(r, x') := fn (fst xc) in (r, (x', S (snd xc))).

(** Collaborator state after [k] executions of [fn]. *)
Fixpoint state_after {X T} (fn : X -> Outcome T * X) (k : nat) (x : X) : X :=
  match k with
  | O => x
  | S k' => snd (fn (state_after fn k' x))
  end.

(** Outcome of execution number [i] (from 0) of [fn] started in [x]. *)
Definition attempt {X T} (fn : X -> Outcome T * X) (x : X) (i : nat) : Outcome T :=
  fst (fn (state_after fn i x)).

(** The specification's words, not the code's: a failure "tagged as
    InvocationExhausted", the tag of an error object being its name. *)
Definition tagged_InvocationExhausted (e : Exn) : Prop :=
  exists message, e = JsError "InvocationExhausted" message.

End Retry.

(** ** JSON values, schemas and the wire types of the AI service *)

Module Wire.

(** A value produced by [JSON.parse]. A number keeps its literal. *)
Inductive JSON : Type :=
| JNull
| JBool (b : bool)
| JNum (literal : string)
| JStr (s : string)
| JArr (items : list JSON)
| JObj (fields : list (string * JSON)).

(** A JavaScript object literal: own properties in insertion order. *)
Definition JsObject : Type := list (string * JSON).

Fixpoint lookup_field (k : string) (fields : JsObject) : option JSON :=
  match fields with
  | [] => None
  | (k', v) :: rest => if String.eqb k k' then Some v else lookup_field k rest
  end.

(** [obj[k] = v]: replaces in place, or appends a new own property. *)
Fixpoint set_field (k : string) (v : JSON) (fields : JsObject) : JsObject :=
  match fields with
  | [] => [(k, v)]
  | (k', v') :: rest =>
      if String.eqb k k' then (k, v) :: rest else (k', v') :: set_field k v rest
  end.

(** The read [v.k] for a key [k] that is not a built-in of arrays or
    strings (the source reads [transcription], [feedback], [items]);
    the result [None] is [undefined]. *)
Definition get_prop (v : JSON) (k : string) : Outcome (option JSON) :=
  match v with
  | JNull =>
      Throw (JsError "TypeError" ("Cannot read properties of null (reading '" +:+ k +:+ "')"))
  | JObj fields => Return (lookup_field k fields)
  | _ => Return None
  end.

(** [Schema] of the SDK, as the three shapes the source builds. *)
Inductive Schema : Type :=
| SchString (description : option string) (enum : option (list string))
| SchArray (description : option string) (items : Schema)
| SchObject (properties : list (string * Schema)) (required : list string).

(** Whether a value has the shape a schema describes: the type, the
    required properties, the declared properties and the enumeration.
    The service is asked to answer in this shape; the client code never
    calls such a check. *)
Fixpoint conforms (schema : Schema) (v : JSON) : bool :=
  match schema, v with
  | SchString _ enum, JStr s =>
      match enum with
      | None => true
      | Some allowed => existsb (String.eqb s) allowed
      end
  | SchArray _ items, JArr elements => forallb (conforms items) elements
  | SchObject properties required, JObj fields =>
      forallb (fun k => match lookup_field k fields with Some _ => true | None => false end)
              required
      && forallb (fun kp => match lookup_field (fst kp) fields with
                            | Some v' => conforms (snd kp) v'
                            | None => true
                            end)
                 properties
  | _, _ => false
  end.

(** A part of a request. *)
Inductive Part : Type :=
| TextPart (text : string)
| InlineDataPart (mimeType : string) (data : option string).

Inductive Modality : Type := Modality_AUDIO.

Record Config : Type := mkConfig {
  responseMimeType : option string;
  responseSchema : option Schema;
  temperature : option (Z * Z);   (* a decimal, numerator and denominator *)
  responseModalities : option (list Modality);
  voiceName : option string
}.

Record Request : Type := mkRequest {
  model : string;
  contents : list Part;
  config : Config
}.

(** [GenerateContentResponse], as far as the source reads it. *)
Record InlineData : Type := mkInlineData { data : option string }.
Record ResponsePart : Type := mkResponsePart { inlineData : option InlineData }.
Record Content : Type := mkContent { parts : option (list ResponsePart) }.
Record Candidate : Type := mkCandidate { content : option Content }.
Record GenerateContentResponse : Type := mkResponse {
  text : option string;
  candidates : option (list Candidate)
}.

(** [Blob]: its bytes and its media type. *)
Record Blob : Type := mkBlob { blob_bytes : list Z; blob_type : string }.

(** [input: Blob | string] *)
Inductive AnswerInput : Type :=
| AudioAnswer (blob : Blob)
| TextAnswer (text : string).

(** What the code asks of its host and of the service. [X] is their
    joint state. *)
Record Platform (X : Type) : Type := mkPlatform {
  (** [ai.models.generateContent(request)] *)
  generateContent : Request -> X -> Outcome GenerateContentResponse * X;
  (** [JSON.parse] *)
  JSON_parse : string -> Outcome JSON;
  (** [atob]: the decoded binary string, as char codes *)
  atob : string -> Outcome (list Z);
  (** [FileReader.readAsDataURL] until [onloadend]; [onerror] rejects *)
  readAsDataURL : Blob -> X -> Outcome string * X;
  (** [Date.now()] *)
  Date_now : X -> Z * X;
  (** [ToBoolean] of the Number a JSON literal denotes *)
  number_truthy : string -> bool;
  (** the code units of a string, each as a one-unit string *)
  code_units : string -> list string;
  (** [String.prototype.trim] *)
  String_trim : string -> string;
  (** [Array.prototype.sort] under the comparator [() => 0.5 - Math.random()] *)
  sort_random : forall A : Type, list A -> X -> list A * X
}.
Arguments generateContent {X} p _ _.
Arguments JSON_parse {X} p _.
Arguments atob {X} p _.
Arguments readAsDataURL {X} p _ _.
Arguments Date_now {X} p _.
Arguments number_truthy {X} p _.
Arguments code_units {X} p _.
Arguments String_trim {X} p _.
Arguments sort_random {X} p A _ _.

(** JavaScript truthiness of an optional string: [undefined] and the
    empty string are falsy. *)
Definition truthy (o : option string) : bool :=
  match o with
  | Some (String _ _) => true
  | _ => false
  end.

(** [o || d] on optional strings. *)
Definition or_else (o : option string) (d : string) : string :=
  match o with
  | Some (String c s) => String c s
  | _ => d
  end.

(** The double quote character. *)
Definition dq : string := String (ascii_of_nat 34) EmptyString.

End Wire.

Import Wire.

(** ** [DataView] and typed arrays over an [ArrayBuffer] *)

Module DataView.

(** The bytes of an [ArrayBuffer]. *)
Definition Buffer : Type := list Z.

(** [new ArrayBuffer(n)] is zero-filled. *)
Definition new_ArrayBuffer (n : nat) : Buffer := repeat 0 n.

Definition RangeError : Exn :=
  JsError "RangeError" "Offset is outside the bounds of the DataView".

Definition setUint8 (view : Buffer) (offset : nat) (value : Z) : Outcome Buffer :=
  if (offset + 1 <=? length view)%nat
  then Return (<[offset := value mod 256]> view)
  else Throw RangeError.

Definition setUint16 (view : Buffer) (offset : nat) (value : Z) (littleEndian : bool)
  : Outcome Buffer :=
  if (offset + 2 <=? length view)%nat
  then
    let v := value mod 65536 in
    let lo := v mod 256 in
    let hi := v / 256 in
    Return (if littleEndian
            then <[(offset + 1)%nat := hi]> (<[offset := lo]> view)
            else <[(offset + 1)%nat := lo]> (<[offset := hi]> view))
  else Throw RangeError.

Definition setUint32 (view : Buffer) (offset : nat) (value : Z) (littleEndian : bool)
  : Outcome Buffer :=
  if (offset + 4 <=? length view)%nat
  then
    let v := value mod 4294967296 in
    let b0 := v mod 256 in
    let b1 := (v / 256) mod 256 in
    let b2 := (v / 65536) mod 256 in
    let b3 := v / 16777216 in
    Return (if littleEndian
            then <[(offset + 3)%nat := b3]> (<[(offset + 2)%nat := b2]>
                   (<[(offset + 1)%nat := b1]> (<[offset := b0]> view)))
            else <[(offset + 3)%nat := b0]> (<[(offset + 2)%nat := b1]>
                   (<[(offset + 1)%nat := b2]> (<[offset := b3]> view))))
  else Throw RangeError.

(** [new Uint8Array(buffer, byteOffset).set(source)] *)
Definition Uint8Array_set (buffer : Buffer) (byteOffset : nat) (source : list Z)
  : Outcome Buffer :=
  if (byteOffset + length source <=? length buffer)%nat
  then Return (take byteOffset buffer ++ source ++
               drop (byteOffset + length source) buffer)
  else Throw (JsError "RangeError" "offset is out of bounds").

(** A JavaScript string is a sequence of UTF-16 code units, and
    [string.length] and [string.charCodeAt(i)] count and read code
    units.  The strings of this development hold the UTF-8 bytes of the
    text (generalised to code points of the surrogate range, so that
    every sequence of code units is the text of some string); their
    code units are recovered by decoding.  A byte that starts no
    well-formed sequence stands for U+FFFD. *)
Definition byte (c : ascii) : Z := Z.of_nat (nat_of_ascii c).

Definition continuation (b : Z) : bool := (128 <=? b) && (b <? 192).

(** The code units of one code point: itself in the basic plane, a
    surrogate pair above it. *)
Definition codeUnits (cp : Z) : list Z :=
  if cp <? 65536 then [cp]
  else [55296 + (cp - 65536) / 1024; 56320 + (cp - 65536) mod 1024].

(** [string.charCodeAt(i)] for every [i] from 0 to [string.length - 1]. *)
Fixpoint charCodes (s : string) : list Z :=
  match s with
  | EmptyString => []
  | String c rest =>
      let b0 := byte c in
      if b0 <? 128 then b0 :: charCodes rest
      else
        match rest with
        | EmptyString => [65533]
        | String c1 rest1 =>
            let b1 := byte c1 in
            if (192 <=? b0) && (b0 <? 224) && continuation b1
            then ((b0 - 192) * 64 + (b1 - 128)) :: charCodes rest1
            else
              match rest1 with
              | EmptyString => 65533 :: charCodes rest
              | String c2 rest2 =>
                  let b2 := byte c2 in
                  if (224 <=? b0) && (b0 <? 240) && continuation b1 && continuation b2
                  then ((b0 - 224) * 4096 + (b1 - 128) * 64 + (b2 - 128))
                       :: charCodes rest2
                  else
                    match rest2 with
                    | EmptyString => 65533 :: charCodes rest
                    | String c3 rest3 =>
                        let b3 := byte c3 in
                        if (240 <=? b0) && (b0 <? 248) && continuation b1
                           && continuation b2 && continuation b3
                        then codeUnits ((b0 - 240) * 262144 + (b1 - 128) * 4096
                                        + (b2 - 128) * 64 + (b3 - 128))
                             ++ charCodes rest3
                        else 65533 :: charCodes rest
                    end
              end
        end
  end.

End DataView.

(** ** The canonical 44-byte WAV header, as the format lays it out *)

Module Wav.
Import DataView.

(** Little-endian bytes of an unsigned 16-bit and 32-bit field. *)
Definition le16 (v : Z) : list Z :=
  let v := v mod 65536 in [v mod 256; v / 256].

Definition le32 (v : Z) : list Z :=
  let v := v mod 4294967296 in
  [v mod 256; (v / 256) mod 256; (v / 65536) mod 256; v / 16777216].

(** The number a little-endian byte sequence denotes. *)
Definition from_le (bytes : list Z) : Z :=
  fold_right (fun b acc => b + 256 * acc) 0 bytes.

Definition wavHeader (dataSize : nat) (sampleRate : Z) : list Z :=
  charCodes "RIFF" ++ le32 (36 + Z.of_nat dataSize) ++ charCodes "WAVE" ++
  charCodes "fmt " ++ le32 16 ++ le16 1 ++ le16 1 ++ le32 sampleRate ++
  le32 (sampleRate * 1 * 2) ++ le16 (1 * 2) ++ le16 16 ++ charCodes "data" ++
  le32 (Z.of_nat dataSize).

End Wav.

Declare Scope outcome_scope.
Delimit Scope outcome_scope with outcome.

Definition obind {A B} (o : Outcome A) (k : A -> Outcome B) : Outcome B :=
  match o with
  | Return a => k a
  | Throw e => Throw e
  end.

Notation "'try!' x '<-' c1 ';' c2" := (obind c1 (fun x => c2))
  (at level 10, x name, c1 at level 100, c2 at level 200) : outcome_scope.

(** ** [services/geminiService.ts]

    [getAiClient] only builds a client object for the call that
    follows; the calls themselves are [generateContent] of the host. *)

Module GeminiService.
Import Retry DataView.

(** *** PCM to WAV *)

(** [for (let i = 0; i < string.length; i++) view.setUint8(offset + i, ...)] *)
Fixpoint writeCodes (view : Buffer) (offset : nat) (codes : list Z) : Outcome Buffer :=
  match codes with
  | [] => Return view
  | c :: rest =>
      (try! view' <- setUint8 view offset c;
       writeCodes view' (S offset) rest)%outcome
  end.

Definition writeString (view : Buffer) (offset : nat) (string : string) : Outcome Buffer :=
  writeCodes view offset (charCodes string).

Definition pcmToWav (pcmData : list Z) (sampleRate : Z) : Outcome Blob :=
  let numChannels := 1 in
  let byteRate := sampleRate * numChannels * 2 in
  let blockAlign := numChannels * 2 in
  let dataSize := length pcmData in
  let buffer := new_ArrayBuffer (44 + dataSize) in
  (try! view <- writeString buffer 0 "RIFF";
   try! view <- setUint32 view 4 (36 + Z.of_nat dataSize) true;
   try! view <- writeString view 8 "WAVE";
   try! view <- writeString view 12 "fmt ";
   try! view <- setUint32 view 16 16 true;
   try! view <- setUint16 view 20 1 true;
   try! view <- setUint16 view 22 numChannels true;
   try! view <- setUint32 view 24 sampleRate true;
   try! view <- setUint32 view 28 byteRate true;
   try! view <- setUint16 view 32 blockAlign true;
   try! view <- setUint16 view 34 16 true;
   try! view <- writeString view 36 "data";
   try! view <- setUint32 view 40 (Z.of_nat dataSize) true;
   try! buffer <- Uint8Array_set view 44 pcmData;
   Return (mkBlob buffer "audio/wav"))%outcome.

(** [string.split(',')] *)
Fixpoint split_comma (s : string) : list string :=
  match s with
  | EmptyString => [EmptyString]
  | String c rest =>
      match split_comma rest with
      | [] => [String c EmptyString]
      | hd :: tl =>
          if Ascii.eqb c "," then EmptyString :: hd :: tl else String c hd :: tl
      end
  end.

Section WithPlatform.
Context {X : Type} (host : Platform X).

(** [bytes[i] = binaryString.charCodeAt(i)], stored into a [Uint8Array]. *)
Definition base64ToUint8Array (base64 : string) : Outcome (list Z) :=
  (try! binaryString <- atob host base64;
   Return (map (fun code => code mod 256) binaryString))%outcome.

(** [resolve(result.split(',')[1])], or [reject] on a read error. *)
Definition blobToBase64 (blob : Blob) : IO X (option string) :=
  (await result <- perform (readAsDataURL host blob);
   ret (split_comma result !! 1%nat))%io.

(** *** TTS service *)

Definition speechRequest (text : string) : Request :=
  mkRequest "gemini-2.5-flash-preview-tts" [TextPart text]
    (mkConfig None None None (Some [Modality_AUDIO]) (Some "Kore")).

(** [response.candidates?.[0]?.content?.parts?.[0]?.inlineData?.data] *)
Definition first_inline_data (response : GenerateContentResponse) : option string :=
  cs ← candidates response;
  c ← cs !! 0%nat;
  ct ← content c;
  ps ← parts ct;
  p ← ps !! 0%nat;
  d ← inlineData p;
  data d.

Definition generateSpeech (text : string) : IO X Blob :=
  try_catch
    (await response <- withRetry (perform (generateContent host (speechRequest text)))
                        default_retries;
     let base64Audio := first_inline_data response in
     if truthy base64Audio
     then lift (try! pcmData <- base64ToUint8Array (or_else base64Audio "");
                pcmToWav pcmData 24000)%outcome
     else throw (JsError "Error" "No audio data returned"))%io
    (fun error =>
       (exec emit (ConsoleError "TTS generation failed:" error);
        throw error)%io).

(** *** Analysis and self-introductions *)

Definition introSchema : Schema :=
  SchObject
    [ ("strengths",
       SchArray (Some "List of 4 key capability strengths with evidence.")
         (SchObject
            [ ("strength",
               SchString (Some "Short title of the strength (e.g., 'Solid Academic Background').") None);
              ("description",
               SchString (Some "Explanation of why this is a strength, citing specific experiences from the resume.") None) ]
            ["strength"; "description"]));
      ("competencyLevel",
       SchString (Some "The calculated competency level (A=Top 10%, B=Top 30%, C=Top 60%, D=Bottom).")
         (Some ["A"; "B"; "C"; "D"]));
      ("competencyEvaluation",
       SchString (Some "A personalized evaluation string explaining the level and offering encouragement.") None);
      ("intros",
       SchArray None
         (SchObject
            [ ("style", SchString None (Some ["Affinity"; "Academic"; "Practical"]));
              ("title", SchString None None);
              ("contentCN",
               SchString (Some "Chinese version of the self-introduction (approx 300-500 words)") None);
              ("contentEN",
               SchString (Some "English version of the self-introduction matching the Chinese content") None) ]
            ["style"; "title"; "contentCN"; "contentEN"])) ]
    ["strengths"; "competencyLevel"; "competencyEvaluation"; "intros"].

Record ResumeFile : Type := mkResumeFile { file_mimeType : string; file_data : string }.

Record ResumeInput : Type := mkResumeInput {
  resume_text : string;
  resume_file : option ResumeFile
}.

Definition newline : string := String (ascii_of_nat 10) EmptyString.

Definition buildContents (input : ResumeInput) (promptText : string) : list Part :=
  match resume_file input with
  | Some file =>
      [ TextPart (promptText +:+ newline +:+ newline +:+ "(Resume is attached as a file below)");
        InlineDataPart (file_mimeType file) (Some (file_data file)) ]
  | None =>
      [ TextPart (promptText +:+ newline +:+ newline +:+ "Resume Content:" +:+ newline
                  +:+ resume_text input) ]
  end.

Definition analysisPrompt (major uni : string) : string :=
  "
    Role: Expert Postgraduate Entrance Exam (Kaoyan) Coach.
    Task: Analyze the provided student resume for a re-examination (interview) at " +:+
  uni +:+
  " for the " +:+
  major +:+
  " major.
    
    1. **Competency Evaluation**:
       - Assess the student's competitiveness relative to peers (Top 10%=A, Top 30%=B, Top 60%=C, Others=D).
       - Determine 'competencyLevel' (A, B, C, or D).
       - Generate 'competencyEvaluation' text in Chinese following this pattern:
         - If A/B: " +:+
  dq +:+
  "恭喜你，因为你具备[Strength 1]、[Strength 2]的优势，你在复试中的能力水平定位为[Level]级别，相信通过一定的准备，你一定能够获得较高的复试排名。" +:+
  dq +:+
  "
         - If C/D: " +:+
  dq +:+
  "很棒！你的[Strength 1]、[Strength 2]经历让你在同辈中处于[Level]级别，只要你用心准备复试，一定能够成功上岸。" +:+
  dq +:+
  "
    
    2. **Strengths**: Extract exactly 4 key strengths.
       - For each strength, provide a short 'strength' title (e.g., " +:+
  dq +:+
  "卓越的学术背景" +:+
  dq +:+
  ").
       - Provide a 'description' that specifically cites experiences from the resume that support this strength (e.g., " +:+
  dq +:+
  "本科期间发表2篇SCI论文，并在全国大学生数学建模竞赛中获得一等奖..." +:+
  dq +:+
  ").
    
    3. **Self-Introductions**: Generate 3 distinct versions (Chinese & English for each):
       - Version A (Affinity): Focus on personality, communication. (Title: 亲和力与表现力版)
       - Version B (Academic): Focus on research, reading, rigor. (Title: 学术积累与素养版)
       - Version C (Practical): Focus on internships, projects, potential. (Title: 实践经历与潜力版)
  ".

Definition analysisRequest (resumeInput : ResumeInput) (major uni : string) : Request :=
  mkRequest "gemini-2.5-flash" (buildContents resumeInput (analysisPrompt major uni))
    (mkConfig (Some "application/json") (Some introSchema) (Some (7, 10)) None None).

Definition generateAnalysis (resumeInput : ResumeInput) (major uni : string) : IO X JSON :=
  try_catch
    (await response <- withRetry
                        (perform (generateContent host (analysisRequest resumeInput major uni)))
                        default_retries;
     lift (JSON_parse host (or_else (text response) "{}")))%io
    (fun error =>
       (exec emit (ConsoleError "Analysis generation failed:" error);
        throw error)%io).

(** *** Question bank generation *)

Definition questionSchema : Schema :=
  SchObject
    [ ("items",
       SchArray None
         (SchObject
            [ ("category",
               SchString (Some "Category of the question")
                 (Some ["Motivation"; "Academic"; "Behavioral"; "Resume"; "Personal"]));
              ("question", SchString (Some "The interview question in Chinese") None);
              ("questionEN",
               SchString (Some "The English translation of the interview question") None);
              ("intent",
               SchString (Some "The hidden intent or essence of asking this (in Chinese)") None);
              ("structure",
               SchString (Some "Recommended structure for the answer (in Chinese)") None);
              ("keyPoints",
               SchString (Some "Specific key points from the resume to mention (in Chinese)") None);
              ("recommendedAnswer",
               SchString (Some "A full sample answer tailored to the resume's details (in Chinese)") None) ]
            ["category"; "question"; "questionEN"; "intent"; "structure"; "keyPoints";
             "recommendedAnswer"])) ]
    ["items"].

Definition questionsPrompt (major uni : string) : string :=
  "
    Role: Strict but helpful Academic Interviewer for " +:+
  uni +:+
  ", " +:+
  major +:+
  " department.
    Task: Based on the candidate's resume, generate 8 interview questions categorized exactly as follows (20% reduction in count for speed):

    1. Motivation (自传题): Why this school? Why this major? Why do you want to study via research? Focus on deep motivation and resume alignment.
    2. Academic (考试题): Explain a specific theory relevant to the major? How does AI impact this field? Basic concept understanding or hot topics.
    3. Behavioral (求职题/STAR): E.g., P&G 8 questions style. Leadership, conflict resolution, teamwork. Answer using STAR model.
    4. Resume (背调题): Deep dive into specific resume details. " +:+
  dq +:+
  "Tell me more about this internship/paper/project." +:+
  dq +:+
  "
    5. Personal (相亲题): Casual but strategic. Hobbies, favorite books, family. Essence is to show competitive advantage through daily life.

    For each question, explain:
    1. Category (Must be one of: Motivation, Academic, Behavioral, Resume, Personal)
    2. The Question in Chinese.
    3. The Question in English (questionEN). **Crucial**: Provide an accurate English translation.
    4. The " +:+
  dq +:+
  "Essence" +:+
  dq +:+
  " (Intent): Why are you asking this? (Must be in Chinese)
    5. Recommended Answer Structure (Must be in Chinese).
    6. Key Points to mention (customized to the user's resume) (Must be in Chinese).
    7. Recommended Answer: A personalized sample answer (Must be in Chinese).
  ".

Definition questionsRequest (resumeInput : ResumeInput) (major uni : string) : Request :=
  mkRequest "gemini-2.5-flash" (buildContents resumeInput (questionsPrompt major uni))
    (mkConfig (Some "application/json") (Some questionSchema) (Some (7, 10)) None None).

(** JavaScript truthiness of a value read from parsed JSON. *)
Definition truthy_json (v : option JSON) : bool :=
  match v with
  | None => false
  | Some JNull => false
  | Some (JBool b) => b
  | Some (JNum literal) => number_truthy host literal
  | Some (JStr s) => truthy (Some s)
  | Some (JArr _) => true
  | Some (JObj _) => true
  end.

(** The own enumerable properties copied by [{...item}]. *)
Definition spread (item : JSON) : JsObject :=
  match item with
  | JObj fields => fields
  | JArr items => imap (fun i v => (pretty i, v)) items
  | JStr s => imap (fun i u => (pretty i, JStr u)) (code_units host s)
  | _ => []
  end.

(** The callback of [.map((item, index) => ({...item, id, isFavorite, userNotes, practiceCount}))]. *)
Definition decorate (item : JSON) (index : nat) : IO X JsObject :=
  (await now <- perform (fun x => let '(t, x') := Date_now host x in (Return t, x'));
   ret (set_field "practiceCount" (JNum "0")
          (set_field "userNotes" (JStr "")
             (set_field "isFavorite" (JBool false)
                (set_field "id" (JStr ("q-" +:+ pretty now +:+ "-" +:+ pretty index))
                   (spread item))))))%io.

Fixpoint map_decorate (items : list JSON) (index : nat) : IO X (list JsObject) :=
  match items with
  | [] => ret []
  | item :: rest =>
      (await q <- decorate item index;
       await qs <- map_decorate rest (S index);
       ret (q :: qs))%io
  end.

Definition generateQuestions (resumeInput : ResumeInput) (major uni : string)
  : IO X (list JsObject) :=
  try_catch
    (await response <- withRetry
                        (perform (generateContent host (questionsRequest resumeInput major uni)))
                        default_retries;
     await data <- lift (JSON_parse host (or_else (text response) "{}"));
     await items <- lift (get_prop data "items");
     match (if truthy_json items then items else Some (JArr [])) with
     | Some (JArr elements) => map_decorate elements 0
     | _ => throw (JsError "TypeError" "(data.items || []).map is not a function")
     end)%io
    (fun error =>
       (exec emit (ConsoleError "Question generation failed:" error);
        throw error)%io).

(** *** Mock interview evaluation *)

Definition evaluationSchema : Schema :=
  SchObject
    [ ("transcription",
       SchString (Some "Verbatim transcription of the user's audio answer.") None);
      ("feedback", SchString (Some "Constructive feedback on the answer.") None) ]
    ["transcription"; "feedback"].

Definition isAudioInput (input : AnswerInput) : bool :=
  match input with AudioAnswer _ => true | TextAnswer _ => false end.

Definition evaluationPrompt (question : string) (isEnglish isAudio : bool) : string :=
  "
    Role: Interview Coach.
    Task: The student was asked the following question: " +:+
  dq +:+
  question +:+
  dq +:+
  ".
    " +:+
  (if isEnglish then "NOTE: The student was required to answer in English. Please evaluate their English proficiency as well." else "") +:+
  "

    " +:+
  (if isAudio then "1. Transcribe the audio recording exactly (Text-to-Speech)." else "1. The student provided a text answer.") +:+
  "
    2. Provide feedback (in Chinese) on their answer:
       - Did they answer the core question?
       - Did they include personal experiences?
       - Is the structure clear?
       - Is it too long or too short?
       - Suggest one specific improvement.
  ".

Definition evaluationRequest (parts : list Part) : Request :=
  mkRequest "gemini-2.5-flash" parts
    (mkConfig (Some "application/json") (Some evaluationSchema) None None None).

Definition fallbackEvaluation (input : AnswerInput) : JSON :=
  JObj [ ("transcription",
          JStr (match input with
                | AudioAnswer _ => "Error processing audio."
                | TextAnswer text => text
                end));
         ("feedback", JStr "Could not generate feedback due to an error.") ].

(** The [parts] array: the prompt, then the answer. *)
Definition answerParts (input : AnswerInput) (prompt : string) : IO X (list Part) :=
  match input with
  | AudioAnswer blob =>
      (await base64Audio <- blobToBase64 blob;
       ret [ TextPart prompt;
             InlineDataPart (or_else (Some (blob_type blob)) "audio/webm") base64Audio ])%io
  | TextAnswer text =>
      ret [ TextPart prompt;
            TextPart ("Student Text Answer: " +:+ dq +:+ text +:+ dq) ]
  end.

Definition evaluateMockResponse (input : AnswerInput) (question : string) (isEnglish : bool)
  : IO X JSON :=
  let isAudio := isAudioInput input in
  let prompt := evaluationPrompt question isEnglish isAudio in
  (await parts <- answerParts input prompt;
   try_catch
     (await response <- withRetry (perform (generateContent host (evaluationRequest parts)))
                         default_retries;
      lift (JSON_parse host (or_else (text response) "{}")))
     (fun error =>
        exec emit (ConsoleError "Evaluation failed:" error);
        ret (fallbackEvaluation input)))%io.

End WithPlatform.

End GeminiService.

(** ** [types.ts] *)

Module Types.

Inductive AppView : Type :=
| INPUT | ANALYSIS | QUESTIONS | FAVORITES | MOCK_SESSION | MOCK_HISTORY.

Inductive QuestionCategory : Type :=
| Motivation | Academic | Behavioral | Resume | Personal.

Record QuestionItem : Type := mkQuestionItem {
  id : string;
  category : QuestionCategory;
  question : string;
  questionEN : option string;
  intent : string;
  structure : string;
  keyPoints : string;
  recommendedAnswer : option string;
  isFavorite : option bool;
  userNotes : option string;
  practiceCount : option Z
}.

Record UserProfile : Type := mkUserProfile {
  targetMajor : string;
  targetUni : string;
  resumeText : string;
  resumeFile : option (string * string * string)   (* mimeType, data, name *)
}.

(** [transcription] and [feedback] are declared [string]; at run time
    they hold whatever the evaluation result had under these keys. *)
Record MockRoundResult : Type := mkMockRoundResult {
  questionId : string;
  questionText : string;
  isEnglishRound : bool;
  audioBlob : option Blob;
  transcription : option JSON;
  feedback : option JSON;
  textAnswer : option string;
  skipped : option bool
}.

Record MockSession : Type := mkMockSession {
  session_id : string;
  timestamp : Z;
  rounds : list MockRoundResult
}.

Record AppState : Type := mkAppState {
  view : AppView;
  profile : UserProfile;
  analysis : option JSON;
  questions : list QuestionItem;
  isAnalyzing : bool;
  isGeneratingQuestions : bool;
  mockHistory : list MockSession
}.

End Types.

(** ** [App.tsx]: [handleMockComplete] *)

Module App.
Import Types.

Section WithPlatform.
Context {X : Type} (host : Platform X).

(** [{ ...q, practiceCount: (q.practiceCount || 0) + 1 }] *)
Definition practised (q : QuestionItem) : QuestionItem :=
  mkQuestionItem (id q) (category q) (question q) (questionEN q) (intent q)
    (structure q) (keyPoints q) (recommendedAnswer q) (isFavorite q) (userNotes q)
    (Some (match practiceCount q with Some n => n | None => 0 end + 1)).

Definition handleMockComplete (results : list MockRoundResult) (prev : AppState) (x : X)
  : AppState * X :=
  let questionIdsPracticed : gset string := list_to_set (map questionId results) in
  let '(now_id, x1) := Date_now host x in
  let '(now_timestamp, x2) := Date_now host x1 in
  let newSession := mkMockSession ("session-" +:+ pretty now_id) now_timestamp results in
  (mkAppState MOCK_HISTORY (profile prev) (analysis prev)
     (map (fun q => if decide (id q ∈ questionIdsPracticed) then practised q else q)
          (questions prev))
     (isAnalyzing prev) (isGeneratingQuestions prev)
     (mockHistory prev ++ [newSession]),
   x2).

End WithPlatform.

End App.

(** ** The [MockInterviewView] component

    The component is a state ([useState] cells and the recorder ref)
    driven by events: clicks, and the settling of a promise. A handler
    reads the cells through the closure of the render that created it
    and writes them through the setters, some of which take an updater
    [prev => ...]. An [await] splits [processAnswer] in two: the second
    half runs when the evaluation settles, still in the closure of the
    render in which the answer was submitted. Another [await] splits
    [startRecording] in two: the second half runs when [getUserMedia]
    settles, and the recorder it installs keeps, in its [onstop], the
    [processAnswer] of the render in which the button was clicked.

    Left out: the recording timer ([recordingTime], [timerRef]), which
    is only displayed. The [questions] prop is fixed while the component
    is mounted, so the mount effect runs once. *)

Module MockInterviewView.
Import Types.

Inductive ViewState : Type := READY | QUESTION | RECORDING | PROCESSING | DONE.

Inductive InputMode : Type := AUDIO | TEXT.

(** An entry of [selectedQuestions]; [item] is [undefined] when the
    slot read past the end of [picked]. *)
Record Selected : Type := mkSelected { item : option QuestionItem; isEnglish : bool }.

(** The props [onComplete] and [onCancel]. *)
Inductive Callback : Type :=
| OnComplete (results : list MockRoundResult)
| OnCancel.

(** The parent unmounts the component as soon as it is called back; a
    render that throws takes the component down. *)
Inductive Life : Type := Mounted | Closed (cb : Callback) | Crashed.

(** The values of one render that its handlers close over. *)
Record Closure : Type := mkClosure {
  c_selectedQuestions : list Selected;
  c_currentIndex : nat
}.

(** [mediaRecorderRef.current], with the [onstop] handler's closure. *)
Record Recorder : Type := mkRecorder { r_closure : Closure; r_recording : bool }.

(** A call of [processAnswer] suspended at its [await]. *)
Record Pending : Type := mkPending {
  p_closure : Closure;
  p_item : QuestionItem;
  p_isEnglish : bool;
  p_qText : string;
  p_input : AnswerInput;
  p_settles : Outcome JSON
}.

(** How a round was left. Proof instrumentation only. *)
Inductive Finalization : Type := Evaluated | Skipped | Dropped.

Record State : Type := mkState {
  selectedQuestions : list Selected;
  currentIndex : nat;
  results : list MockRoundResult;
  viewState : ViewState;
  inputMode : InputMode;
  textAnswer : string;
  mediaRecorderRef : option Recorder;
  pending : list Pending;
  (** calls of [startRecording] suspended at [await getUserMedia],
      each with the closure of the render whose button was clicked *)
  requested : list Closure;
  life : Life;
  (** ghost: the round index each handler saw when it left a round *)
  journal : list (nat * Finalization)
}.

(** The [useState] and [useRef] initial values. *)
Definition initial : State :=
  mkState [] 0 [] READY AUDIO "" None [] [] Mounted [].

Definition setSelectedQuestions (v : list Selected) (s : State) : State :=
  mkState v (currentIndex s) (results s) (viewState s) (inputMode s) (textAnswer s)
    (mediaRecorderRef s) (pending s) (requested s) (life s) (journal s).

Definition setCurrentIndex (f : nat -> nat) (s : State) : State :=
  mkState (selectedQuestions s) (f (currentIndex s)) (results s) (viewState s)
    (inputMode s) (textAnswer s) (mediaRecorderRef s) (pending s) (requested s) (life s) (journal s).

Definition setResults (f : list MockRoundResult -> list MockRoundResult) (s : State) : State :=
  mkState (selectedQuestions s) (currentIndex s) (f (results s)) (viewState s)
    (inputMode s) (textAnswer s) (mediaRecorderRef s) (pending s) (requested s) (life s) (journal s).

Definition setViewState (v : ViewState) (s : State) : State :=
  mkState (selectedQuestions s) (currentIndex s) (results s) v (inputMode s)
    (textAnswer s) (mediaRecorderRef s) (pending s) (requested s) (life s) (journal s).

Definition setInputMode (v : InputMode) (s : State) : State :=
  mkState (selectedQuestions s) (currentIndex s) (results s) (viewState s) v
    (textAnswer s) (mediaRecorderRef s) (pending s) (requested s) (life s) (journal s).

Definition setTextAnswer (v : string) (s : State) : State :=
  mkState (selectedQuestions s) (currentIndex s) (results s) (viewState s) (inputMode s)
    v (mediaRecorderRef s) (pending s) (requested s) (life s) (journal s).

Definition setMediaRecorder (v : option Recorder) (s : State) : State :=
  mkState (selectedQuestions s) (currentIndex s) (results s) (viewState s) (inputMode s)
    (textAnswer s) v (pending s) (requested s) (life s) (journal s).

Definition setPending (v : list Pending) (s : State) : State :=
  mkState (selectedQuestions s) (currentIndex s) (results s) (viewState s) (inputMode s)
    (textAnswer s) (mediaRecorderRef s) v (requested s) (life s) (journal s).

Definition setRequested (v : list Closure) (s : State) : State :=
  mkState (selectedQuestions s) (currentIndex s) (results s) (viewState s) (inputMode s)
    (textAnswer s) (mediaRecorderRef s) (pending s) v (life s) (journal s).

Definition setLife (v : Life) (s : State) : State :=
  mkState (selectedQuestions s) (currentIndex s) (results s) (viewState s) (inputMode s)
    (textAnswer s) (mediaRecorderRef s) (pending s) (requested s) v (journal s).

Definition note (round : nat) (how : Finalization) (s : State) : State :=
  mkState (selectedQuestions s) (currentIndex s) (results s) (viewState s) (inputMode s)
    (textAnswer s) (mediaRecorderRef s) (pending s) (requested s) (life s)
    (journal s ++ [(round, how)]).

Definition closure_of (s : State) : Closure :=
  mkClosure (selectedQuestions s) (currentIndex s).

(** [selectedQuestions[currentIndex]] and its [.item]; [None] where the
    source would read a property of [undefined]. *)
Definition currentQ (c : Closure) : option (QuestionItem * bool) :=
  sel ← c_selectedQuestions c !! c_currentIndex c;
  q ← item sel;
  Some (q, isEnglish sel).

(** [currentQ.isEnglish && currentQ.item.questionEN ? currentQ.item.questionEN
     : currentQ.item.question] *)
Definition questionTextOf (q : QuestionItem) (isEnglish : bool) : string :=
  if isEnglish && truthy (questionEN q)
  then or_else (questionEN q) ""
  else question q.

(** The heading the question view renders. *)
Definition displayQuestion (s : State) : option string :=
  match currentQ (closure_of s) with
  | Some (q, isEnglish) => Some (questionTextOf q isEnglish)
  | None => None
  end.

Definition moveToNext (c : Closure) (s : State) : State :=
  let s := setTextAnswer "" s in
  if (c_currentIndex c <? 2)%nat
  then setViewState QUESTION (setCurrentIndex (fun prev => S prev) s)
  else setViewState DONE s.

Definition skippedResult (q : QuestionItem) (isEnglish : bool) : MockRoundResult :=
  mkMockRoundResult (id q) (questionTextOf q isEnglish) isEnglish None
    (Some (JStr "Skipped")) (Some (JStr "Question skipped.")) None (Some true).

Definition handleSkip (c : Closure) (s : State) : State :=
  match currentQ c with
  | None => s
  | Some (q, isEnglish) =>
      let resultItem := skippedResult q isEnglish in
      moveToNext c
        (note (c_currentIndex c) Skipped (setResults (fun prev => prev ++ [resultItem]) s))
  end.

Definition startSession (s : State) : State := setViewState QUESTION s.

Definition call_back (cb : Callback) (s : State) : State := setLife (Closed cb) s.

Definition handleExit (confirmed : bool) (s : State) : State :=
  if (0 <? length (results s))%nat
  then if confirmed then call_back (OnComplete (results s)) s else s
  else call_back OnCancel s.

Section WithPlatform.
Context {X : Type} (host : Platform X).

(** The mount effect: pick the three rounds. *)
Definition mount_effect (questions : list QuestionItem) (s : State) (w : World X)
  : State * World X :=
  if (length questions <? 3)%nat
  then (call_back OnCancel s,
        mkWorld (env w) (log w ++ [Alert "题目库中至少需要3个问题才能开始模拟。"]))
  else
    let '(shuffled, x') := sort_random host QuestionItem questions (env w) in
    let picked := take 3 shuffled in
    let structured :=
      [ mkSelected (picked !! 0%nat) false;
        mkSelected (picked !! 1%nat) false;
        mkSelected (picked !! 2%nat) true ] in
    (setSelectedQuestions structured s, mkWorld x' (log w)).

Definition mount (questions : list QuestionItem) (w : World X) : State * World X :=
  mount_effect questions initial w.

(** [startRecording] up to its [await]: nothing is written before
    [getUserMedia] is awaited, and the call is suspended with the
    closure of the render whose button was clicked. *)
Definition startRecording_begin (s : State) : State :=
  setRequested (requested s ++ [closure_of s]) s.

(** [startRecording] from its [await] on, [getUserMedia] and
    [new MediaRecorder] having settled with [media]: the recorder put
    in the ref carries an [onstop] that calls the [processAnswer] of
    the render [c] in which the button was clicked. *)
Definition startRecording_resume (c : Closure) (media : Outcome unit) (s : State)
    (w : World X) : State * World X :=
  match media with
  | Return _ =>
      (setViewState RECORDING (setMediaRecorder (Some (mkRecorder c true)) s), w)
  | Throw err =>
      (s, mkWorld (env w)
            (log w ++ [ConsoleError "" err; Alert "无法访问麦克风，请允许权限。"]))
  end.

(** [startRecording] when [getUserMedia] settles before anything else
    happens: both halves at once, in the render that was clicked. *)
Definition startRecording (media : Outcome unit) (s : State) (w : World X)
  : State * World X :=
  startRecording_resume (closure_of s) media s w.

(** [processAnswer] up to its [await]. *)
Definition processAnswer_begin (c : Closure) (input : AnswerInput) (s : State) (w : World X)
  : State * World X :=
  match currentQ c with
  | None => (s, w)
  | Some (q, isEnglish) =>
      let qText := questionTextOf q isEnglish in
      let '(settles, w') :=
        GeminiService.evaluateMockResponse host input qText isEnglish w in
      (setPending (pending s ++ [mkPending c q isEnglish qText input settles]) s, w')
  end.

Definition evaluatedResult (p : Pending) (t f : option JSON) : MockRoundResult :=
  mkMockRoundResult (id (p_item p)) (p_qText p) (p_isEnglish p)
    (match p_input p with AudioAnswer blob => Some blob | TextAnswer _ => None end)
    t f
    (match p_input p with AudioAnswer _ => None | TextAnswer text => Some text end)
    None.

(** [processAnswer] from its [await] on. *)
Definition processAnswer_resume (p : Pending) (s : State) (w : World X)
  : State * World X :=
  let c := p_closure p in
  let caught (error : Exn) :=
    (moveToNext c (note (c_currentIndex c) Dropped s),
     mkWorld (env w)
       (log w ++ [ConsoleError "" error;
                  Alert "Error processing answer. Skipping evaluation."])) in
  match p_settles p with
  | Throw error => caught error
  | Return aiResult =>
      match get_prop aiResult "transcription" with
      | Throw error => caught error
      | Return t =>
          match get_prop aiResult "feedback" with
          | Throw error => caught error
          | Return f =>
              let resultItem := evaluatedResult p t f in
              (moveToNext c
                 (note (c_currentIndex c) Evaluated
                    (setResults (fun prev => prev ++ [resultItem]) s)), w)
          end
      end
  end.

(** [stopRecording]; the recorder then fires [onstop], which builds the
    blob from the recorded chunks and calls [processAnswer]. *)
Definition stopRecording (chunks : list Z) (s : State) (w : World X) : State * World X :=
  match mediaRecorderRef s, viewState s with
  | Some r, RECORDING =>
      if r_recording r
      then
        processAnswer_begin (r_closure r) (AudioAnswer (mkBlob chunks "audio/webm"))
          (setViewState PROCESSING
             (setMediaRecorder (Some (mkRecorder (r_closure r) false)) s)) w
      else (s, w)
  | _, _ => (s, w)
  end.

Definition submitTextAnswer (s : State) (w : World X) : State * World X :=
  if truthy (Some (String_trim host (textAnswer s)))
  then processAnswer_begin (closure_of s) (TextAnswer (textAnswer s))
         (setViewState PROCESSING s) w
  else (s, w).

(** What the user and the runtime can do to a mounted component. A
    click on the record button comes in two forms: [ClickRecord media],
    where [getUserMedia] settles with [media] before any other event,
    and [PressRecord] followed, after any other events, by
    [MediaSettle n media], the settling of the [n]-th suspended call. *)
Inductive Event : Type :=
| ClickStart
| ClickClose
| ClickExit (confirmed : bool)
| ClickSkip
| SelectMode (mode : InputMode)
| ChangeText (value : string)
| ClickRecord (media : Outcome unit)
| ClickStop (chunks : list Z)
| ClickSubmit
| ClickSave
| Settle (n : nat)
| PressRecord
| MediaSettle (n : nat) (media : Outcome unit).

Definition in_question_view (s : State) : bool :=
  match viewState s with READY | DONE => false | _ => true end.

Definition is_processing (s : State) : bool :=
  match viewState s with PROCESSING => true | _ => false end.

Definition is_recording (s : State) : bool :=
  match viewState s with RECORDING => true | _ => false end.

Definition is_audio (s : State) : bool :=
  match inputMode s with AUDIO => true | TEXT => false end.

(** Whether the current render offers the control. *)
Definition enabled (s : State) (e : Event) : bool :=
  match e with
  | ClickStart | ClickClose => match viewState s with READY => true | _ => false end
  | ClickSave => match viewState s with DONE => true | _ => false end
  | ClickExit _ | ClickSkip => in_question_view s
  | SelectMode _ => in_question_view s && negb (is_processing s)
  | ChangeText _ | ClickSubmit =>
      in_question_view s && negb (is_processing s) && negb (is_audio s)
  | ClickRecord _ | PressRecord =>
      in_question_view s && negb (is_processing s) && is_audio s && negb (is_recording s)
  | ClickStop _ =>
      in_question_view s && negb (is_processing s) && is_audio s && is_recording s
  | Settle n => (n <? length (pending s))%nat
  | MediaSettle n _ => (n <? length (requested s))%nat
  end.

Definition handle (e : Event) (s : State) (w : World X) : State * World X :=
  match e with
  | ClickStart => (startSession s, w)
  | ClickClose => (call_back OnCancel s, w)
  | ClickExit confirmed => (handleExit confirmed s, w)
  | ClickSkip => (handleSkip (closure_of s) s, w)
  | SelectMode mode => (setInputMode mode s, w)
  | ChangeText value => (setTextAnswer value s, w)
  | ClickRecord media => startRecording media s w
  | ClickStop chunks => stopRecording chunks s w
  | ClickSubmit => submitTextAnswer s w
  | ClickSave => (call_back (OnComplete (results s)) s, w)
  | Settle n =>
      match pending s !! n with
      | Some p => processAnswer_resume p (setPending (delete n (pending s)) s) w
      | None => (s, w)
      end
  | PressRecord => (startRecording_begin s, w)
  | MediaSettle n media =>
      match requested s !! n with
      | Some c => startRecording_resume c media (setRequested (delete n (requested s)) s) w
      | None => (s, w)
      end
  end.

(** The question view reads [currentQ.isEnglish] and [currentQ.item.questionEN]. *)
Definition rerender (s : State) : State :=
  match life s with
  | Mounted =>
      if in_question_view s
      then match displayQuestion s with
           | Some _ => s
           | None => setLife Crashed s
           end
      else s
  | _ => s
  end.

Definition step (sw : State * World X) (e : Event) : State * World X :=
  let '(s, w) := sw in
  match life s with
  | Mounted =>
      if enabled s e
      then let '(s', w') := handle e s w in (rerender s', w')
      else (s, w)
  | _ => (s, w)
  end.

Definition run (sw : State * World X) (events : list Event) : State * World X :=
  fold_left step events sw.

(** No skip while an evaluation is in flight, and nothing but the
    microphone's answer while the microphone is being opened. *)
Definition calm (s : State) (e : Event) : bool :=
  match requested s with
  | [] =>
      match e with
      | ClickSkip => match pending s with [] => true | _ => false end
      | _ => true
      end
  | _ :: _ =>
      match e with
      | MediaSettle _ _ => true
      | _ => false
      end
  end.

Fixpoint orderly (sw : State * World X) (events : list Event) : bool :=
  match events with
  | [] => true
  | e :: rest => calm (fst sw) e && orderly (step sw e) rest
  end.

(** A session: the component is mounted on a pool, then events arrive. *)
Definition session (questions : list QuestionItem) (w : World X) (events : list Event)
  : State * World X :=
  run (mount questions w) events.

End WithPlatform.

(** The journal entries that appended a [RoundResult]. *)
Definition kept (j : list (nat * Finalization)) : list (nat * Finalization) :=
  List.filter (fun e => match snd e with Dropped => false | _ => true end) j.

(** The round indices whose [RoundResult] was appended, in order. *)
Definition recorded (j : list (nat * Finalization)) : list nat := map fst (kept j).







End MockInterviewView.

(** ** A scripted host

    A stand-in for the browser and the service, used to run the code on
    concrete inputs: the service and the file reader answer from a
    script, the clock ticks, and the random comparator reads coins. *)

Module TestHost.

Definition code (c : ascii) : nat := nat_of_ascii c.

Definition is_ws (c : ascii) : bool :=
  ((code c =? 32) || (code c =? 9) || (code c =? 10) || (code c =? 13))%nat.

Definition is_digit (c : ascii) : bool := ((48 <=? code c) && (code c <=? 57))%nat.

Fixpoint skip_ws (s : string) : string :=
  match s with
  | String c rest => if is_ws c then skip_ws rest else s
  | EmptyString => s
  end.

Fixpoint take_digits (s : string) : string * string :=
  match s with
  | String c rest =>
      if is_digit c
      then let '(ds, r) := take_digits rest in (String c ds, r)
      else (EmptyString, s)
  | EmptyString => (EmptyString, s)
  end.

(** [-? int frac? exp?] of the JSON grammar; the literal and the rest. *)
Definition parse_number (s : string) : option (string * string) :=
  let '(sign, s1) :=
    match s with
    | String c rest => if (code c =? 45)%nat then ("-", rest) else ("", s)
    | EmptyString => ("", s)
    end in
  let '(int, s2) := take_digits s1 in
  match int with
  | EmptyString => None
  | String c (String _ _) => if (code c =? 48)%nat then None else Some tt
  | _ => Some tt
  end ≫= fun _ =>
  match s2 with
  | String c rest =>
      if (code c =? 46)%nat
      then let '(ds, r) := take_digits rest in
           match ds with
           | EmptyString => None
           | _ => Some ("." +:+ ds, r)
           end
      else Some ("", s2)
  | EmptyString => Some ("", s2)
  end ≫= fun '(frac, s3) =>
  match s3 with
  | String c rest =>
      if ((code c =? 101) || (code c =? 69))%nat
      then
        let '(esign, r1) :=
          match rest with
          | String c' rest' =>
              if ((code c' =? 43) || (code c' =? 45))%nat
              then (String c' EmptyString, rest')
              else ("", rest)
          | EmptyString => ("", rest)
          end in
        let '(ds, r) := take_digits r1 in
        match ds with
        | EmptyString => None
        | _ => Some (String c EmptyString +:+ esign +:+ ds, r)
        end
      else Some ("", s3)
  | EmptyString => Some ("", s3)
  end ≫= fun '(exp, s4) =>
  Some (sign +:+ int +:+ frac +:+ exp, s4).

(** The characters of a string literal after its opening quote; the
    escapes of the grammar other than [\u]. *)
Fixpoint parse_string_body (s : string) : option (string * string) :=
  match s with
  | EmptyString => None
  | String c rest =>
      if (code c =? 34)%nat then Some (EmptyString, rest)
      else if (code c =? 92)%nat then
        match rest with
        | String e rest' =>
            (if (code e =? 34)%nat then Some (ascii_of_nat 34)
             else if (code e =? 92)%nat then Some (ascii_of_nat 92)
             else if (code e =? 47)%nat then Some (ascii_of_nat 47)
             else if (code e =? 98)%nat then Some (ascii_of_nat 8)
             else if (code e =? 102)%nat then Some (ascii_of_nat 12)
             else if (code e =? 110)%nat then Some (ascii_of_nat 10)
             else if (code e =? 114)%nat then Some (ascii_of_nat 13)
             else if (code e =? 116)%nat then Some (ascii_of_nat 9)
             else None) ≫= fun decoded =>
            parse_string_body rest' ≫= fun '(body, r) =>
            Some (String decoded body, r)
        | EmptyString => None
        end
      else if (code c <? 32)%nat then None
      else parse_string_body rest ≫= fun '(body, r) => Some (String c body, r)
  end.

Fixpoint starts_with (p s : string) : option string :=
  match p with
  | EmptyString => Some s
  | String a p' =>
      match s with
      | String b s' => if Ascii.eqb a b then starts_with p' s' else None
      | EmptyString => None
      end
  end.

Fixpoint parse_value (fuel : nat) (s : string) : option (JSON * string) :=
  match fuel with
  | O => None
  | S fuel' =>
      match skip_ws s with
      | EmptyString => None
      | String c rest as s' =>
          if (code c =? 123)%nat then
            match skip_ws rest with
            | String c' rest' =>
                if (code c' =? 125)%nat then Some (JObj [], rest')
                else parse_members fuel' (String c' rest') []
            | EmptyString => None
            end
          else if (code c =? 91)%nat then
            match skip_ws rest with
            | String c' rest' =>
                if (code c' =? 93)%nat then Some (JArr [], rest')
                else parse_elements fuel' (String c' rest') []
            | EmptyString => None
            end
          else if (code c =? 34)%nat then
            parse_string_body rest ≫= fun '(body, r) => Some (JStr body, r)
          else
            match starts_with "null" s', starts_with "true" s', starts_with "false" s' with
            | Some r, _, _ => Some (JNull, r)
            | _, Some r, _ => Some (JBool true, r)
            | _, _, Some r => Some (JBool false, r)
            | _, _, _ => parse_number s' ≫= fun '(literal, r) => Some (JNum literal, r)
            end
      end
  end
with parse_elements (fuel : nat) (s : string) (acc : list JSON) : option (JSON * string) :=
  match fuel with
  | O => None
  | S fuel' =>
      parse_value fuel' s ≫= fun '(v, r) =>
      match skip_ws r with
      | String c rest =>
          if (code c =? 44)%nat then parse_elements fuel' rest (acc ++ [v])
          else if (code c =? 93)%nat then Some (JArr (acc ++ [v]), rest)
          else None
      | EmptyString => None
      end
  end
with parse_members (fuel : nat) (s : string) (acc : JsObject) : option (JSON * string) :=
  match fuel with
  | O => None
  | S fuel' =>
      match skip_ws s with
      | String c rest =>
          if (code c =? 34)%nat then
            parse_string_body rest ≫= fun '(key, r) =>
            match skip_ws r with
            | String c' rest' =>
                if (code c' =? 58)%nat then
                  parse_value fuel' rest' ≫= fun '(v, r') =>
                  match skip_ws r' with
                  | String c'' rest'' =>
                      if (code c'' =? 44)%nat
                      then parse_members fuel' rest'' (set_field key v acc)
                      else if (code c'' =? 125)%nat
                      then Some (JObj (set_field key v acc), rest'')
                      else None
                  | EmptyString => None
                  end
                else None
            | EmptyString => None
            end
          else None
      | EmptyString => None
      end
  end.

Definition SyntaxError : Exn := JsError "SyntaxError" "Unexpected token in JSON".

(** [JSON.parse] on texts without [\u] escapes. *)
Definition JSON_parse (s : string) : Outcome JSON :=
  match parse_value (3 * String.length s + 3) s with
  | Some (v, rest) =>
      match skip_ws rest with
      | EmptyString => Return v
      | _ => Throw SyntaxError
      end
  | None => Throw SyntaxError
  end.

(** [atob] *)
Definition b64_value (c : ascii) : option Z :=
  let n := code c in
  if ((65 <=? n) && (n <=? 90))%nat then Some (Z.of_nat n - 65)
  else if ((97 <=? n) && (n <=? 122))%nat then Some (Z.of_nat n - 71)
  else if ((48 <=? n) && (n <=? 57))%nat then Some (Z.of_nat n + 4)
  else if (n =? 43)%nat then Some 62
  else if (n =? 47)%nat then Some 63
  else None.

Fixpoint b64_values (s : string) : option (list Z) :=
  match s with
  | EmptyString => Some []
  | String c rest =>
      b64_value c ≫= fun v => b64_values rest ≫= fun vs => Some (v :: vs)
  end.

Fixpoint b64_groups (fuel : nat) (vs : list Z) : list Z :=
  match fuel with
  | O => []
  | S fuel' =>
      match vs with
      | a :: b :: c :: d :: rest =>
          (a * 4 + b / 16) :: ((b mod 16) * 16 + c / 4) :: ((c mod 4) * 64 + d)
          :: b64_groups fuel' rest
      | [a; b; c] => [a * 4 + b / 16; (b mod 16) * 16 + c / 4]
      | [a; b] => [a * 4 + b / 16]
      | _ => []
      end
  end.

Fixpoint strip_ws (s : string) : string :=
  match s with
  | EmptyString => EmptyString
  | String c rest => if is_ws c || (code c =? 12)%nat then strip_ws rest
                     else String c (strip_ws rest)
  end.

Definition strip_padding (s : string) : string :=
  if (String.length s mod 4 =? 0)%nat
  then match String.rev s with
       | String a (String b rest) =>
           if (code a =? 61)%nat
           then if (code b =? 61)%nat then String.rev rest else String.rev (String b rest)
           else s
       | _ => s
       end
  else s.

Definition atob (s : string) : Outcome (list Z) :=
  let body := strip_padding (strip_ws s) in
  if (String.length body mod 4 =? 1)%nat
  then Throw (JsError "InvalidCharacterError" "The string to be decoded is not correctly encoded.")
  else match b64_values body with
       | Some vs => Return (b64_groups (length vs) vs)
       | None =>
           Throw (JsError "InvalidCharacterError"
                    "The string to be decoded is not correctly encoded.")
       end.

(** [trim], for ASCII white space. *)
Definition trim (s : string) : string :=
  String.rev (skip_ws (String.rev (skip_ws s))).

(** A literal denotes zero when its mantissa has no digit but 0. *)
Fixpoint mantissa_nonzero (s : string) : bool :=
  match s with
  | EmptyString => false
  | String c rest =>
      if ((code c =? 101) || (code c =? 69))%nat then false
      else if is_digit c && negb (code c =? 48)%nat then true
      else mantissa_nonzero rest
  end.

Fixpoint units (s : string) : list string :=
  match s with
  | EmptyString => []
  | String c rest => String c EmptyString :: units rest
  end.

(** Insertion sort; a coin says whether the comparator ranked the new
    element before the one it is compared with. *)
Fixpoint insert_by {A} (a : A) (sorted : list A) (coins : list bool)
  : list A * list bool :=
  match sorted with
  | [] => ([a], coins)
  | b :: rest =>
      match coins with
      | false :: coins' =>
          let '(r, c) := insert_by a rest coins' in (b :: r, c)
      | true :: coins' => (a :: b :: rest, coins')
      | [] => (a :: b :: rest, [])
      end
  end.

Fixpoint sort_by {A} (l : list A) (coins : list bool) : list A * list bool :=
  match l with
  | [] => ([], coins)
  | a :: rest => let '(sorted, c) := sort_by rest coins in insert_by a sorted c
  end.

Record Script : Type := mkScript {
  service : list (Outcome GenerateContentResponse);
  reads : list (Outcome string);
  clock : Z;
  coins : list bool
}.

Definition unavailable : Exn := JsError "ApiError" "503 Service Unavailable".

Definition host : Platform Script :=
  mkPlatform Script
    (fun _ x =>
       match service x with
       | o :: rest => (o, mkScript rest (reads x) (clock x) (coins x))
       | [] => (Throw unavailable, x)
       end)
    JSON_parse
    atob
    (fun _ x =>
       match reads x with
       | o :: rest => (o, mkScript (service x) rest (clock x) (coins x))
       | [] => (Throw (JsError "NotReadableError" "The blob could not be read."), x)
       end)
    (fun x => (clock x, mkScript (service x) (reads x) (clock x + 1) (coins x)))
    mantissa_nonzero
    units
    trim
    (fun A l x =>
       let '(sorted, c) := sort_by l (coins x) in
       (sorted, mkScript (service x) (reads x) (clock x) c)).

(** A response that carries only text. *)
Definition textResponse (t : string) : GenerateContentResponse :=
  mkResponse (Some t) None.

(** A response that carries only inline audio data. *)
Definition audioResponse (base64 : string) : GenerateContentResponse :=
  mkResponse None
    (Some [mkCandidate (Some (mkContent (Some [mkResponsePart (Some (mkInlineData (Some base64)))])))]).

Definition start (x : Script) : World Script := mkWorld x [].

End TestHost.

(** ** Sample data *)

Module Samples.
Import Types.

Definition sampleQuestion (ident text : string) (english : option string) : QuestionItem :=
  mkQuestionItem ident Motivation text english "intent" "structure" "key points"
    None (Some false) (Some "") (Some 0).

Definition qa : QuestionItem := sampleQuestion "q-1-0" "为什么选择本专业？" (Some "Why this major?").
Definition qb : QuestionItem := sampleQuestion "q-1-1" "介绍一个项目。" (Some "Describe a project.").
Definition qc : QuestionItem := sampleQuestion "q-1-2" "你的爱好是什么？" None.
Definition qd : QuestionItem := sampleQuestion "q-1-3" "未来的研究计划？" (Some "").

Definition quoted (t : string) : string := dq +:+ t +:+ dq.


(** The text [{"items":[{"question":"Why?"}]}]. *)
Definition partialQuestions : string :=
  "{" +:+ quoted "items" +:+ ":[{" +:+ quoted "question" +:+ ":" +:+ quoted "Why?" +:+ "}]}".



Definition resume : GeminiService.ResumeInput :=
  GeminiService.mkResumeInput "BSc in physics, two internships." None.

(** A script with nothing queued: the service is unavailable, blobs
    cannot be read, and the comparator keeps the order. *)
Definition quiet : TestHost.Script := TestHost.mkScript [] [] 1700000000000 [].

End Samples.

(** ** What the retry loop logs *)

Module Backoff.
Import Retry.

(** The warning and the delay issued after each failed execution, the
    first of them being execution number [i]. *)
Fixpoint backoff_log (errors : list Exn) (i : nat) : list Effect :=
  match errors with
  | [] => []
  | error :: rest =>
      ConsoleWarn (attempt_failed_msg i) error
      :: SetTimeout (1000 * 2 ^ Z.of_nat i)
      :: backoff_log rest (S i)
  end.

(** What the first [k] executions of [fn] threw. *)
Definition failures {X T} (fn : X -> Outcome T * X) (x : X) (k : nat) : list Exn :=
  map (fun a => thrown (attempt fn x a)) (seq 0 k).

(** The delays, in milliseconds, among a list of effects. *)
Definition delays (l : list Effect) : list Z :=
  flat_map (fun ev => match ev with SetTimeout ms => [ms] | _ => [] end) l.

End Backoff.

(** ** Bytes and separators *)

Module Text.

(** A value a [Uint8Array] cell can hold. *)
Definition is_byte (b : Z) : Prop := 0 <= b < 256.

Fixpoint free_of (sep : ascii) (s : string) : bool :=
  match s with
  | EmptyString => true
  | String c rest => negb (Ascii.eqb c sep) && free_of sep rest
  end.

(** [pieces.join(',')] *)
Fixpoint join_comma (pieces : list string) : string :=
  match pieces with
  | [] => EmptyString
  | [p] => p
  | p :: rest => p +:+ "," +:+ join_comma rest
  end.

(** What follows the last occurrence of [sep], if there is one. *)
Fixpoint after_last (sep : ascii) (s : string) : option string :=
  match s with
  | EmptyString => None
  | String c rest =>
      match after_last sep rest with
      | Some t => Some t
      | None => if Ascii.eqb c sep then Some rest else None
      end
  end.

End Text.

(** The world after [console.error(tag, e)]. *)
Definition logged_error {X} (tag : string) (e : Exn) (w : World X) : World X :=
  mkWorld (env w) (log w ++ [ConsoleError tag e]).

(** ** The object built by the callback of [generateQuestions] *)

Module Decoration.

(** [`q-${now}-${index}`] *)
Definition question_id (now : Z) (index : nat) : string :=
  "q-" +:+ pretty now +:+ "-" +:+ pretty index.

Definition decorated {X} (host : Platform X) (item : JSON) (now : Z) (index : nat)
  : JsObject :=
  set_field "practiceCount" (JNum "0")
    (set_field "userNotes" (JStr "")
       (set_field "isFavorite" (JBool false)
          (set_field "id" (JStr (question_id now index))
             (GeminiService.spread host item)))).

(** The keys the callback writes. *)
Definition written : list string := ["id"; "isFavorite"; "userNotes"; "practiceCount"].

End Decoration.
(** ** Shapes of a session of [MockInterviewView] *)

Module RoundShape.
Import Types MockInterviewView.


(** What [processAnswer] is called with: the blob built by [onstop], or
    a text that [submitTextAnswer] let through. *)
Definition input_ok {X} (host : Platform X) (input : AnswerInput) : Prop :=
  match input with
  | AudioAnswer blob => blob_type blob = "audio/webm"
  | TextAnswer text => truthy (Some (String_trim host text)) = true
  end.

(** A result is either a skip, with no answer attached, or an
    evaluated answer: a recording or a text, never both. *)
Definition result_ok {X} (host : Platform X) (r : MockRoundResult) : Prop :=
  match skipped r with
  | Some true =>
      audioBlob r = None /\ Types.textAnswer r = None /\
      transcription r = Some (JStr "Skipped") /\
      feedback r = Some (JStr "Question skipped.")
  | Some false => False
  | None =>
      (exists blob, audioBlob r = Some blob /\ blob_type blob = "audio/webm" /\
                    Types.textAnswer r = None) \/
      (exists text, Types.textAnswer r = Some text /\ audioBlob r = None /\
                    truthy (Some (String_trim host text)) = true)
  end.


End RoundShape.
(** ** [App.tsx]: the other handlers *)

Module AppHandlers.
Import Types GeminiService.

(** Truthiness of [q.isFavorite]. *)
Definition is_favorite (q : QuestionItem) : bool :=
  match isFavorite q with Some b => b | None => false end.

(** [{ ...q, isFavorite: !q.isFavorite }] *)
Definition toggled (q : QuestionItem) : QuestionItem :=
  mkQuestionItem (id q) (category q) (question q) (questionEN q) (intent q)
    (structure q) (keyPoints q) (recommendedAnswer q) (Some (negb (is_favorite q)))
    (userNotes q) (practiceCount q).

(** [{ ...q, userNotes: note }] *)
Definition noted (note : string) (q : QuestionItem) : QuestionItem :=
  mkQuestionItem (id q) (category q) (question q) (questionEN q) (intent q)
    (structure q) (keyPoints q) (recommendedAnswer q) (isFavorite q)
    (Some note) (practiceCount q).

Definition toggleFavorite (id0 : string) (prev : AppState) : AppState :=
  mkAppState (view prev) (profile prev) (analysis prev)
    (map (fun q => if String.eqb (id q) id0 then toggled q else q) (questions prev))
    (isAnalyzing prev) (isGeneratingQuestions prev) (mockHistory prev).

Definition updateNote (id0 note : string) (prev : AppState) : AppState :=
  mkAppState (view prev) (profile prev) (analysis prev)
    (map (fun q => if String.eqb (id q) id0 then noted note q else q) (questions prev))
    (isAnalyzing prev) (isGeneratingQuestions prev) (mockHistory prev).

(** [lang: 'CN' | 'EN'] *)
Inductive Lang : Type := CN | EN.

(** [lang === 'CN' ? 'contentCN' : 'contentEN'] *)
Definition contentKey (lang : Lang) : string :=
  match lang with CN => "contentCN" | EN => "contentEN" end.

(** The TypeError of [v.method(...)] when [v] is not an array. *)
Definition not_an_array (callee method : string) (v : option JSON) : Exn :=
  JsError "TypeError"
    (match v with
     | None => "Cannot read properties of undefined (reading '" +:+ method +:+ "')"
     | Some JNull => "Cannot read properties of null (reading '" +:+ method +:+ "')"
     | Some _ => callee +:+ "." +:+ method +:+ " is not a function"
     end).

(** [intro.style === style], on a value read from the parsed analysis. *)
Definition style_matches (style : string) (intro : JSON) : Outcome bool :=
  (try! st <- get_prop intro "style";
   Return (match st with Some (JStr s) => String.eqb s style | _ => false end))%outcome.

Section WithPlatform.
Context {X : Type} (host : Platform X).

(** The callback of [state.analysis.intros.map(...)]. *)
Definition updateIntro (style : string) (lang : Lang) (value : string) (intro : JSON)
  : Outcome JSON :=
  (try! same <- style_matches style intro;
   Return (if same
           then JObj (set_field (contentKey lang) (JStr value) (spread host intro))
           else intro))%outcome.

Fixpoint map_updateIntro (style : string) (lang : Lang) (value : string)
    (intros : list JSON) : Outcome (list JSON) :=
  match intros with
  | [] => Return []
  | intro :: rest =>
      (try! intro' <- updateIntro style lang value intro;
       try! rest' <- map_updateIntro style lang value rest;
       Return (intro' :: rest'))%outcome
  end.

(** [handleUpdateIntro]. The handler maps over [state.analysis] of its
    render and spreads [prev.analysis] in the updater; the two are the
    same state here, as they are when no other update is queued. A
    [Throw] is an exception of the event handler, which leaves the state
    as it was. *)
Definition handleUpdateIntro (style : string) (lang : Lang) (value : string)
    (state : AppState) : Outcome AppState :=
  if truthy_json host (analysis state)
  then
    match analysis state with
    | Some data =>
        (try! intros <- get_prop data "intros";
         match intros with
         | Some (JArr elements) =>
             try! newIntros <- map_updateIntro style lang value elements;
             Return (mkAppState (view state) (profile state)
                       (Some (JObj (set_field "intros" (JArr newIntros) (spread host data))))
                       (questions state) (isAnalyzing state)
                       (isGeneratingQuestions state) (mockHistory state))
         | other => Throw (not_an_array "state.analysis.intros" "map" other)
         end)%outcome
    | None => Return state
    end
  else Return state.

(** How that callback rewrites one intro into another. *)
Definition rewritten (style : string) (lang : Lang) (value : string) (old new : JSON) : Prop :=
  (style_matches style old = Return false /\ new = old) \/
  (exists fields, old = JObj fields /\ style_matches style old = Return true /\
                  new = JObj (set_field (contentKey lang) (JStr value) fields)).

(** [questions: qData]: the objects built by [generateQuestions] are
    stored as [QuestionItem]s unchecked; [asQuestionItems] stands for
    that reading. *)
Context (asQuestionItems : list JsObject -> list QuestionItem).

Definition failed (prev : AppState) : AppState :=
  mkAppState (view prev) (profile prev) (analysis prev) (questions prev) false false
    (mockHistory prev).

Definition reportFailure (error : Exn) (w : World X) : World X :=
  mkWorld (env w)
    (log w ++ [ConsoleError "" error; Alert "AI 服务暂时繁忙或遇到错误，请稍后重试。"]).

Definition handleStartAnalysis (profile0 : UserProfile) (state : AppState) (w : World X)
  : AppState * World X :=
  let started :=
    mkAppState (view state) profile0 (analysis state) (questions state) true
      (isGeneratingQuestions state) (mockHistory state) in
  let resumeInput :=
    mkResumeInput (resumeText profile0)
      (match resumeFile profile0 with
       | Some (mimeType, data, _) => Some (mkResumeFile mimeType data)
       | None => None
       end) in
  match generateAnalysis host resumeInput (targetMajor profile0) (targetUni profile0) w with
  | (Throw error, w1) => (failed started, reportFailure error w1)
  | (Return analysisData, w1) =>
      let analysed :=
        mkAppState ANALYSIS (Types.profile started) (Some analysisData) (questions started)
          false true (mockHistory started) in
      match generateQuestions host resumeInput (targetMajor profile0) (targetUni profile0) w1
      with
      | (Throw error, w2) => (failed analysed, reportFailure error w2)
      | (Return qData, w2) =>
          (mkAppState (view analysed) (Types.profile analysed) (analysis analysed)
             (asQuestionItems qData) (isAnalyzing analysed) false (mockHistory analysed),
           w2)
      end
  end.

End WithPlatform.

End AppHandlers.

(** ** What the views compute from the state *)

Module Views.
Import Types AppHandlers.

(** [FavoritesView]: [questions.filter(q => q.isFavorite)] *)
Definition favorites (questions : list QuestionItem) : list QuestionItem :=
  List.filter is_favorite questions.

(** [QuestionCard]: the badge shown when
    [item.practiceCount !== undefined && item.practiceCount > 0]. *)
Definition practiceBadge (q : QuestionItem) : option Z :=
  match practiceCount q with
  | Some n => if 0 <? n then Some n else None
  | None => None
  end.

(** [HistoryItem]: [session.rounds.filter(r => !r.skipped).length] *)
Definition completed (r : MockRoundResult) : bool :=
  negb (match skipped r with Some b => b | None => false end).

(** A result that carries an answer, spoken or typed. *)
Definition answered (r : MockRoundResult) : bool :=
  match audioBlob r, Types.textAnswer r with
  | None, None => false
  | _, _ => true
  end.

Definition score (session : MockSession) : nat :=
  length (List.filter completed (rounds session)).

(** [MockHistoryList]: [[...history].sort((a, b) => b.timestamp - a.timestamp)].
    The comparator is a consistent order, so the result is the one of a
    stable sort: insertion, from the right, before the first session
    that is not newer. *)
Fixpoint insert_session (a : MockSession) (sorted : list MockSession) : list MockSession :=
  match sorted with
  | [] => [a]
  | b :: rest =>
      if timestamp b - timestamp a <=? 0
      then a :: b :: rest
      else b :: insert_session a rest
  end.

Definition sortedHistory (history : list MockSession) : list MockSession :=
  fold_right insert_session [] history.

(** [AnalysisView]: [data.intros.findIndex(i => i.style === activeTab)],
    then the intro at that index, or the first one. *)
Fixpoint find_intro (activeTab : string) (intros : list JSON) : Outcome (option JSON) :=
  match intros with
  | [] => Return None
  | intro :: rest =>
      (try! same <- style_matches activeTab intro;
       if same then Return (Some intro) else find_intro activeTab rest)%outcome
  end.

Definition activeIntro (data : JSON) (activeTab : string) : Outcome (option JSON) :=
  (try! intros <- get_prop data "intros";
   match intros with
   | Some (JArr elements) =>
       try! found <- find_intro activeTab elements;
       Return (match found with
               | Some intro => Some intro
               | None => elements !! 0%nat
               end)
   | other => Throw (not_an_array "data.intros" "findIndex" other)
   end)%outcome.

End Views.
(** ** More sample data *)

Module MoreSamples.
Import Types AppHandlers.

Definition emptyProfile : UserProfile := mkUserProfile "" "" "" None.

(** A bank of three questions, the first and the last being favourites. *)
Definition bank : AppState :=
  mkAppState QUESTIONS emptyProfile None
    [toggled Samples.qa; Samples.qb; toggled Samples.qc] false false [].

Definition affinityIntro : JSON :=
  JObj [("style", JStr "Affinity"); ("title", JStr "亲和力与表现力版");
        ("contentCN", JStr "各位老师好。"); ("contentEN", JStr "Good morning.")].

(** An analysis in the shape of [introSchema], with one intro. *)
Definition analysis1 : JSON :=
  JObj [("strengths", JArr []); ("competencyLevel", JStr "B");
        ("competencyEvaluation", JStr "很棒！"); ("intros", JArr [affinityIntro])].

Definition analysed : AppState :=
  mkAppState ANALYSIS emptyProfile (Some analysis1) [] false false [].

End MoreSamples.

(* ================================================================== *)
(** * Part II. Properties                                              *)
(* ================================================================== *)

Module RetryFacts.
Import Retry.

Lemma state_after_shift {X T} (fn : X -> Outcome T * X) k x :
  state_after fn k (snd (fn x)) = state_after fn (S k) x.
Proof.
  induction k as [|k IH]; simpl; [reflexivity|].
  rewrite IH. reflexivity.
Qed.

Lemma attempt_shift {X T} (fn : X -> Outcome T * X) i x :
  attempt fn (snd (fn x)) i = attempt fn x (S i).
Proof. unfold attempt. rewrite state_after_shift. reflexivity. Qed.

Lemma withRetry_from_success {X T} (fn : X -> Outcome T * X) r i lastError x c l v x' :
  fn x = (Return v, x') ->
  withRetry_from (perform (counted fn)) (S r) i lastError (mkWorld (x, c) l)
  = (Return v, mkWorld (x', S c) l).
Proof.
  intros Hfn. cbn [withRetry_from]. unfold try_catch, perform, counted.
  cbn [env log fst snd]. rewrite Hfn. reflexivity.
Qed.

Lemma withRetry_from_failure {X T} (fn : X -> Outcome T * X) r i lastError x c l e x' :
  fn x = (Throw e, x') ->
  withRetry_from (perform (counted fn)) (S r) i lastError (mkWorld (x, c) l)
  = withRetry_from (perform (counted fn)) r (S i) e
      (mkWorld (x', S c)
         ((l ++ [ConsoleWarn (attempt_failed_msg i) e]) ++
          [SetTimeout (1000 * 2 ^ Z.of_nat i)])).
Proof.
  intros Hfn. cbn [withRetry_from]. unfold try_catch at 1, perform at 1, counted at 1.
  cbn [env log fst snd]. rewrite Hfn. reflexivity.
Qed.

Lemma attempt_0 {X T} (fn : X -> Outcome T * X) x : attempt fn x 0 = fst (fn x).
Proof. reflexivity. Qed.

(** The loop entered with [remaining] iterations left, on a counted
    operation whose counter reads [c]. *)
Lemma withRetry_from_run {X T} (fn : X -> Outcome T * X) :
  forall (remaining i : nat) (lastError : Exn) (x : X) (c : nat) (l : list Effect),
    let run := withRetry_from (perform (counted fn)) remaining i lastError
                 (mkWorld (x, c) l) in
    exists k : nat,
      snd (env (snd run)) = (c + k)%nat /\
      (k <= remaining)%nat /\
      fst (env (snd run)) = state_after fn k x /\
      match fst run with
      | Return v =>
          exists j, k = S j /\ attempt fn x j = Return v /\
                    forall a, (a < j)%nat -> is_throw (attempt fn x a) = true
      | Throw e =>
          k = remaining /\
          (forall a, (a < remaining)%nat -> is_throw (attempt fn x a) = true) /\
          e = match remaining with
              | O => lastError
              | S j => thrown (attempt fn x j)
              end
      end.
Proof.
  induction remaining as [|r IH]; intros i lastError x c l; cbn zeta.
  - exists 0%nat. simpl. repeat split; lia.
  - destruct (fn x) as [[v|e] x'] eqn:Hfn.
    + rewrite (withRetry_from_success fn r i lastError x c l v x' Hfn).
      exists 1%nat. cbn [fst snd env]. split; [lia|]. split; [lia|].
      split; [cbn; rewrite Hfn; reflexivity|].
      exists 0%nat. split; [reflexivity|]. split.
      * rewrite attempt_0, Hfn. reflexivity.
      * intros a Ha; lia.
    + rewrite (withRetry_from_failure fn r i lastError x c l e x' Hfn).
      assert (Hx' : x' = snd (fn x)) by (rewrite Hfn; reflexivity).
      assert (H0 : is_throw (attempt fn x 0) = true)
        by (rewrite attempt_0, Hfn; reflexivity).
      destruct (IH (S i) e x' (S c)
                  ((l ++ [ConsoleWarn (attempt_failed_msg i) e]) ++
                   [SetTimeout (1000 * 2 ^ Z.of_nat i)]))
        as (k & Hc & Hk & Hst & Hres).
      exists (S k). split; [rewrite Hc; lia|]. split; [lia|].
      split; [rewrite Hst, Hx'; apply state_after_shift|].
      destruct (fst (withRetry_from _ r (S i) e _)) as [v|e'].
      * destruct Hres as (j & -> & Hj & Hbefore).
        exists (S j). split; [reflexivity|]. split.
        -- rewrite <- attempt_shift, <- Hx'. exact Hj.
        -- intros [|a] Ha; [exact H0|].
           rewrite <- attempt_shift, <- Hx'. apply Hbefore. lia.
      * destruct Hres as (-> & Hall & He). split; [reflexivity|]. split.
        -- intros [|a] Ha; [exact H0|].
           rewrite <- attempt_shift, <- Hx'. apply Hall. lia.
        -- rewrite He. destruct r as [|j].
           ++ rewrite attempt_0, Hfn. reflexivity.
           ++ rewrite <- attempt_shift, <- Hx'. reflexivity.
Qed.

(** C5 (amended). [withRetry] executes the operation at most [retries]
    times and returns the value of the first execution that succeeds,
    all earlier ones having failed; when every execution fails, exactly
    [retries] executions occur and the value thrown is the very value
    thrown by the last execution, with nothing attached to it
    ([undefined] when [retries] is 0 and nothing ran). *)
Theorem withRetry_first_success_or_last_failure {X T}
    (fn : X -> Outcome T * X) (retries : nat) (x : X) (l : list Effect) :
  let run := withRetry (perform (counted fn)) retries (mkWorld (x, 0%nat) l) in
  let executions := snd (env (snd run)) in
  (executions <= retries)%nat /\
  fst (env (snd run)) = state_after fn executions x /\
  match fst run with
  | Return v =>
      exists j, executions = S j /\ attempt fn x j = Return v /\
                forall a, (a < j)%nat -> is_throw (attempt fn x a) = true
  | Throw e =>
      executions = retries /\
      (forall a, (a < retries)%nat -> is_throw (attempt fn x a) = true) /\
      e = match retries with
          | O => JsUndefined
          | S j => thrown (attempt fn x j)
          end
  end.
Proof.
  cbn zeta. unfold withRetry.
  destruct (withRetry_from_run fn retries 0 JsUndefined x 0 l)
    as (k & Hc & Hk & Hst & Hres).
  cbn zeta in Hc, Hst, Hres. rewrite Hc. cbn [Nat.add].
  repeat split; [exact Hk | exact Hst |].
  destruct (fst _); exact Hres.
Qed.

(** C5 as stated fails: when the three attempts fail, what [withRetry]
    throws is the error of the service as it is, an [ApiError], not a
    failure tagged [InvocationExhausted]; with no attempt allowed it
    throws [undefined]. *)
Lemma exhausted_retries_rethrow_the_failure_untagged :
  let fn := generateContent TestHost.host (GeminiService.speechRequest "hello") in
  let run := withRetry (perform fn) default_retries (TestHost.start Samples.quiet) in
  attempt fn Samples.quiet 2 = Throw (JsError "ApiError" "503 Service Unavailable") /\
  fst run = Throw (JsError "ApiError" "503 Service Unavailable") /\
  ~ tagged_InvocationExhausted (thrown (fst run)) /\
  fst (withRetry (perform fn) 0 (TestHost.start Samples.quiet)) = Throw JsUndefined /\
  ~ tagged_InvocationExhausted JsUndefined.
Proof.
  cbn zeta. repeat split; intros (message & H); discriminate H.
Qed.

(** The same loop on the operation itself. *)
Lemma withRetry_first_attempt {X T} (fn : X -> Outcome T * X) (r : nat) (w : World X) v x' :
  fn (env w) = (Return v, x') ->
  withRetry (perform fn) (S r) w = (Return v, mkWorld x' (log w)).
Proof.
  intros Hfn. unfold withRetry. cbn [withRetry_from]. unfold try_catch, perform.
  rewrite Hfn. reflexivity.
Qed.

Lemma withRetry_from_all_fail {X T} (fn : X -> Outcome T * X) :
  forall (remaining i : nat) (lastError : Exn) (w : World X),
    (forall a, (a < remaining)%nat -> is_throw (attempt fn (env w) a) = true) ->
    is_throw (fst (withRetry_from (perform fn) remaining i lastError w)) = true.
Proof.
  induction remaining as [|r IH]; intros i lastError w Hall; [reflexivity|].
  cbn [withRetry_from]. unfold try_catch at 1, perform at 1.
  pose proof (Hall 0%nat ltac:(lia)) as H0. rewrite attempt_0 in H0.
  destruct (fn (env w)) as [[v|e] x'] eqn:Hfn; [discriminate|].
  unfold bind at 1, emit at 1. unfold bind at 1, emit at 1. cbn [env log].
  apply IH. cbn [env]. intros a Ha.
  assert (Hx' : x' = snd (fn (env w))) by (rewrite Hfn; reflexivity).
  rewrite Hx', attempt_shift. apply Hall. lia.
Qed.

Lemma withRetry_all_fail {X T} (fn : X -> Outcome T * X) (retries : nat) (w : World X) :
  (forall a, (a < retries)%nat -> is_throw (attempt fn (env w) a) = true) ->
  is_throw (fst (withRetry (perform fn) retries w)) = true.
Proof. apply withRetry_from_all_fail. Qed.

End RetryFacts.

(** ** The WAV container built by [pcmToWav] *)

Module WavFacts.
Import DataView Wav GeminiService Retry.

(** The four tags of the header are ASCII: one code unit per letter. *)
Ltac tag_codes :=
  change (charCodes "RIFF") with [82; 73; 70; 70] in *;
  change (charCodes "WAVE") with [87; 65; 86; 69] in *;
  change (charCodes "fmt ") with [102; 109; 116; 32] in *;
  change (charCodes "data") with [100; 97; 116; 97] in *;
  change (charCodes "WAVEfmt ") with [87; 65; 86; 69; 102; 109; 116; 32] in *.

Lemma pcmToWav_layout (pcmData : list Z) (sampleRate : Z) :
  pcmToWav pcmData sampleRate
  = Return (mkBlob (wavHeader (length pcmData) sampleRate ++ pcmData) "audio/wav").
Proof.
  unfold pcmToWav, new_ArrayBuffer, writeString.
  set (n := length pcmData).
  tag_codes. cbn [Nat.add repeat].
  unfold setUint32, setUint16, writeCodes, setUint8, obind.
  cbn [length Nat.add Nat.leb list_insert insert].
  unfold Uint8Array_set.
  cbn [length Nat.add Nat.leb].
  fold n. rewrite repeat_length, Nat.leb_refl.
  cbn [take drop Nat.add app].
  rewrite (drop_ge (repeat 0 n) n) by (rewrite repeat_length; lia).
  rewrite app_nil_r.
  unfold wavHeader, le32, le16. tag_codes. cbn [app].
  repeat f_equal.
Qed.

Lemma from_le_le32 (v : Z) : 0 <= v < 4294967296 -> from_le (le32 v) = v.
Proof.
  intros Hv. unfold from_le, le32. cbn [fold_right].
  rewrite (Z.mod_small v 4294967296) by lia.
  assert (H1 : v / 65536 = v / 256 / 256)
    by (rewrite Z.div_div by lia; reflexivity).
  assert (H2 : v / 16777216 = v / 256 / 256 / 256)
    by (rewrite !Z.div_div by lia; reflexivity).
  rewrite H1, H2.
  pose proof (Z.div_mod v 256 ltac:(lia)) as E0.
  pose proof (Z.div_mod (v / 256) 256 ltac:(lia)) as E1.
  pose proof (Z.div_mod (v / 256 / 256) 256 ltac:(lia)) as E2.
  assert (H3 : v / 256 / 256 / 256 < 256).
  { rewrite !Z.div_div by lia. apply Z.div_lt_upper_bound; lia. }
  assert (H4 : 0 <= v / 256 / 256 / 256).
  { rewrite !Z.div_div by lia. apply Z.div_pos; lia. }
  lia.
Qed.

Lemma le32_shape (v : Z) : exists b0 b1 b2 b3, le32 v = [b0; b1; b2; b3].
Proof. unfold le32. eauto. Qed.

Lemma wavHeader_length n rate : length (wavHeader n rate) = 44%nat.
Proof. reflexivity. Qed.

(** C8. When the speech service answers with inline audio that decodes
    to PCM bytes (few enough for the 32-bit size fields of the
    container), [generateSpeech] hands back a blob of type audio/wav
    made of a 44-byte RIFF/WAVE header followed by the PCM bytes
    unchanged; the header declares PCM format, one channel, 16 bits per
    sample, 24000 samples per second, and a chunk size and a data size
    that agree with the PCM length. *)
Theorem generateSpeech_wraps_pcm_in_wav {X} (host : Platform X) (text : string)
    (w w1 : World X) (response : GenerateContentResponse) (base64 : string)
    (codes : list Z) :
  withRetry (perform (generateContent host (speechRequest text))) default_retries w
  = (Return response, w1) ->
  first_inline_data response = Some base64 ->
  base64 <> EmptyString ->
  atob host base64 = Return codes ->
  Z.of_nat (length codes) + 36 < 4294967296 ->
  let pcm := map (fun code => code mod 256) codes in
  exists bytes,
    generateSpeech host text w = (Return (mkBlob bytes "audio/wav"), w1) /\
    length bytes = (44 + length pcm)%nat /\
    drop 44 bytes = pcm /\
    take 4 bytes = charCodes "RIFF" /\
    from_le (take 4 (drop 4 bytes)) = 36 + Z.of_nat (length pcm) /\
    take 8 (drop 8 bytes) = charCodes "WAVEfmt " /\
    from_le (take 4 (drop 16 bytes)) = 16 /\
    from_le (take 2 (drop 20 bytes)) = 1 /\
    from_le (take 2 (drop 22 bytes)) = 1 /\
    from_le (take 4 (drop 24 bytes)) = 24000 /\
    from_le (take 4 (drop 28 bytes)) = 48000 /\
    from_le (take 2 (drop 32 bytes)) = 2 /\
    from_le (take 2 (drop 34 bytes)) = 16 /\
    take 4 (drop 36 bytes) = charCodes "data" /\
    from_le (take 4 (drop 40 bytes)) = Z.of_nat (length pcm).
Proof.
  intros Hcall Hdata Hne Hatob Hsize pcm.
  exists (wavHeader (length pcm) 24000 ++ pcm).
  assert (Hlen : length pcm = length codes) by (unfold pcm; apply length_map).
  split.
  - unfold generateSpeech, try_catch, bind. rewrite Hcall, Hdata.
    destruct base64 as [|c rest]; [congruence|].
    cbn [truthy or_else]. unfold lift, base64ToUint8Array. rewrite Hatob.
    cbn [obind]. fold pcm. rewrite pcmToWav_layout. reflexivity.
  - split; [rewrite length_app, wavHeader_length; reflexivity|].
    pose proof (from_le_le32 (36 + Z.of_nat (length pcm)) ltac:(lia)) as Hriff.
    pose proof (from_le_le32 (Z.of_nat (length pcm)) ltac:(lia)) as Hsz.
    destruct (le32_shape (36 + Z.of_nat (length pcm))) as (a0 & a1 & a2 & a3 & Ea).
    destruct (le32_shape (Z.of_nat (length pcm))) as (b0 & b1 & b2 & b3 & Eb).
    unfold wavHeader. rewrite Ea in Hriff |- *. rewrite Eb in Hsz |- *.
    unfold le32, le16. tag_codes. cbn [app take drop].
    repeat split; try assumption; reflexivity.
Qed.

(** [generateSpeech] run on the scripted host: one answer carrying the
    base64 text of the bytes 0, 1, 2. *)
Lemma generateSpeech_wraps_pcm_in_wav_witness :
  exists bytes,
    generateSpeech TestHost.host "hello"
      (TestHost.start (TestHost.mkScript [Return (TestHost.audioResponse "AAEC")] [] 0 []))
    = (Return (mkBlob bytes "audio/wav"), TestHost.start (TestHost.mkScript [] [] 0 [])) /\
    drop 44 bytes = [0; 1; 2] /\
    from_le (take 4 (drop 40 bytes)) = 3.
Proof.
  destruct (generateSpeech_wraps_pcm_in_wav TestHost.host "hello"
              (TestHost.start (TestHost.mkScript [Return (TestHost.audioResponse "AAEC")] [] 0 []))
              (TestHost.start (TestHost.mkScript [] [] 0 []))
              (TestHost.audioResponse "AAEC") "AAEC" [0; 1; 2]
              eq_refl eq_refl ltac:(discriminate) eq_refl ltac:(vm_compute; reflexivity))
    as (bytes & Hrun & _ & Hdrop & _ & _ & _ & _ & _ & _ & _ & _ & _ & _ & _ & Hsize).
  exists bytes. split; [exact Hrun|]. split; [exact Hdrop|exact Hsize].
Defined.

End WavFacts.

(** ** [handleMockComplete] *)

Module AppFacts.
Import Types App.

Lemma practised_keeps_fields (q : QuestionItem) :
  id (practised q) = id q /\ category (practised q) = category q /\
  question (practised q) = question q /\ questionEN (practised q) = questionEN q /\
  intent (practised q) = intent q /\ structure (practised q) = structure q /\
  keyPoints (practised q) = keyPoints q /\
  recommendedAnswer (practised q) = recommendedAnswer q /\
  isFavorite (practised q) = isFavorite q /\ userNotes (practised q) = userNotes q.
Proof. repeat split. Qed.

(** C10. [handleMockComplete] appends exactly one session holding the
    whole result sequence to the history; every question whose id is
    the [questionId] of some result (skipped or not, once or several
    times) has its practice count, read as 0 when absent, raised by
    exactly one and keeps every other field; every other question is
    unchanged; no question is added, removed or moved. *)
Theorem handleMockComplete_counts_once_and_appends {X} (host : Platform X)
    (results : list MockRoundResult) (prev : AppState) (x : X) :
  let next := fst (handleMockComplete host results prev x) in
  let count q := match practiceCount q with Some n => n | None => 0 end in
  (exists session,
      mockHistory next = mockHistory prev ++ [session] /\ rounds session = results) /\
  length (questions next) = length (questions prev) /\
  forall (i : nat) (q : QuestionItem),
    questions prev !! i = Some q ->
    exists q',
      questions next !! i = Some q' /\
      id q' = id q /\ category q' = category q /\ question q' = question q /\
      questionEN q' = questionEN q /\ intent q' = intent q /\
      structure q' = structure q /\ keyPoints q' = keyPoints q /\
      recommendedAnswer q' = recommendedAnswer q /\ isFavorite q' = isFavorite q /\
      userNotes q' = userNotes q /\
      (In (id q) (map questionId results) -> practiceCount q' = Some (count q + 1)) /\
      (~ In (id q) (map questionId results) -> q' = q).
Proof.
  cbn zeta. unfold handleMockComplete.
  destruct (Date_now host x) as [now_id x1].
  destruct (Date_now host x1) as [now_timestamp x2].
  cbn [fst mockHistory questions].
  split; [eexists; split; reflexivity|].
  split; [apply length_map|].
  intros i q Hq.
  exists (if decide (id q ∈ (list_to_set (map questionId results) : gset string))
          then practised q else q).
  split; [rewrite list_lookup_fmap, Hq; reflexivity|].
  destruct (decide (id q ∈ (list_to_set (map questionId results) : gset string)))
    as [Hin|Hout].
  - destruct (practised_keeps_fields q) as (?&?&?&?&?&?&?&?&?&?).
    repeat split; try assumption.
    intros Hnot. exfalso. apply Hnot.
    apply list_elem_of_In. apply elem_of_list_to_set in Hin. exact Hin.
  - repeat split.
    intros HIn. exfalso. apply Hout.
    apply elem_of_list_to_set, list_elem_of_In. exact HIn.
Qed.

End AppFacts.

(** ** The scripted host obeys the laws of its interface *)

Module TestHostFacts.
Import TestHost.

Lemma insert_by_perm {A} (a : A) (sorted : list A) (cs : list bool) :
  Permutation (fst (insert_by a sorted cs)) (a :: sorted).
Proof.
  revert cs. induction sorted as [|b rest IH]; intros cs; cbn [insert_by].
  - reflexivity.
  - destruct cs as [|[|] cs']; cbn [fst]; try reflexivity.
    specialize (IH cs'). destruct (insert_by a rest cs') as [r c]. cbn [fst] in *.
    rewrite IH. apply perm_swap.
Qed.

Lemma sort_by_perm {A} (l : list A) (cs : list bool) :
  Permutation (fst (sort_by l cs)) l.
Proof.
  revert cs. induction l as [|a rest IH]; intros cs; cbn [sort_by].
  - reflexivity.
  - specialize (IH cs). destruct (sort_by rest cs) as [sorted c]. cbn [fst] in IH.
    rewrite insert_by_perm. rewrite IH. reflexivity.
Qed.

Lemma host_sort_permutes (A : Type) (l : list A) (x : Script) :
  Permutation (fst (sort_random host A l x)) l.
Proof.
  cbn [sort_random host]. pose proof (sort_by_perm l (coins x)) as H.
  destruct (sort_by l (coins x)) as [sorted c]. exact H.
Qed.

End TestHostFacts.

(** ** Picking the rounds *)

Module SelectionFacts.
Import Types MockInterviewView.

Lemma run_closed {X} (host : Platform X) (s : State) (w : World X) (events : list Event) :
  life s <> Mounted -> run host (s, w) events = (s, w).
Proof.
  intros Hlife. unfold run. induction events as [|e rest IH]; [reflexivity|].
  cbn [fold_left]. unfold step at 2. destruct (life s); [congruence|exact IH|exact IH].
Qed.

(** C7. Mounted on a pool of fewer than three questions, the component
    alerts, calls [onCancel] and picks nothing: the selection stays
    empty, and whatever happens afterwards the view state stays READY,
    so the question view is never entered. *)
Theorem small_pool_cancels_at_once {X} (host : Platform X)
    (questions : list QuestionItem) (w : World X) (events : list Event) :
  (length questions < 3)%nat ->
  let mounted := mount host questions w in
  life (fst mounted) = Closed OnCancel /\
  selectedQuestions (fst mounted) = [] /\
  viewState (fst mounted) = READY /\
  env (snd mounted) = env w /\
  log (snd mounted) = log w ++ [Alert "题目库中至少需要3个问题才能开始模拟。"] /\
  session host questions w events = mounted.
Proof.
  intros Hlen. cbn zeta. unfold session, mount, mount_effect.
  apply Nat.ltb_lt in Hlen. rewrite Hlen. cbn [fst snd].
  repeat split. apply run_closed. cbn. discriminate.
Qed.

Lemma small_pool_cancels_at_once_witness :
  viewState (fst (session TestHost.host [Samples.qa; Samples.qb]
                    (TestHost.start Samples.quiet) [ClickStart; ClickSkip])) = READY.
Proof.
  pose proof (small_pool_cancels_at_once TestHost.host [Samples.qa; Samples.qb]
                (TestHost.start Samples.quiet) [ClickStart; ClickSkip]
                ltac:(cbn; lia)) as H.
  cbn zeta in H. destruct H as (_ & _ & Hview & _ & _ & Hsession).
  rewrite Hsession. exact Hview.
Defined.

Lemma three_or_more {A} (l : list A) :
  (3 <= length l)%nat -> exists a b c rest, l = a :: b :: c :: rest.
Proof.
  destruct l as [|a [|b [|c rest]]]; cbn; intros H; try lia. eauto.
Qed.

(** C3 (amended). Mounted on a pool of at least three entries no two of
    which share a key (their id, or the entry itself), the component
    picks exactly three rounds, each holding a question of the pool, no
    two of them the same; rounds 0 and 1 are flagged Chinese and round
    2 English, whatever order the random sort produced. *)
Theorem distinct_pool_gives_three_distinct_rounds {X} (host : Platform X)
    {K : Type} (key : QuestionItem -> K)
    (questions : list QuestionItem) (w : World X) :
  (forall (A : Type) (l : list A) (x : X), Permutation (fst (sort_random host A l x)) l) ->
  (3 <= length questions)%nat ->
  List.NoDup (map key questions) ->
  let s := fst (mount host questions w) in
  exists q0 q1 q2,
    selectedQuestions s =
      [mkSelected (Some q0) false; mkSelected (Some q1) false; mkSelected (Some q2) true] /\
    In q0 questions /\ In q1 questions /\ In q2 questions /\
    List.NoDup [key q0; key q1; key q2] /\
    life s = Mounted /\ viewState s = READY.
Proof.
  intros Hsort Hlen Hnodup. cbn zeta. unfold mount, mount_effect.
  assert (Hltb : (length questions <? 3)%nat = false) by (apply Nat.ltb_ge; lia).
  rewrite Hltb.
  pose proof (Hsort QuestionItem questions (env w)) as Hperm.
  destruct (sort_random host QuestionItem questions (env w)) as [shuffled x'].
  cbn [fst] in Hperm |- *.
  destruct (three_or_more shuffled) as (q0 & q1 & q2 & rest & ->).
  { rewrite (Permutation_length Hperm). exact Hlen. }
  exists q0, q1, q2. cbn.
  assert (Hin : forall q, In q [q0; q1; q2] -> In q questions).
  { intros q Hq. apply (Permutation_in q Hperm). cbn in Hq |- *. tauto. }
  split; [reflexivity|].
  split; [apply Hin; cbn; tauto|].
  split; [apply Hin; cbn; tauto|].
  split; [apply Hin; cbn; tauto|].
  split; [|split; reflexivity].
  assert (Hnd : List.NoDup (map key (q0 :: q1 :: q2 :: rest))).
  { eapply Permutation_NoDup; [|exact Hnodup].
    apply Permutation_map. symmetry. exact Hperm. }
  cbn [map] in Hnd.
  change (key q0 :: key q1 :: key q2 :: map key rest)
    with ([key q0; key q1; key q2] ++ map key rest) in Hnd.
  apply NoDup_app_remove_r in Hnd. exact Hnd.
Qed.

Lemma distinct_pool_gives_three_distinct_rounds_witness :
  exists q0 q1 q2,
    map item (selectedQuestions
                (fst (mount TestHost.host [Samples.qa; Samples.qb; Samples.qc; Samples.qd]
                        (TestHost.start (TestHost.mkScript [] [] 0 [false; true; false])))))
    = [Some q0; Some q1; Some q2] /\
    List.NoDup [id q0; id q1; id q2].
Proof.
  destruct (distinct_pool_gives_three_distinct_rounds TestHost.host id
              [Samples.qa; Samples.qb; Samples.qc; Samples.qd]
              (TestHost.start (TestHost.mkScript [] [] 0 [false; true; false]))
              TestHostFacts.host_sort_permutes
              ltac:(cbn; lia)
              ltac:(cbn; repeat constructor; cbn; intuition discriminate))
    as (q0 & q1 & q2 & Hsel & _ & _ & _ & Hnd & _).
  exists q0, q1, q2. split; [rewrite Hsel; reflexivity|exact Hnd].
Defined.

(** C3 as stated fails: this pool holds three different questions, one
    of them listed twice; with a sort that keeps the order, the question
    listed twice fills rounds 0 and 1. *)
Lemma repeated_entry_is_picked_twice :
  let pool := [Samples.qa; Samples.qa; Samples.qb; Samples.qc] in
  let s := fst (mount TestHost.host pool (TestHost.start Samples.quiet)) in
  List.NoDup [Samples.qa; Samples.qb; Samples.qc] /\
  incl [Samples.qa; Samples.qb; Samples.qc] pool /\
  map item (selectedQuestions s) = [Some Samples.qa; Some Samples.qa; Some Samples.qb] /\
  life s = Mounted.
Proof.
  cbn zeta. split.
  - repeat constructor; cbn; intuition discriminate.
  - split; [intros q Hq; cbn in Hq |- *; tauto|]. split; reflexivity.
Qed.

End SelectionFacts.

(** ** One round: skipping, and the text of the question *)

Module RoundFacts.
Import Types MockInterviewView.

Lemma moveToNext_fields (c : Closure) (s : State) :
  results (moveToNext c s) = results s /\
  journal (moveToNext c s) = journal s /\
  pending (moveToNext c s) = pending s /\
  life (moveToNext c s) = life s /\
  selectedQuestions (moveToNext c s) = selectedQuestions s /\
  mediaRecorderRef (moveToNext c s) = mediaRecorderRef s /\
  currentIndex (moveToNext c s)
    = (if (c_currentIndex c <? 2)%nat then S (currentIndex s) else currentIndex s) /\
  viewState (moveToNext c s) = (if (c_currentIndex c <? 2)%nat then QUESTION else DONE).
Proof. unfold moveToNext. destruct (c_currentIndex c <? 2)%nat; repeat split. Qed.

Lemma rerender_fields (s : State) :
  results (rerender s) = results s /\
  journal (rerender s) = journal s /\
  pending (rerender s) = pending s /\
  selectedQuestions (rerender s) = selectedQuestions s /\
  mediaRecorderRef (rerender s) = mediaRecorderRef s /\
  currentIndex (rerender s) = currentIndex s /\
  viewState (rerender s) = viewState s /\
  inputMode (rerender s) = inputMode s.
Proof.
  unfold rerender. destruct (life s); try (repeat split; fail).
  destruct (in_question_view s); try (repeat split; fail).
  destruct (displayQuestion s); repeat split.
Qed.

(** C6. Skipping in the question view appends exactly one result, with
    [skipped] set, the transcription Skipped and the fixed feedback,
    carrying the id of the current question; the session moves to the
    next round, or to DONE from round 2; nothing is sent to the
    evaluation service and nothing is logged: the world is untouched
    and no evaluation is added to those in flight. *)
Theorem skip_records_one_result_and_advances {X} (host : Platform X)
    (s : State) (w : World X) (q : QuestionItem) (english : bool) :
  life s = Mounted ->
  in_question_view s = true ->
  currentQ (closure_of s) = Some (q, english) ->
  let after := step host (s, w) ClickSkip in
  let r := skippedResult q english in
  results (fst after) = results s ++ [r] /\
  skipped r = Some true /\
  transcription r = Some (JStr "Skipped") /\
  feedback r = Some (JStr "Question skipped.") /\
  questionId r = id q /\
  isEnglishRound r = english /\
  currentIndex (fst after)
    = (if (currentIndex s <? 2)%nat then S (currentIndex s) else currentIndex s) /\
  viewState (fst after) = (if (currentIndex s <? 2)%nat then QUESTION else DONE) /\
  pending (fst after) = pending s /\
  snd after = w.
Proof.
  intros Hlife Hview Hq. cbn zeta. unfold step. rewrite Hlife.
  cbn [enabled]. rewrite Hview. cbn [handle fst snd].
  unfold handleSkip. rewrite Hq.
  set (s1 := note _ _ _).
  destruct (rerender_fields (moveToNext (closure_of s) s1))
    as (Hr & _ & Hp & _ & _ & Hi & Hv & _).
  destruct (moveToNext_fields (closure_of s) s1) as (Hr' & _ & Hp' & _ & _ & _ & Hi' & Hv').
  rewrite Hr, Hr', Hp, Hp', Hi, Hi', Hv, Hv'.
  repeat split.
Qed.

Lemma skip_records_one_result_and_advances_witness :
  let s := fst (session TestHost.host [Samples.qa; Samples.qb; Samples.qc]
                  (TestHost.start Samples.quiet) [ClickStart; ClickSkip; ClickSkip]) in
  viewState (fst (step TestHost.host (s, TestHost.start Samples.quiet) ClickSkip)) = DONE /\
  length (results (fst (step TestHost.host (s, TestHost.start Samples.quiet) ClickSkip)))
  = 3%nat.
Proof.
  cbn zeta.
  pose proof (skip_records_one_result_and_advances TestHost.host
                (fst (session TestHost.host [Samples.qa; Samples.qb; Samples.qc]
                        (TestHost.start Samples.quiet) [ClickStart; ClickSkip; ClickSkip]))
                (TestHost.start Samples.quiet) Samples.qc true
                eq_refl eq_refl eq_refl) as H.
  cbn zeta in H. destruct H as (Hres & _ & _ & _ & _ & _ & _ & Hview & _).
  split; [exact Hview|]. rewrite Hres. reflexivity.
Defined.

Lemma handleSkip_results (s : State) (q : QuestionItem) (english : bool) :
  currentQ (closure_of s) = Some (q, english) ->
  results (handleSkip (closure_of s) s) = results s ++ [skippedResult q english].
Proof.
  intros Hq. unfold handleSkip. rewrite Hq.
  destruct (moveToNext_fields (closure_of s)
              (note (c_currentIndex (closure_of s)) Skipped
                 (setResults (fun prev => prev ++ [skippedResult q english]) s)))
    as (Hr & _).
  rewrite Hr. reflexivity.
Qed.

(** C9. In a round flagged English, the text shown, the text recorded
    by a skip, the text sent to the evaluation and the text recorded
    with its result are one and the same: the question's [questionEN]
    when it is a non-empty string, and otherwise (absent, or empty) the
    Chinese [question]; the recorded round keeps its English flag in
    both cases. The result of an answer is recorded by [processAnswer]
    itself: whenever the evaluation it awaited returns a value other
    than [null], it appends one result carrying that text and the flag;
    in particular a text submitted from the question view and then
    evaluated ends up, with that text of the question, in the results. *)
Theorem english_round_uses_questionEN_or_falls_back {X} (host : Platform X)
    (s : State) (w : World X) (q : QuestionItem) (input : AnswerInput) :
  currentQ (closure_of s) = Some (q, true) ->
  let shown := match questionEN q with
               | Some (String c rest) => String c rest
               | _ => question q
               end in
  displayQuestion s = Some shown /\
  (exists r, results (handleSkip (closure_of s) s) = results s ++ [r] /\
             questionText r = shown /\ isEnglishRound r = true) /\
  (exists p, pending (fst (processAnswer_begin host (closure_of s) input s w))
             = pending s ++ [p] /\
             p_settles p = fst (GeminiService.evaluateMockResponse host input shown true w) /\
             (forall t f, questionText (evaluatedResult p t f) = shown /\
                          isEnglishRound (evaluatedResult p t f) = true) /\
             forall (s1 : State) (w1 : World X) (evaluation : JSON),
               p_settles p = Return evaluation ->
               evaluation <> JNull ->
               exists r,
                 results (fst (processAnswer_resume p s1 w1)) = results s1 ++ [r] /\
                 questionText r = shown /\ isEnglishRound r = true) /\
  (life s = Mounted ->
   viewState s = QUESTION ->
   inputMode s = TEXT ->
   pending s = [] ->
   truthy (Some (String_trim host (MockInterviewView.textAnswer s))) = true ->
   forall evaluation : JSON,
     fst (GeminiService.evaluateMockResponse host
            (TextAnswer (MockInterviewView.textAnswer s)) shown true w)
     = Return evaluation ->
     evaluation <> JNull ->
     exists r,
       results (fst (run host (s, w) [ClickSubmit; Settle 0])) = results s ++ [r] /\
       questionText r = shown /\ isEnglishRound r = true /\
       Types.textAnswer r = Some (MockInterviewView.textAnswer s)).
Proof.
  intros Hq. cbn zeta.
  assert (Htext : questionTextOf q true
                  = match questionEN q with
                    | Some (String c rest) => String c rest
                    | _ => question q
                    end).
  { unfold questionTextOf. destruct (questionEN q) as [[|c rest]|]; reflexivity. }
  split; [unfold displayQuestion; rewrite Hq, Htext; reflexivity|].
  assert (Hreads : forall evaluation : JSON,
             evaluation <> JNull ->
             exists t f, get_prop evaluation "transcription" = Return t /\
                         get_prop evaluation "feedback" = Return f).
  { intros evaluation Hnn. destruct evaluation; cbn; eauto. congruence. }
  split; [|split].
  - exists (skippedResult q true). split; [apply handleSkip_results, Hq|].
    split; [exact Htext|reflexivity].
  - unfold processAnswer_begin. rewrite Hq, Htext.
    destruct (GeminiService.evaluateMockResponse host input _ true w) as [settles w'].
    eexists. split; [reflexivity|]. split; [reflexivity|].
    split; [intros t f; split; reflexivity|].
    intros s1 w1 evaluation Hsettles Hnn.
    destruct (Hreads evaluation Hnn) as (t & f & Ht & Hf).
    cbn [p_settles fst] in Hsettles.
    unfold processAnswer_resume. cbn [p_settles p_closure]. rewrite Hsettles, Ht, Hf.
    cbn [fst]. eexists. split.
    + match goal with |- results (moveToNext ?c ?s2) = _ =>
        destruct (moveToNext_fields c s2) as (Hr & _); rewrite Hr
      end. reflexivity.
    + split; reflexivity.
  - intros Hl Hv Hm Hp Htyped evaluation Heval Hnn.
    destruct (Hreads evaluation Hnn) as (t & f & Ht & Hf).
    exists (mkMockRoundResult (id q) (questionTextOf q true) true None t f
              (Some (MockInterviewView.textAnswer s)) None).
    split; [|rewrite Htext; repeat split].
    unfold run. cbn [fold_left]. unfold step at 2. rewrite Hl.
    cbn [enabled]. unfold in_question_view, is_processing, is_audio. rewrite Hv, Hm.
    cbn [negb andb handle]. unfold submitTextAnswer. rewrite Htyped.
    unfold processAnswer_begin. rewrite Hq, Htext.
    destruct (GeminiService.evaluateMockResponse host _ _ true w) as [settles w'].
    cbn [fst] in Heval. subst settles. rewrite <- Htext.
    set (p := mkPending _ _ _ _ _ _).
    assert (Hshow : rerender (setPending (pending (setViewState PROCESSING s) ++ [p])
                                (setViewState PROCESSING s))
                    = setPending (pending (setViewState PROCESSING s) ++ [p])
                        (setViewState PROCESSING s)).
    { unfold rerender, displayQuestion. cbn [life setPending setViewState].
      rewrite Hl. destruct (in_question_view _); [|reflexivity].
      match goal with |- context [currentQ ?c] =>
        change (currentQ c) with (currentQ (closure_of s))
      end.
      rewrite Hq. reflexivity. }
    rewrite Hshow. unfold step. cbn [life setPending setViewState]. rewrite Hl.
    cbn [enabled pending setPending setViewState]. rewrite Hp. cbn [app length Nat.ltb Nat.leb].
    cbn [handle pending setPending lookup list_lookup].
    destruct (rerender_fields
                (fst (processAnswer_resume p
                        (setPending (delete 0%nat [p])
                           (setPending [p] (setViewState PROCESSING s))) w')))
      as (Hr & _).
    destruct (processAnswer_resume p _ w') as [s2 w2] eqn:Hresume.
    cbn [fst] in *. rewrite Hr.
    unfold processAnswer_resume in Hresume. subst p.
    cbn [p_settles p_closure] in Hresume. rewrite Ht, Hf in Hresume.
    injection Hresume as <- _.
    match goal with |- results (moveToNext ?c ?s3) = _ =>
      destruct (moveToNext_fields c s3) as (Hr' & _); rewrite Hr'
    end. reflexivity.
Qed.

(** Round 2 of a session on the scripted host, the question picked for
    it having an English text; the answer is typed and evaluated. *)
Lemma english_round_uses_questionEN_or_falls_back_witness :
  let s := fst (session TestHost.host [Samples.qb; Samples.qc; Samples.qa]
                  (TestHost.start Samples.quiet)
                  [ClickStart; ClickSkip; ClickSkip; SelectMode TEXT;
                   ChangeText "Because."]) in
  let s' := fst (run TestHost.host (s, TestHost.start Samples.quiet)
                   [ClickSubmit; Settle 0]) in
  displayQuestion s = Some "Why this major?" /\
  exists r, results s' = results s ++ [r] /\
            questionText r = "Why this major?" /\ isEnglishRound r = true.
Proof.
  cbn zeta.
  pose proof (english_round_uses_questionEN_or_falls_back TestHost.host
                (fst (session TestHost.host [Samples.qb; Samples.qc; Samples.qa]
                        (TestHost.start Samples.quiet)
                        [ClickStart; ClickSkip; ClickSkip; SelectMode TEXT;
                         ChangeText "Because."]))
                (TestHost.start Samples.quiet) Samples.qa (TextAnswer "Because.")
                eq_refl) as H.
  cbn zeta in H. destruct H as (Hshown & _ & _ & Hrun).
  split; [exact Hshown|].
  destruct (Hrun eq_refl eq_refl eq_refl eq_refl eq_refl
              (GeminiService.fallbackEvaluation (TextAnswer "Because."))
              eq_refl ltac:(discriminate))
    as (r & Hres & Htext & Henglish & _).
  exists r. split; [exact Hres|]. split; [exact Htext|exact Henglish].
Defined.

End RoundFacts.

(** ** The gateway: what is absorbed and what is passed on *)

Module GatewayFacts.
Import Retry RetryFacts GeminiService Types MockInterviewView.

Lemma answerParts_text {X} (host : Platform X) (t prompt : string) (w : World X) :
  answerParts host (TextAnswer t) prompt w
  = (Return [TextPart prompt; TextPart ("Student Text Answer: " +:+ dq +:+ t +:+ dq)], w).
Proof. reflexivity. Qed.

Lemma answerParts_returns {X} (host : Platform X) (input : AnswerInput) (prompt : string)
    (w : World X) :
  (forall blob, input = AudioAnswer blob ->
                is_throw (fst (readAsDataURL host blob (env w))) = false) ->
  is_throw (fst (answerParts host input prompt w)) = false.
Proof.
  intros Hread. destruct input as [blob|t]; [|reflexivity].
  specialize (Hread blob eq_refl).
  unfold answerParts, blobToBase64, bind, perform, ret.
  destruct (readAsDataURL host blob (env w)) as [[url|e] x']; [reflexivity|discriminate].
Qed.

Lemma evaluation_never_throws_after_parts {X} (host : Platform X) (input : AnswerInput)
    (parts : list Part) (w1 : World X) :
  is_throw
    (fst (try_catch
            (bind (withRetry (perform (generateContent host (evaluationRequest parts)))
                     default_retries)
               (fun response => lift (JSON_parse host (or_else (text response) "{}"))))
            (fun error => bind (emit (ConsoleError "Evaluation failed:" error))
                            (fun _ => ret (fallbackEvaluation input)))
            w1)) = false.
Proof.
  unfold try_catch.
  destruct (bind _ _ w1) as [[v|e] w2]; reflexivity.
Qed.

(** C1 (amended). Once the answer has been put into the request (always
    so for text; for audio, when the blob could be read),
    [evaluateMockResponse] returns and never throws. If moreover the
    service call fails at each of the three attempts, what it returns is
    the fallback: as transcription the text typed in, or the marker
    Error processing audio, and as feedback the fixed notice; handed
    that value, [processAnswer] appends a result holding both and moves
    on without any alert, so the round is completed. *)
Theorem evaluateMockResponse_absorbs_service_failure {X} (host : Platform X)
    (input : AnswerInput) (question : string) (isEnglish : bool) (w : World X) :
  (forall blob, input = AudioAnswer blob ->
                is_throw (fst (readAsDataURL host blob (env w))) = false) ->
  let prompt := evaluationPrompt question isEnglish (isAudioInput input) in
  let marker := match input with
                | AudioAnswer _ => "Error processing audio."
                | TextAnswer typed => typed
                end in
  let notice := "Could not generate feedback due to an error." in
  is_throw (fst (evaluateMockResponse host input question isEnglish w)) = false /\
  (forall parts w1,
      answerParts host input prompt w = (Return parts, w1) ->
      (forall a, (a < default_retries)%nat ->
                 is_throw (attempt (generateContent host (evaluationRequest parts))
                             (env w1) a) = true) ->
      fst (evaluateMockResponse host input question isEnglish w)
      = Return (fallbackEvaluation input)) /\
  get_prop (fallbackEvaluation input) "transcription" = Return (Some (JStr marker)) /\
  get_prop (fallbackEvaluation input) "feedback" = Return (Some (JStr notice)) /\
  (forall (p : Pending) (s : State) (w' : World X),
      p_settles p = Return (fallbackEvaluation input) ->
      let after := processAnswer_resume p s w' in
      results (fst after)
      = results s ++ [evaluatedResult p (Some (JStr marker)) (Some (JStr notice))] /\
      viewState (fst after)
      = (if (c_currentIndex (p_closure p) <? 2)%nat then QUESTION else DONE) /\
      snd after = w').
Proof.
  intros Hread. cbn zeta.
  split.
  - pose proof (answerParts_returns host input
                  (evaluationPrompt question isEnglish (isAudioInput input)) w Hread) as Hparts.
    unfold evaluateMockResponse. unfold bind at 1.
    destruct (answerParts host input _ w) as [[parts|e] w1]; [|discriminate].
    apply evaluation_never_throws_after_parts.
  - split.
    + intros parts w1 Hparts Hfail.
      unfold evaluateMockResponse. unfold bind at 1. rewrite Hparts.
      unfold try_catch, bind at 1.
      pose proof (withRetry_all_fail (generateContent host (evaluationRequest parts))
                    default_retries w1 Hfail) as Hthrow.
      destruct (withRetry _ default_retries w1) as [[v|e] w2]; [discriminate|].
      reflexivity.
    + split; [destruct input; reflexivity|]. split; [destruct input; reflexivity|].
      intros p s w' Hsettles. cbn zeta. unfold processAnswer_resume. rewrite Hsettles.
      assert (Ht : get_prop (fallbackEvaluation input) "transcription"
                   = Return (Some (JStr match input with
                                        | AudioAnswer _ => "Error processing audio."
                                        | TextAnswer typed => typed
                                        end))) by (destruct input; reflexivity).
      assert (Hf : get_prop (fallbackEvaluation input) "feedback"
                   = Return (Some (JStr "Could not generate feedback due to an error.")))
        by (destruct input; reflexivity).
      rewrite Ht, Hf. cbn [fst snd].
      set (s1 := note _ _ _).
      destruct (RoundFacts.moveToNext_fields (p_closure p) s1) as (Hr & _ & _ & _ & _ & _ & _ & Hv).
      rewrite Hr, Hv. repeat split.
Qed.

Lemma evaluateMockResponse_absorbs_service_failure_witness :
  fst (evaluateMockResponse TestHost.host (TextAnswer "I led a team of 4 engineers")
         "介绍一个项目。" false (TestHost.start Samples.quiet))
  = Return (JObj [("transcription", JStr "I led a team of 4 engineers");
                  ("feedback", JStr "Could not generate feedback due to an error.")]).
Proof.
  pose proof (evaluateMockResponse_absorbs_service_failure TestHost.host
                (TextAnswer "I led a team of 4 engineers") "介绍一个项目。" false
                (TestHost.start Samples.quiet)
                ltac:(intros blob Hblob; discriminate Hblob)) as H.
  cbn zeta in H. destruct H as (_ & Hfallback & _).
  apply (Hfallback _ _ eq_refl).
  intros [|[|[|a]]] Ha; try reflexivity. unfold default_retries in Ha. lia.
Defined.

(** C1 as stated fails: the blob is read before the guarded block, and a
    read that fails makes [evaluateMockResponse] throw; [processAnswer]
    catches it, alerts, and moves on with no result for the round. *)
Lemma unreadable_audio_makes_evaluation_throw :
  let blob := mkBlob [26; 69; 223; 163] "audio/webm" in
  let w := TestHost.start Samples.quiet in
  fst (evaluateMockResponse TestHost.host (AudioAnswer blob) "介绍一个项目。" false w)
  = Throw (JsError "NotReadableError" "The blob could not be read.") /\
  let s := fst (session TestHost.host [Samples.qa; Samples.qb; Samples.qc] w
                  [ClickStart; ClickRecord (Return tt); ClickStop [26; 69; 223; 163];
                   Settle 0]) in
  results s = [] /\ currentIndex s = 1%nat /\ viewState s = QUESTION.
Proof. cbn zeta. split; [reflexivity|]. repeat split. Qed.




End GatewayFacts.

(** ** A whole session: the results and the rounds *)

Module SessionFacts.
Import Types MockInterviewView.









(** *** Journals that list the rounds in order *)









Section WithPlatform.
Context {X : Type} (host : Platform X).
























End WithPlatform.



(** Outside the orderly sessions: skip pressed while the answer of the
    round is being evaluated. The skip records the round and moves on;
    the evaluation then settles in the closure of the old render,
    records the same round again and moves on once more. Round 1 is
    never played, and the session ends with four results. *)
Lemma skip_while_evaluating_records_a_round_twice :
  let events :=
    [ClickStart; SelectMode TEXT; ChangeText "first"; ClickSubmit; ClickSkip; Settle 0;
     ChangeText "second"; ClickSubmit; ClickSkip; Settle 0; ClickSave] in
  let start := mount TestHost.host [Samples.qa; Samples.qb; Samples.qc]
                 (TestHost.start Samples.quiet) in
  let s := fst (run TestHost.host start events) in
  orderly TestHost.host start events = false /\
  length (results s) = 4%nat /\
  map questionId (results s)
  = [id Samples.qa; id Samples.qa; id Samples.qc; id Samples.qc] /\
  map skipped (results s) = [Some true; None; Some true; None] /\
  recorded (journal s) = [0; 0; 2; 2]%nat /\
  life s = Closed (OnComplete (results s)).
Proof. cbn zeta. repeat split. Qed.

(** The same press during round 1 moves the index to 3, where there is
    no question to render. *)
Lemma skip_while_evaluating_round_1_crashes :
  let events :=
    [ClickStart; ClickSkip; SelectMode TEXT; ChangeText "second"; ClickSubmit; ClickSkip;
     Settle 0] in
  let s := fst (session TestHost.host [Samples.qa; Samples.qb; Samples.qc]
                  (TestHost.start Samples.quiet) events) in
  currentIndex s = 3%nat /\ viewState s = QUESTION /\ life s = Crashed.
Proof. cbn zeta. repeat split. Qed.

(** Outside the orderly sessions as well: an answer typed while the
    microphone is being opened. The typed answer of round 0 is
    evaluated and recorded; then the microphone answers and the
    recorder it starts still belongs to the render of round 0, so that
    stopping it evaluates and records round 0 again and moves on once
    more. No skip is pressed; round 1 is never played. *)
Lemma answer_typed_while_the_microphone_opens_records_a_round_twice :
  let events :=
    [ClickStart; PressRecord; SelectMode TEXT; ChangeText "first"; ClickSubmit; Settle 0;
     MediaSettle 0 (Return tt); SelectMode AUDIO; ClickStop [0; 1; 2]; Settle 0] in
  let start := mount TestHost.host [Samples.qa; Samples.qb; Samples.qc]
                 (TestHost.start
                    (TestHost.mkScript [] [Return "data:audio/webm;base64,AAEC"] 0 [])) in
  let s := fst (run TestHost.host start events) in
  orderly TestHost.host start events = false /\
  map questionId (results s) = [id Samples.qa; id Samples.qa] /\
  map skipped (results s) = [None; None] /\
  recorded (journal s) = [0; 0]%nat /\
  currentIndex s = 2%nat /\ viewState s = QUESTION /\ life s = Mounted.
Proof. cbn zeta. repeat split. Qed.

(** The same with the answer of round 1 typed while the microphone,
    asked for in round 1, is being opened: the index reaches 3. *)
Lemma answer_typed_while_the_microphone_opens_in_round_1_crashes :
  let events :=
    [ClickStart; ClickSkip; PressRecord; SelectMode TEXT; ChangeText "second"; ClickSubmit;
     Settle 0; MediaSettle 0 (Return tt); SelectMode AUDIO; ClickStop [0; 1; 2]; Settle 0] in
  let s := fst (session TestHost.host [Samples.qa; Samples.qb; Samples.qc]
                  (TestHost.start
                     (TestHost.mkScript [] [Return "data:audio/webm;base64,AAEC"] 0 []))
                  events) in
  currentIndex s = 3%nat /\ life s = Crashed.
Proof. cbn zeta. repeat split. Qed.

(** The record button on a device that answers at once: [ClickRecord]
    is the press followed at once by the answer. *)
Lemma ClickRecord_is_press_then_answer {X} (host : Platform X) (s : State) (w : World X)
    (media : Outcome unit) :
  life s = Mounted ->
  rerender s = s ->
  step host (s, w) (ClickRecord media)
  = run host (s, w) [PressRecord; MediaSettle (length (requested s)) media].
Proof.
  intros Hl Hr. unfold run. cbn [fold_left]. unfold step at 3. rewrite Hl.
  unfold step at 1. rewrite Hl.
  change (enabled s PressRecord) with (enabled s (ClickRecord media)).
  destruct (enabled s (ClickRecord media)) eqn:Hen.
  - cbn [handle].
    assert (Hr' : rerender (startRecording_begin s) = startRecording_begin s).
    { revert Hr. unfold rerender, startRecording_begin, displayQuestion, in_question_view.
      destruct s as [sel idx res vs im ta mr pend req lf jr]. cbn in *. subst lf.
      destruct vs; try reflexivity;
        destruct (currentQ _) as [[q english]|]; try reflexivity; discriminate. }
    rewrite Hr'. unfold step.
    assert (Hl' : life (startRecording_begin s) = Mounted) by exact Hl.
    rewrite Hl'. cbn [enabled]. unfold startRecording_begin.
    cbn [requested setRequested].
    rewrite length_app. cbn [length].
    replace (length (requested s) <? length (requested s) + 1)%nat with true
      by (symmetry; apply Nat.ltb_lt; lia).
    cbn [handle requested setRequested].
    rewrite lookup_app_r by lia. rewrite Nat.sub_diag. cbn [lookup list_lookup].
    rewrite delete_middle, app_nil_r.
    unfold startRecording.
    destruct s as [sel idx res vs im ta mr pend req lf jr]. reflexivity.
  - unfold step. rewrite Hl. cbn [enabled].
    replace (length (requested s) <? length (requested s))%nat with false
      by (symmetry; apply Nat.ltb_irrefl).
    reflexivity.
Qed.

End SessionFacts.

(** ** The back-off of [withRetry] *)

Module BackoffFacts.
Import Retry Backoff.

Lemma failures_S {X T} (fn : X -> Outcome T * X) (x : X) (k : nat) :
  failures fn x (S k) = thrown (fst (fn x)) :: failures fn (snd (fn x)) k.
Proof.
  unfold failures. cbn [seq map]. f_equal.
  rewrite <- seq_shift, map_map. apply map_ext. intros a.
  rewrite RetryFacts.attempt_shift. reflexivity.
Qed.

Lemma withRetry_from_log {X T} (fn : X -> Outcome T * X) :
  forall (remaining k i : nat) (lastError : Exn) (w : World X),
    (k <= remaining)%nat ->
    (forall a, (a < k)%nat -> is_throw (attempt fn (env w) a) = true) ->
    k = remaining \/ is_throw (attempt fn (env w) k) = false ->
    log (snd (withRetry_from (perform fn) remaining i lastError w))
    = log w ++ backoff_log (failures fn (env w) k) i.
Proof.
  induction remaining as [|r IH]; intros k i lastError w Hk Hfail Hstop.
  - assert (k = 0%nat) as -> by lia. cbn. rewrite app_nil_r. reflexivity.
  - cbn [withRetry_from]. unfold try_catch at 1, perform at 1.
    destruct (fn (env w)) as [[v|e] x'] eqn:Hfn.
    + destruct k as [|k].
      * cbn. rewrite app_nil_r. reflexivity.
      * pose proof (Hfail 0%nat ltac:(lia)) as H0.
        rewrite RetryFacts.attempt_0, Hfn in H0. discriminate.
    + destruct k as [|k].
      * destruct Hstop as [Hs|Hs]; [discriminate|].
        rewrite RetryFacts.attempt_0, Hfn in Hs. discriminate.
      * unfold bind at 1, emit at 1. unfold bind at 1, emit at 1. cbn [env log].
        assert (Hx' : x' = snd (fn (env w))) by (rewrite Hfn; reflexivity).
        rewrite (IH k (S i) e _ ltac:(lia)); cbn [env log].
        -- rewrite failures_S, Hfn. cbn [fst snd thrown backoff_log].
           rewrite <- !app_assoc. reflexivity.
        -- intros a Ha. rewrite Hx', RetryFacts.attempt_shift. apply Hfail. lia.
        -- destruct Hstop as [Hs|Hs]; [left; lia|right].
           rewrite Hx', RetryFacts.attempt_shift. exact Hs.
Qed.

Lemma delays_backoff_log (errors : list Exn) :
  forall i, delays (backoff_log errors i)
            = map (fun a => 1000 * 2 ^ Z.of_nat a) (seq i (length errors)).
Proof.
  induction errors as [|e rest IH]; intros i; [reflexivity|].
  cbn [backoff_log length seq map]. unfold delays in *. cbn [flat_map app].
  rewrite IH. reflexivity.
Qed.

Lemma sum_of_delays (k : nat) :
  forall i, fold_right Z.add 0 (map (fun a => 1000 * 2 ^ Z.of_nat a) (seq i k))
            = 1000 * 2 ^ Z.of_nat i * (2 ^ Z.of_nat k - 1).
Proof.
  induction k as [|k IH]; intros i; [cbn; lia|].
  cbn [seq map fold_right]. rewrite IH.
  rewrite !Nat2Z.inj_succ, !Z.pow_succ_r by lia. lia.
Qed.

Lemma failures_length {X T} (fn : X -> Outcome T * X) x k :
  length (failures fn x k) = k.
Proof. unfold failures. rewrite length_map, length_seq. reflexivity. Qed.

(** X1. After each failed execution, the last one included, [withRetry]
    logs one warning [Attempt i+1 failed:] with the error and waits
    [1000 * 2^i] ms; a successful execution logs nothing. With [k]
    failures the waits add up to [1000 * (2^k - 1)] ms. *)
Theorem withRetry_backs_off_after_each_failure {X T} (fn : X -> Outcome T * X)
    (retries k : nat) (w : World X) :
  (k <= retries)%nat ->
  (forall a, (a < k)%nat -> is_throw (attempt fn (env w) a) = true) ->
  k = retries \/ is_throw (attempt fn (env w) k) = false ->
  let run := withRetry (perform fn) retries w in
  let added := backoff_log (failures fn (env w) k) 0 in
  log (snd run) = log w ++ added /\
  delays added = map (fun a => 1000 * 2 ^ Z.of_nat a) (seq 0 k) /\
  fold_right Z.add 0 (delays added) = 1000 * (2 ^ Z.of_nat k - 1).
Proof.
  intros Hk Hfail Hstop run added. subst run added.
  split; [apply withRetry_from_log; assumption|].
  rewrite delays_backoff_log, failures_length, sum_of_delays.
  split; [reflexivity|]. cbn [Z.of_nat]. lia.
Qed.

(** Two failures, then an answer: waits of 1000 and 2000 ms. *)
Lemma withRetry_backs_off_after_each_failure_witness :
  let fn := generateContent TestHost.host (GeminiService.speechRequest "hi") in
  let w := TestHost.start
             (TestHost.mkScript [Throw TestHost.unavailable; Throw JsUndefined;
                                 Return (TestHost.textResponse "ok")] [] 0 []) in
  log (snd (withRetry (perform fn) 3 w))
  = [ConsoleWarn "Attempt 1 failed:" TestHost.unavailable; SetTimeout 1000;
     ConsoleWarn "Attempt 2 failed:" JsUndefined; SetTimeout 2000].
Proof.
  cbv zeta.
  refine (proj1 (withRetry_backs_off_after_each_failure
                   (generateContent TestHost.host (GeminiService.speechRequest "hi")) 3 2
                   (TestHost.start _) _ _ _)).
  - lia.
  - intros [|[|a]] Ha; [reflexivity|reflexivity|lia].
  - right. reflexivity.
Defined.

End BackoffFacts.

(** ** Speech synthesis: failures and the bytes of the container *)

Module SpeechFacts.
Import DataView Wav GeminiService Retry Text.

Lemma le16_bytes (v : Z) : Forall is_byte (le16 v).
Proof.
  unfold le16, is_byte. cbv zeta.
  pose proof (Z.mod_pos_bound v 65536 ltac:(lia)) as Hv.
  repeat constructor.
  - apply Z.mod_pos_bound; lia.
  - apply Z.mod_pos_bound; lia.
  - apply Z.div_pos; lia.
  - apply Z.div_lt_upper_bound; lia.
Qed.

Lemma le32_bytes (v : Z) : Forall is_byte (le32 v).
Proof.
  unfold le32, is_byte. cbv zeta.
  pose proof (Z.mod_pos_bound v 4294967296 ltac:(lia)) as Hv.
  repeat constructor; try (apply Z.mod_pos_bound; lia).
  - apply Z.div_pos; lia.
  - apply Z.div_lt_upper_bound; lia.
Qed.

Lemma wavHeader_bytes (n : nat) (rate : Z) : Forall is_byte (wavHeader n rate).
Proof.
  unfold wavHeader. WavFacts.tag_codes.
  repeat (apply Forall_app; split);
    try apply le32_bytes; try apply le16_bytes;
    repeat constructor; unfold is_byte; lia.
Qed.

Lemma from_le_le16 (v : Z) : 0 <= v < 65536 -> from_le (le16 v) = v.
Proof.
  intros Hv. unfold from_le, le16. cbn [fold_right].
  rewrite (Z.mod_small v 65536) by lia.
  pose proof (Z.div_mod v 256 ltac:(lia)). lia.
Qed.

(** X2. [pcmToWav] never throws, whatever the data and the sample
    rate: every write falls inside the buffer. The blob is 44 bytes
    longer than the data, which it carries unchanged after the header;
    every header cell is a byte; and for a rate below 2^31 the header
    is consistent: its byte rate is the sample rate times its block
    align, and its block align is its channel count times its bits per
    sample over 8. *)
Theorem pcmToWav_is_total_and_consistent (pcmData : list Z) (sampleRate : Z) :
  exists bytes,
    pcmToWav pcmData sampleRate = Return (mkBlob bytes "audio/wav") /\
    length bytes = (44 + length pcmData)%nat /\
    drop 44 bytes = pcmData /\
    Forall is_byte (take 44 bytes) /\
    (0 <= sampleRate < 2147483648 ->
     let channels := from_le (take 2 (drop 22 bytes)) in
     let rate := from_le (take 4 (drop 24 bytes)) in
     let byteRate := from_le (take 4 (drop 28 bytes)) in
     let blockAlign := from_le (take 2 (drop 32 bytes)) in
     let bits := from_le (take 2 (drop 34 bytes)) in
     rate = sampleRate /\ byteRate = rate * blockAlign /\
     blockAlign * 8 = channels * bits).
Proof.
  exists (wavHeader (length pcmData) sampleRate ++ pcmData).
  split; [apply WavFacts.pcmToWav_layout|].
  split; [rewrite length_app, WavFacts.wavHeader_length; reflexivity|].
  split; [apply drop_app_length'; reflexivity|].
  split.
  { rewrite take_app_length' by reflexivity. apply wavHeader_bytes. }
  intros Hrate. cbv zeta.
  pose proof (WavFacts.from_le_le32 sampleRate ltac:(lia)) as Hr.
  pose proof (WavFacts.from_le_le32 (sampleRate * 1 * 2) ltac:(lia)) as Hb.
  destruct (WavFacts.le32_shape (36 + Z.of_nat (length pcmData))) as (a0 & a1 & a2 & a3 & Ea).
  destruct (WavFacts.le32_shape sampleRate) as (r0 & r1 & r2 & r3 & Er).
  destruct (WavFacts.le32_shape (sampleRate * 1 * 2)) as (c0 & c1 & c2 & c3 & Ec).
  unfold wavHeader. rewrite Ea. rewrite Er in Hr |- *. rewrite Ec in Hb |- *.
  unfold le32, le16. WavFacts.tag_codes. cbn [app take drop].
  rewrite Hr, Hb. unfold from_le. cbn [fold_right].
  change ((1 * 2) mod 65536) with 2. change (1 mod 65536) with 1.
  change (16 mod 65536) with 16. change (2 mod 256) with 2.
  change (1 mod 256) with 1. change (16 mod 256) with 16.
  change (2 / 256) with 0. change (1 / 256) with 0. change (16 / 256) with 0.
  lia.
Qed.

(** A one-byte recording at 8000 samples per second. *)
Lemma pcmToWav_is_total_and_consistent_witness :
  exists bytes,
    pcmToWav [7] 8000 = Return (mkBlob bytes "audio/wav") /\
    from_le (take 4 (drop 28 bytes)) = 16000.
Proof.
  destruct (pcmToWav_is_total_and_consistent [7] 8000)
    as (bytes & Hrun & _ & _ & _ & Hfields).
  exists bytes. split; [exact Hrun|].
  destruct (Hfields ltac:(lia)) as (Hr & Hb & Ha).
  rewrite Hb, Hr.
  injection (eq_trans (eq_sym Hrun) (WavFacts.pcmToWav_layout [7] 8000)) as ->.
  reflexivity.
Defined.

Lemma writeCodes_inside (codes : list Z) :
  forall (view : Buffer) (offset : nat),
    (offset + length codes <= length view)%nat ->
    writeCodes view offset codes
    = Return (take offset view ++ map (fun c => c mod 256) codes ++
              drop (offset + length codes) view).
Proof.
  unfold Buffer. induction codes as [|c rest IH]; intros view offset Hin.
  - cbn [writeCodes map length app]. rewrite Nat.add_0_r, take_drop. reflexivity.
  - cbn [length] in Hin. cbn [writeCodes]. unfold setUint8.
    destruct (Nat.leb_spec (offset + 1) (length view)) as [_|Hout]; [|lia].
    cbn [obind]. unfold Buffer in *. rewrite IH by (rewrite length_insert; lia).
    rewrite (take_S_r _ offset (c mod 256)) by (apply list_lookup_insert_eq; lia).
    rewrite take_insert_ge by lia.
    rewrite drop_insert_lt by lia.
    cbn [map length]. rewrite <- app_assoc. cbn [app].
    replace (S offset + length rest)%nat with (offset + S (length rest))%nat by lia.
    reflexivity.
Qed.

Lemma writeCodes_outside (codes : list Z) :
  forall (view : Buffer) (offset : nat),
    codes <> [] ->
    (length view < offset + length codes)%nat ->
    writeCodes view offset codes = Throw RangeError.
Proof.
  unfold Buffer. induction codes as [|c rest IH]; intros view offset Hne Hout; [congruence|].
  cbn [length] in Hout. cbn [writeCodes]. unfold setUint8.
  destruct (Nat.leb_spec (offset + 1) (length view)) as [Hin|_]; [|reflexivity].
  cbn [obind]. unfold Buffer in *. apply IH.
  - destruct rest; [cbn [length] in Hout; lia|discriminate].
  - rewrite length_insert. lia.
Qed.

Lemma codeUnits_nonempty (cp : Z) : codeUnits cp <> [].
Proof. unfold codeUnits. destruct (cp <? 65536); discriminate. Qed.

(** A string that is not empty has at least one code unit. *)
Lemma charCodes_nonempty (s : string) : s <> EmptyString -> charCodes s <> [].
Proof.
  destruct s as [|c rest]; [congruence|]. intros _.
  cbn [charCodes]. cbv zeta.
  repeat match goal with
         | |- (if ?b then _ else _) <> [] => destruct b
         | |- match ?r with EmptyString => _ | String _ _ => _ end <> [] => destruct r
         end; try discriminate.
  intros H. apply app_eq_nil in H. exact (codeUnits_nonempty _ (proj1 H)).
Qed.

(** A text of ASCII characters has one code unit per character. *)
Lemma charCodes_ascii (s : string) :
  Forall (fun c => c < 128) (map byte (list_ascii_of_string s)) ->
  charCodes s = map byte (list_ascii_of_string s).
Proof.
  induction s as [|c rest IH]; intros Hs; [reflexivity|].
  cbn [list_ascii_of_string map] in Hs |- *.
  apply Forall_cons in Hs as [Hc Hrest].
  cbn [charCodes]. cbv zeta.
  destruct (Z.ltb_spec (byte c) 128) as [_|Hge]; [|lia].
  rewrite IH by exact Hrest. reflexivity.
Qed.

(** X3. [writeString] writes the code units of the string, each reduced
    to a byte (its low eight bits), one cell per code unit, in place
    from the offset on and leaves every other cell as it was; it
    throws a RangeError exactly when the string is not empty and its
    code units do not fit between the offset and the end of the
    buffer. *)
Theorem writeString_writes_in_place_or_throws (view : Buffer) (offset : nat) (s : string) :
  ((offset + length (charCodes s) <= length view)%nat ->
   writeString view offset s
   = Return (take offset view ++ map (fun c => c mod 256) (charCodes s) ++
             drop (offset + length (charCodes s)) view)) /\
  (s = EmptyString -> writeString view offset s = Return view) /\
  (s <> EmptyString -> (length view < offset + length (charCodes s))%nat ->
   writeString view offset s = Throw RangeError).
Proof.
  unfold writeString. split; [|split].
  - intros Hin. apply writeCodes_inside. exact Hin.
  - intros ->. reflexivity.
  - intros Hne Hout.
    apply writeCodes_outside; [|exact Hout].
    apply charCodes_nonempty. exact Hne.
Qed.

(** Outside ASCII the reduction is real: U+4F60, three bytes of UTF-8,
    is the one code unit 20320 and fills one cell with 96; U+1F600 is a
    surrogate pair and fills two cells with the low bytes of its halves;
    and a cell too few makes the write throw. *)
Lemma writeString_writes_in_place_or_throws_witness :
  charCodes "你" = [20320] /\
  writeString [7; 7; 7] 1 "你" = Return [7; 96; 7] /\
  charCodes "😀" = [55357; 56832] /\
  writeString [7; 7; 7] 1 "😀" = Return [7; 61; 0] /\
  writeString [7; 7; 7] 2 "😀" = Throw RangeError.
Proof.
  split; [reflexivity|]. split.
  { exact (proj1 (writeString_writes_in_place_or_throws [7; 7; 7] 1 "你")
             ltac:(vm_compute; lia)). }
  split; [reflexivity|]. split.
  { exact (proj1 (writeString_writes_in_place_or_throws [7; 7; 7] 1 "😀")
             ltac:(vm_compute; lia)). }
  exact (proj2 (proj2 (writeString_writes_in_place_or_throws [7; 7; 7] 2 "😀"))
           ltac:(discriminate) ltac:(vm_compute; lia)).
Defined.

Lemma generateSpeech_body {X} (host : Platform X) (text : string) (w : World X) :
  let tried := withRetry (perform (generateContent host (speechRequest text)))
                 default_retries w in
  generateSpeech host text w
  = match fst tried with
    | Throw e => (Throw e, logged_error "TTS generation failed:" e (snd tried))
    | Return response =>
        match first_inline_data response with
        | Some (String c s) =>
            match atob host (String c s) with
            | Return codes =>
                let pcm := map (fun code => code mod 256) codes in
                (Return (mkBlob (wavHeader (length pcm) 24000 ++ pcm) "audio/wav"),
                 snd tried)
            | Throw e => (Throw e, logged_error "TTS generation failed:" e (snd tried))
            end
        | _ => (Throw (JsError "Error" "No audio data returned"),
                logged_error "TTS generation failed:" (JsError "Error" "No audio data returned") (snd tried))
        end
    end.
Proof.
  cbv zeta. unfold generateSpeech, try_catch at 1, bind at 1.
  destruct (withRetry _ default_retries w) as [[response|e] w1]; cbn [fst snd]; [|reflexivity].
  destruct (first_inline_data response) as [[|c s]|]; cbn [truthy or_else]; try reflexivity.
  unfold lift, base64ToUint8Array.
  destruct (atob host (String c s)) as [codes|e]; cbn [obind]; [|reflexivity].
  rewrite WavFacts.pcmToWav_layout. reflexivity.
Qed.

(** X4. [generateSpeech] has no fallback: whatever the service and the
    decoder do, it either returns a blob of type audio/wav whose cells
    are all bytes, at least the 44 of the header, and then logs nothing
    of its own, or it rethrows the error after logging it once as
    [TTS generation failed:]. *)
Theorem generateSpeech_returns_wav_or_logs_and_rethrows {X} (host : Platform X)
    (text : string) (w : World X) :
  let tried := withRetry (perform (generateContent host (speechRequest text)))
                 default_retries w in
  let run := generateSpeech host text w in
  match fst run with
  | Return blob =>
      blob_type blob = "audio/wav" /\ (44 <= length (blob_bytes blob))%nat /\
      Forall is_byte (blob_bytes blob) /\ snd run = snd tried
  | Throw e => snd run = logged_error "TTS generation failed:" e (snd tried)
  end.
Proof.
  cbv zeta. rewrite generateSpeech_body. cbv zeta.
  destruct (fst (withRetry _ default_retries w)) as [response|e]; [|reflexivity].
  destruct (first_inline_data response) as [[|c s]|]; try reflexivity.
  destruct (atob host (String c s)) as [codes|e]; [|reflexivity].
  cbn [fst snd blob_type blob_bytes]. split; [reflexivity|].
  split; [rewrite length_app, WavFacts.wavHeader_length; lia|].
  split; [|reflexivity].
  apply Forall_app. split; [apply wavHeader_bytes|].
  apply Forall_map. apply Forall_true. intros code. unfold is_byte.
  apply Z.mod_pos_bound. lia.
Qed.

(** X5. An answer of the speech service without inline audio data (none
    at all, or an empty string) makes [generateSpeech] throw the error
    [No audio data returned], logged once; the service is not asked
    again. *)
Theorem generateSpeech_without_audio_data_throws {X} (host : Platform X) (text : string)
    (w w1 : World X) (response : GenerateContentResponse) :
  withRetry (perform (generateContent host (speechRequest text))) default_retries w
  = (Return response, w1) ->
  truthy (first_inline_data response) = false ->
  generateSpeech host text w
  = (Throw (JsError "Error" "No audio data returned"),
     mkWorld (env w1)
       (log w1 ++ [ConsoleError "TTS generation failed:"
                     (JsError "Error" "No audio data returned")])).
Proof.
  intros Hcall Hnone. rewrite generateSpeech_body. cbv zeta. rewrite Hcall. cbn [fst snd].
  destruct (first_inline_data response) as [[|c s]|]; try reflexivity. discriminate.
Qed.

(** The service answers with text only. *)
Lemma generateSpeech_without_audio_data_throws_witness :
  generateSpeech TestHost.host "hello"
    (TestHost.start (TestHost.mkScript [Return (TestHost.textResponse "sorry")] [] 0 []))
  = (Throw (JsError "Error" "No audio data returned"),
     mkWorld (TestHost.mkScript [] [] 0 [])
       [ConsoleError "TTS generation failed:" (JsError "Error" "No audio data returned")]).
Proof.
  apply (generateSpeech_without_audio_data_throws TestHost.host "hello"
           (TestHost.start (TestHost.mkScript [Return (TestHost.textResponse "sorry")] [] 0 []))
           (TestHost.start (TestHost.mkScript [] [] 0 []))
           (TestHost.textResponse "sorry")); reflexivity.
Defined.

End SpeechFacts.

(** ** Reading a blob as base64 *)

Module EncodingFacts.
Import GeminiService Text.

Lemma split_comma_nonempty (s : string) : split_comma s <> [].
Proof.
  destruct s as [|c rest]; cbn [split_comma]; [discriminate|].
  destruct (split_comma rest); [discriminate|].
  destruct (Ascii.eqb c ","); discriminate.
Qed.

Lemma split_comma_free (s : string) : free_of "," s = true -> split_comma s = [s].
Proof.
  induction s as [|c rest IH]; [reflexivity|].
  cbn [free_of split_comma]. intros [Hc Hrest]%andb_prop.
  rewrite (IH Hrest). apply negb_true_iff in Hc. rewrite Hc. reflexivity.
Qed.

Lemma split_comma_at_first (header rest : string) :
  free_of "," header = true ->
  split_comma (header +:+ "," +:+ rest) = header :: split_comma rest.
Proof.
  induction header as [|c header IH]; intros Hfree.
  - change ("" +:+ "," +:+ rest) with (String "," rest). cbn [split_comma].
    destruct (split_comma rest) eqn:E; [destruct (split_comma_nonempty rest E)|].
    reflexivity.
  - cbn [free_of] in Hfree. apply andb_prop in Hfree as [Hc Hfree].
    change (String c header +:+ "," +:+ rest) with (String c (header +:+ "," +:+ rest)).
    cbn [split_comma]. rewrite (IH Hfree). apply negb_true_iff in Hc. rewrite Hc. reflexivity.
Qed.

(** X6. When the reader delivers a data URL, [blobToBase64] resolves to
    what stands between its first and its second comma: the whole
    payload of [header,payload] when the payload has no comma, as
    base64 text never has. A result without any comma resolves to
    [undefined]. Nothing is logged. *)
Theorem blobToBase64_resolves_to_the_payload {X} (host : Platform X) (blob : Blob)
    (w : World X) (url : string) (x' : X) :
  readAsDataURL host blob (env w) = (Return url, x') ->
  exists r,
    blobToBase64 host blob w = (Return r, mkWorld x' (log w)) /\
    (forall header payload,
        url = header +:+ "," +:+ payload ->
        free_of "," header = true -> free_of "," payload = true ->
        r = Some payload) /\
    (free_of "," url = true -> r = None).
Proof.
  intros Hread. exists (split_comma url !! 1%nat).
  split; [|split].
  - unfold blobToBase64, bind, perform, ret. rewrite Hread. reflexivity.
  - intros header payload -> Hh Hp.
    rewrite (split_comma_at_first _ _ Hh), (split_comma_free _ Hp). reflexivity.
  - intros Hfree. rewrite (split_comma_free _ Hfree). reflexivity.
Qed.

(** A WebM recording read as a data URL. *)
Lemma blobToBase64_resolves_to_the_payload_witness :
  blobToBase64 TestHost.host (mkBlob [1; 2; 3] "audio/webm")
    (TestHost.start (TestHost.mkScript [] [Return "data:audio/webm;base64,AQID"] 0 []))
  = (Return (Some "AQID"), TestHost.start (TestHost.mkScript [] [] 0 [])).
Proof.
  destruct (blobToBase64_resolves_to_the_payload TestHost.host (mkBlob [1; 2; 3] "audio/webm")
              (TestHost.start (TestHost.mkScript [] [Return "data:audio/webm;base64,AQID"] 0 []))
              "data:audio/webm;base64,AQID" (TestHost.mkScript [] [] 0 []) eq_refl)
    as (r & Hrun & Hpayload & _).
  rewrite Hrun.
  rewrite (Hpayload "data:audio/webm;base64" "AQID" eq_refl eq_refl eq_refl).
  reflexivity.
Defined.

End EncodingFacts.

(** ** The question bank built by [generateQuestions] *)

Module QuestionFacts.
Import GeminiService Retry Text Decoration.

Lemma lookup_set_field_eq (k : string) (v : JSON) (fields : JsObject) :
  lookup_field k (set_field k v fields) = Some v.
Proof.
  induction fields as [|[k' v'] rest IH]; cbn [set_field lookup_field].
  - rewrite String.eqb_refl. reflexivity.
  - destruct (String.eqb k k') eqn:E; cbn [lookup_field]; rewrite ?String.eqb_refl, ?E; auto.
Qed.

Lemma lookup_set_field_ne (k k0 : string) (v : JSON) (fields : JsObject) :
  k0 <> k -> lookup_field k0 (set_field k v fields) = lookup_field k0 fields.
Proof.
  intros Hne. apply String.eqb_neq in Hne.
  induction fields as [|[k' v'] rest IH]; cbn [set_field lookup_field].
  - rewrite Hne. reflexivity.
  - destruct (String.eqb k k') eqn:E; cbn [lookup_field].
    + apply String.eqb_eq in E. subst k'. rewrite Hne. reflexivity.
    + rewrite IH. reflexivity.
Qed.

Lemma pretty_N_go_free (x : N) :
  forall s, free_of "-" s = true -> free_of "-" (pretty_N_go x s) = true.
Proof.
  induction (N.lt_wf_0 x) as [x _ IH]; intros s Hs.
  assert (x = 0 \/ 0 < x)%N as [->|Hpos] by lia.
  - rewrite pretty_N_go_0. exact Hs.
  - rewrite pretty_N_go_step by exact Hpos. apply IH.
    + apply N.div_lt; lia.
    + cbn [free_of]. rewrite Hs, andb_true_r.
      unfold pretty_N_char. repeat case_match; reflexivity.
Qed.

Lemma pretty_nat_free (n : nat) : free_of "-" (pretty n) = true.
Proof.
  unfold pretty, pretty_nat, pretty, pretty_N.
  case_decide; [reflexivity|]. apply pretty_N_go_free. reflexivity.
Qed.

Lemma after_last_free (sep : ascii) (s : string) :
  free_of sep s = true -> after_last sep s = None.
Proof.
  induction s as [|c rest IH]; [reflexivity|].
  cbn [free_of after_last]. intros [Hc Hrest]%andb_prop.
  rewrite (IH Hrest). apply negb_true_iff in Hc. rewrite Hc. reflexivity.
Qed.

Lemma after_last_app (sep : ascii) (a d : string) :
  free_of sep d = true -> after_last sep (a +:+ String sep d) = Some d.
Proof.
  intros Hd. induction a as [|c a IH].
  - change ("" +:+ String sep d) with (String sep d). cbn [after_last].
    rewrite (after_last_free _ _ Hd), Ascii.eqb_refl. reflexivity.
  - change (String c a +:+ String sep d) with (String c (a +:+ String sep d)).
    cbn [after_last]. rewrite IH. reflexivity.
Qed.

Lemma append_assoc (a b c : string) : (a +:+ b) +:+ c = a +:+ b +:+ c.
Proof.
  induction a as [|x a IH]; [reflexivity|].
  change (String x (a +:+ b) +:+ c = String x (a +:+ b +:+ c)).
  change (String x ((a +:+ b) +:+ c) = String x (a +:+ b +:+ c)).
  rewrite IH. reflexivity.
Qed.

Lemma question_id_index (now now' : Z) (i j : nat) :
  question_id now i = question_id now' j -> i = j.
Proof.
  unfold question_id. intros Heq.
  assert (Hshape : forall (t : Z) (k : nat),
             "q-" +:+ pretty t +:+ "-" +:+ pretty k
             = ("q-" +:+ pretty t) +:+ String "-" (pretty k)).
  { intros t k. rewrite append_assoc. reflexivity. }
  rewrite !Hshape in Heq.
  apply (f_equal (after_last "-")) in Heq.
  rewrite !after_last_app in Heq by apply pretty_nat_free.
  injection Heq as Heq. exact (pretty_nat_inj _ _ Heq).
Qed.

(** The callback applied along the array: a clock reading per item. *)
Lemma map_decorate_run {X} (host : Platform X) (items : list JSON) :
  forall (index : nat) (w : World X),
  exists (nows : list Z) (w' : World X),
    map_decorate host items index w
    = (Return (map (fun p => decorated host (fst (fst p)) (snd (fst p)) (snd p))
                   (zip (zip items nows) (seq index (length items)))), w') /\
    length nows = length items /\ log w' = log w.
Proof.
  induction items as [|item rest IH]; intros index w.
  - exists [], w. repeat split.
  - cbn [map_decorate]. unfold bind at 1, decorate at 1, bind at 1, perform at 1.
    destruct (Date_now host (env w)) as [t x1] eqn:Hnow. unfold ret at 1.
    destruct (IH (S index) (mkWorld x1 (log w))) as (nows & w' & Hrun & Hlen & Hlog).
    unfold bind at 1. rewrite Hrun. unfold ret.
    exists (t :: nows), w'. cbn [length seq zip zip_with map fst snd].
    rewrite Hlen. repeat split. exact Hlog.
Qed.

Lemma decorated_fields {X} (host : Platform X) (item : JSON) (now : Z) (index : nat) :
  let q := decorated host item now index in
  lookup_field "id" q = Some (JStr (question_id now index)) /\
  lookup_field "isFavorite" q = Some (JBool false) /\
  lookup_field "userNotes" q = Some (JStr "") /\
  lookup_field "practiceCount" q = Some (JNum "0") /\
  forall k, ~ In k written -> lookup_field k q = lookup_field k (spread host item).
Proof.
  cbv zeta. unfold decorated.
  repeat split.
  - rewrite !lookup_set_field_ne by discriminate. apply lookup_set_field_eq.
  - rewrite !lookup_set_field_ne by discriminate. apply lookup_set_field_eq.
  - rewrite !lookup_set_field_ne by discriminate. apply lookup_set_field_eq.
  - apply lookup_set_field_eq.
  - intros k Hk. unfold written in Hk. cbn [In] in Hk.
    rewrite !lookup_set_field_ne by (intros ->; tauto). reflexivity.
Qed.

Lemma generateQuestions_after_parse {X} (host : Platform X) (input : ResumeInput)
    (major uni : string) (w w1 : World X) (response : GenerateContentResponse)
    (data : JSON) :
  withRetry (perform (generateContent host (questionsRequest input major uni)))
    default_retries w = (Return response, w1) ->
  JSON_parse host (or_else (text response) "{}") = Return data ->
  generateQuestions host input major uni w
  = match get_prop data "items" with
    | Throw e => (Throw e, logged_error "Question generation failed:" e w1)
    | Return items =>
        match (if truthy_json host items then items else Some (JArr [])) with
        | Some (JArr elements) => map_decorate host elements 0 w1
        | _ => (Throw (JsError "TypeError" "(data.items || []).map is not a function"),
                logged_error "Question generation failed:"
                  (JsError "TypeError" "(data.items || []).map is not a function") w1)
        end
    end.
Proof.
  intros Hcall Hparse.
  unfold generateQuestions, try_catch at 1, bind at 1. rewrite Hcall.
  unfold bind at 1, lift at 1. rewrite Hparse.
  unfold bind at 1, lift at 1.
  destruct (get_prop data "items") as [items|e]; [|reflexivity].
  destruct (if truthy_json host items then items else Some (JArr []))
    as [[| | | |elements|]|]; try reflexivity.
  destruct (map_decorate_run host elements 0 w1) as (nows & w' & Hrun & _ & _).
  rewrite Hrun. reflexivity.
Qed.

Lemma generateQuestions_on_array {X} (host : Platform X) (input : ResumeInput)
    (major uni : string) (w w1 : World X) (response : GenerateContentResponse)
    (data : JSON) (elems : list JSON) :
  withRetry (perform (generateContent host (questionsRequest input major uni)))
    default_retries w = (Return response, w1) ->
  JSON_parse host (or_else (text response) "{}") = Return data ->
  get_prop data "items" = Return (Some (JArr elems)) ->
  generateQuestions host input major uni w = map_decorate host elems 0 w1.
Proof.
  intros Hcall Hparse Hitems.
  rewrite (generateQuestions_after_parse host input major uni w w1 response data
             Hcall Hparse), Hitems.
  reflexivity.
Qed.

(** X7. When the service's answer parses to a value whose [items] is an
    array, [generateQuestions] returns one object per element, in the
    same order, and logs nothing more. Each object carries the id
    [q-<clock reading>-<position>], [isFavorite: false],
    [userNotes: ''] and [practiceCount: 0], whatever the element held
    under these four keys, and every other property of the element
    unchanged. *)
Theorem generateQuestions_decorates_each_item {X} (host : Platform X) (input : ResumeInput)
    (major uni : string) (w w1 : World X) (response : GenerateContentResponse)
    (data : JSON) (elems : list JSON) :
  withRetry (perform (generateContent host (questionsRequest input major uni)))
    default_retries w = (Return response, w1) ->
  JSON_parse host (or_else (text response) "{}") = Return data ->
  get_prop data "items" = Return (Some (JArr elems)) ->
  exists (qs : list JsObject) (w2 : World X),
    generateQuestions host input major uni w = (Return qs, w2) /\
    log w2 = log w1 /\
    length qs = length elems /\
    forall (i : nat) (item : JSON),
      elems !! i = Some item ->
      exists (q : JsObject) (now : Z),
        qs !! i = Some q /\
        lookup_field "id" q = Some (JStr ("q-" +:+ pretty now +:+ "-" +:+ pretty i)) /\
        lookup_field "isFavorite" q = Some (JBool false) /\
        lookup_field "userNotes" q = Some (JStr "") /\
        lookup_field "practiceCount" q = Some (JNum "0") /\
        forall k, ~ In k ["id"; "isFavorite"; "userNotes"; "practiceCount"] ->
                  lookup_field k q = lookup_field k (spread host item).
Proof.
  intros Hcall Hparse Hitems.
  rewrite (generateQuestions_on_array host input major uni w w1 response data elems
             Hcall Hparse Hitems).
  destruct (map_decorate_run host elems 0 w1) as (nows & w2 & Hrun & Hlen & Hlog).
  eexists _, w2. split; [exact Hrun|]. split; [exact Hlog|].
  split.
  { rewrite length_map, !length_zip, length_seq, Hlen. lia. }
  intros i item Hi.
  assert (Hlt : (i < length elems)%nat) by (apply lookup_lt_is_Some; eauto).
  destruct (lookup_lt_is_Some_2 nows i ltac:(lia)) as [now Hnow].
  exists (decorated host item now i), now.
  split.
  { rewrite list_lookup_fmap.
    rewrite (proj2 (lookup_zip_with_Some _ _ _ i (item, now, i))); [reflexivity|].
    exists (item, now), i. split; [reflexivity|]. split.
    - apply lookup_zip_with_Some. exists item, now. auto.
    - rewrite lookup_seq. split; [reflexivity|exact Hlt]. }
  apply (decorated_fields host item now i).
Qed.

(** One question comes back; the clock reads 5. *)
Lemma generateQuestions_decorates_each_item_witness :
  exists (qs : list JsObject) (w2 : World TestHost.Script),
    generateQuestions TestHost.host Samples.resume "CS" "THU"
      (TestHost.start
         (TestHost.mkScript [Return (TestHost.textResponse Samples.partialQuestions)] [] 5 []))
    = (Return qs, w2) /\
    length qs = 1%nat.
Proof.
  destruct (generateQuestions_decorates_each_item TestHost.host Samples.resume "CS" "THU"
              (TestHost.start
                 (TestHost.mkScript [Return (TestHost.textResponse Samples.partialQuestions)]
                    [] 5 []))
              (TestHost.start (TestHost.mkScript [] [] 5 []))
              (TestHost.textResponse Samples.partialQuestions)
              (JObj [("items", JArr [JObj [("question", JStr "Why?")]])])
              [JObj [("question", JStr "Why?")]]
              ltac:(vm_compute; reflexivity) ltac:(vm_compute; reflexivity) eq_refl)
    as (qs & w2 & Hrun & _ & Hlen & _).
  exists qs, w2. split; [exact Hrun|exact Hlen].
Defined.

Lemma NoDup_map_by {A B C : Type} (f : A -> B) (g : A -> C) (l : list A) :
  (forall a b, f a = f b -> g a = g b) ->
  List.NoDup (map g l) -> List.NoDup (map f l).
Proof.
  intros Hfg. induction l as [|a l IH]; cbn [map]; intros Hnd; [constructor|].
  apply List.NoDup_cons_iff in Hnd as [Hnotin Hnd].
  apply List.NoDup_cons_iff. split; [|apply IH; exact Hnd].
  intros Hin. apply Hnotin. apply in_map_iff in Hin as (b & Hb & Hbin).
  apply in_map_iff. exists b. split; [|exact Hbin]. apply Hfg. exact Hb.
Qed.

(** X8. The ids within one generated bank are pairwise distinct,
    whatever the clock reads: they end in the position of the item. *)
Theorem generateQuestions_ids_are_pairwise_distinct {X} (host : Platform X)
    (input : ResumeInput) (major uni : string) (w w1 : World X)
    (response : GenerateContentResponse) (data : JSON) (elems : list JSON) :
  withRetry (perform (generateContent host (questionsRequest input major uni)))
    default_retries w = (Return response, w1) ->
  JSON_parse host (or_else (text response) "{}") = Return data ->
  get_prop data "items" = Return (Some (JArr elems)) ->
  exists (qs : list JsObject) (w2 : World X),
    generateQuestions host input major uni w = (Return qs, w2) /\
    List.NoDup (map (lookup_field "id") qs).
Proof.
  intros Hcall Hparse Hitems.
  rewrite (generateQuestions_on_array host input major uni w w1 response data elems
             Hcall Hparse Hitems).
  destruct (map_decorate_run host elems 0 w1) as (nows & w2 & Hrun & Hlen & Hlog).
  eexists _, w2. split; [exact Hrun|].
  rewrite map_map.
  apply (NoDup_map_by _ snd).
  - intros [[item now] i] [[item' now'] j]. cbn [fst snd].
    destruct (decorated_fields host item now i) as (-> & _).
    destruct (decorated_fields host item' now' j) as (-> & _).
    intros Heq. apply (question_id_index now now'). congruence.
  - change (map snd ?l) with (l.*2).
    rewrite snd_zip by (rewrite length_zip, length_seq, Hlen; lia).
    apply List.seq_NoDup.
Qed.

(** Two items generated while the clock stands still. *)
Lemma generateQuestions_ids_are_pairwise_distinct_witness :
  let answer := "{" +:+ Samples.quoted "items" +:+ ":[{},{}]}" in
  exists (qs : list JsObject) (w2 : World TestHost.Script),
    generateQuestions TestHost.host Samples.resume "CS" "THU"
      (TestHost.start (TestHost.mkScript [Return (TestHost.textResponse answer)] [] 5 []))
    = (Return qs, w2) /\
    List.NoDup (map (lookup_field "id") qs).
Proof.
  cbv zeta.
  apply (generateQuestions_ids_are_pairwise_distinct TestHost.host Samples.resume "CS" "THU"
           (TestHost.start _) (TestHost.start (TestHost.mkScript [] [] 5 []))
           (TestHost.textResponse ("{" +:+ Samples.quoted "items" +:+ ":[{},{}]}"))
           (JObj [("items", JArr [JObj []; JObj []])]) [JObj []; JObj []]);
    vm_compute; reflexivity.
Defined.

(** X9. An answer whose [items] is absent or falsy ([undefined],
    [null], [false], [0], the empty string) gives the empty bank: no
    error, nothing logged, the clock not read. An [items] that is truthy
    but not an array makes [generateQuestions] throw a TypeError, logged
    once as [Question generation failed:]; so does an answer that parses
    to [null], on which reading [items] throws. *)
Theorem generateQuestions_without_items {X} (host : Platform X) (input : ResumeInput)
    (major uni : string) (w w1 : World X) (response : GenerateContentResponse)
    (data : JSON) :
  withRetry (perform (generateContent host (questionsRequest input major uni)))
    default_retries w = (Return response, w1) ->
  JSON_parse host (or_else (text response) "{}") = Return data ->
  let run := generateQuestions host input major uni w in
  match get_prop data "items" with
  | Throw e => run = (Throw e, logged_error "Question generation failed:" e w1)
  | Return items =>
      if truthy_json host items
      then (forall elems, items <> Some (JArr elems)) ->
           run = (Throw (JsError "TypeError" "(data.items || []).map is not a function"),
                  logged_error "Question generation failed:"
                    (JsError "TypeError" "(data.items || []).map is not a function") w1)
      else run = (Return [], w1)
  end.
Proof.
  intros Hcall Hparse run. subst run.
  rewrite (generateQuestions_after_parse host input major uni w w1 response data
             Hcall Hparse).
  destruct (get_prop data "items") as [items|e]; [|reflexivity].
  destruct (truthy_json host items) eqn:Htruthy; [|reflexivity].
  intros Hnot. destruct items as [[| | | |elems|]|]; try reflexivity.
  destruct (Hnot elems eq_refl).
Qed.

(** The service answers with no text: the default [{}] has no items. *)
Lemma generateQuestions_without_items_witness :
  generateQuestions TestHost.host Samples.resume "CS" "THU"
    (TestHost.start (TestHost.mkScript [Return (mkResponse None None)] [] 5 []))
  = (Return [], TestHost.start (TestHost.mkScript [] [] 5 [])).
Proof.
  exact (generateQuestions_without_items TestHost.host Samples.resume "CS" "THU"
           (TestHost.start (TestHost.mkScript [Return (mkResponse None None)] [] 5 []))
           (TestHost.start (TestHost.mkScript [] [] 5 []))
           (mkResponse None None) (JObj [])
           ltac:(vm_compute; reflexivity) ltac:(vm_compute; reflexivity)).
Defined.

End QuestionFacts.

(** ** The evaluation of an answer: what the guarded block absorbs *)

Module EvaluationFacts.
Import GeminiService Retry.

(** X10. Once the service has answered, [evaluateMockResponse] returns
    what [JSON.parse] makes of the answer's text, unchecked and with
    nothing logged; when the text does not parse, the error is
    absorbed: it is logged once as [Evaluation failed:], the fallback
    evaluation is returned, and the service is not asked again. *)
Theorem evaluateMockResponse_parses_or_falls_back {X} (host : Platform X)
    (input : AnswerInput) (question : string) (isEnglish : bool) (w w1 w2 : World X)
    (parts : list Part) (response : GenerateContentResponse) :
  answerParts host input (evaluationPrompt question isEnglish (isAudioInput input)) w
  = (Return parts, w1) ->
  withRetry (perform (generateContent host (evaluationRequest parts))) default_retries w1
  = (Return response, w2) ->
  evaluateMockResponse host input question isEnglish w
  = match JSON_parse host (or_else (text response) "{}") with
    | Return evaluation => (Return evaluation, w2)
    | Throw e => (Return (fallbackEvaluation input), logged_error "Evaluation failed:" e w2)
    end.
Proof.
  intros Hparts Hcall.
  unfold evaluateMockResponse. unfold bind at 1. rewrite Hparts.
  unfold try_catch, bind at 1. rewrite Hcall. unfold lift.
  destruct (JSON_parse host _) as [evaluation|e]; reflexivity.
Qed.

(** The service answers a typed answer with plain words. *)
Lemma evaluateMockResponse_parses_or_falls_back_witness :
  evaluateMockResponse TestHost.host (TextAnswer "My hobby is chess.") "你的爱好是什么？" false
    (TestHost.start (TestHost.mkScript [Return (TestHost.textResponse "Well done!")] [] 0 []))
  = (Return (JObj [("transcription", JStr "My hobby is chess.");
                   ("feedback", JStr "Could not generate feedback due to an error.")]),
     mkWorld (TestHost.mkScript [] [] 0 [])
       [ConsoleError "Evaluation failed:" TestHost.SyntaxError]).
Proof.
  exact (evaluateMockResponse_parses_or_falls_back TestHost.host
           (TextAnswer "My hobby is chess.") "你的爱好是什么？" false
           (TestHost.start
              (TestHost.mkScript [Return (TestHost.textResponse "Well done!")] [] 0 []))
           (TestHost.start
              (TestHost.mkScript [Return (TestHost.textResponse "Well done!")] [] 0 []))
           (TestHost.start (TestHost.mkScript [] [] 0 []))
           _ (TestHost.textResponse "Well done!") eq_refl eq_refl).
Defined.

End EvaluationFacts.

(** ** A service that stays unavailable *)

Module ExhaustionFacts.
Import Retry Backoff GeminiService.

Lemma withRetry_from_exhausted {X T} (fn : X -> Outcome T * X) :
  forall (remaining i : nat) (lastError : Exn) (w : World X),
    (forall a, (a < remaining)%nat -> is_throw (attempt fn (env w) a) = true) ->
    withRetry_from (perform fn) remaining i lastError w
    = (Throw (match remaining with
              | O => lastError
              | S j => thrown (attempt fn (env w) j)
              end),
       mkWorld (state_after fn remaining (env w))
         (log w ++ backoff_log (failures fn (env w) remaining) i)).
Proof.
  induction remaining as [|r IH]; intros i lastError w Hall.
  - destruct w as [x l]. cbn. rewrite app_nil_r. reflexivity.
  - cbn [withRetry_from]. unfold try_catch at 1, perform at 1.
    pose proof (Hall 0%nat ltac:(lia)) as H0. rewrite RetryFacts.attempt_0 in H0.
    destruct (fn (env w)) as [[v|e] x'] eqn:Hfn; [discriminate|].
    unfold bind at 1, emit at 1. unfold bind at 1, emit at 1. cbn [env log].
    assert (Hx' : x' = snd (fn (env w))) by (rewrite Hfn; reflexivity).
    rewrite IH; cbn [env log].
    + rewrite BackoffFacts.failures_S, Hfn. cbn [fst snd thrown backoff_log].
      rewrite Hx', RetryFacts.state_after_shift, <- !app_assoc. cbn [app].
      f_equal. destruct r as [|j].
      * rewrite RetryFacts.attempt_0, Hfn. reflexivity.
      * rewrite RetryFacts.attempt_shift. reflexivity.
    + intros a Ha. rewrite Hx', RetryFacts.attempt_shift. apply Hall. lia.
Qed.

(** X28. When the service fails at each of the three attempts,
    [generateAnalysis] gives up after exactly three calls: it throws
    the error of the third attempt, having logged the three warnings
    with their waits, 7000 ms in all, and then the error once as
    [Analysis generation failed:]. Nothing is parsed and no fallback
    is returned. *)
Theorem generateAnalysis_gives_up_after_three_attempts {X} (host : Platform X)
    (input : ResumeInput) (major uni : string) (w : World X) :
  (forall a, (a < default_retries)%nat ->
             is_throw (attempt (generateContent host (analysisRequest input major uni))
                         (env w) a) = true) ->
  let fn := generateContent host (analysisRequest input major uni) in
  let last := thrown (attempt fn (env w) 2) in
  let warnings := backoff_log (failures fn (env w) 3) 0 in
  generateAnalysis host input major uni w
  = (Throw last,
     mkWorld (state_after fn 3 (env w))
       (log w ++ warnings ++ [ConsoleError "Analysis generation failed:" last])) /\
  fold_right Z.add 0 (delays warnings) = 7000.
Proof.
  intros Hall. cbv zeta. split.
  - unfold generateAnalysis, try_catch at 1, bind at 1, withRetry.
    rewrite (withRetry_from_exhausted _ default_retries 0 JsUndefined w Hall).
    unfold default_retries, bind, emit, throw. cbn [env log].
    rewrite <- app_assoc. reflexivity.
  - rewrite BackoffFacts.delays_backoff_log, BackoffFacts.failures_length. reflexivity.
Qed.

(** The scripted service with nothing queued is unavailable at every call. *)
Lemma generateAnalysis_gives_up_after_three_attempts_witness :
  generateAnalysis TestHost.host Samples.resume "Physics" "Tsinghua"
    (TestHost.start Samples.quiet)
  = (Throw TestHost.unavailable,
     mkWorld Samples.quiet
       [ConsoleWarn "Attempt 1 failed:" TestHost.unavailable; SetTimeout 1000;
        ConsoleWarn "Attempt 2 failed:" TestHost.unavailable; SetTimeout 2000;
        ConsoleWarn "Attempt 3 failed:" TestHost.unavailable; SetTimeout 4000;
        ConsoleError "Analysis generation failed:" TestHost.unavailable]).
Proof.
  refine (proj1 (generateAnalysis_gives_up_after_three_attempts TestHost.host Samples.resume
                   "Physics" "Tsinghua" (TestHost.start Samples.quiet) _)).
  intros [|[|[|a]]] Ha; try reflexivity. unfold default_retries in Ha. lia.
Defined.

End ExhaustionFacts.

(** ** More on sessions of [MockInterviewView] *)

Module SessionShapeFacts.
Import Types MockInterviewView RoundShape.

Section WithPlatform.
Context {X : Type} (host : Platform X).

Lemma processAnswer_begin_fields (c : Closure) (input : AnswerInput) (s : State)
    (w : World X) :
  let s' := fst (processAnswer_begin host c input s w) in
  selectedQuestions s' = selectedQuestions s /\
  results s' = results s /\
  viewState s' = viewState s /\
  life s' = life s /\
  (pending s' = pending s \/
   exists p, pending s' = pending s ++ [p] /\ p_input p = input /\ p_closure p = c).
Proof.
  cbv zeta. unfold processAnswer_begin.
  destruct (currentQ c) as [[q english]|]; [|cbn; auto 6].
  destruct (GeminiService.evaluateMockResponse host input _ english w) as [settles w'].
  cbn. repeat split. right. eexists. repeat split.
Qed.

Lemma processAnswer_resume_fields (p : Pending) (s : State) (w : World X) :
  let after := processAnswer_resume p s w in
  let s' := fst after in
  let leaving := (c_currentIndex (p_closure p) <? 2)%nat in
  selectedQuestions s' = selectedQuestions s /\
  life s' = life s /\
  pending s' = pending s /\
  MockInterviewView.textAnswer s' = "" /\
  viewState s' = (if leaving then QUESTION else DONE) /\
  currentIndex s' = (if leaving then S (currentIndex s) else currentIndex s) /\
  ((results s' = results s /\
    exists error, log (snd after)
                  = log w ++ [ConsoleError "" error;
                              Alert "Error processing answer. Skipping evaluation."] /\
                  env (snd after) = env w /\
                  (p_settles p = Throw error \/
                   exists evaluation,
                     p_settles p = Return evaluation /\
                     (get_prop evaluation "transcription" = Throw error \/
                      get_prop evaluation "feedback" = Throw error))) \/
   (exists t f, results s' = results s ++ [evaluatedResult p t f] /\ snd after = w /\
                exists evaluation, p_settles p = Return evaluation /\
                                   get_prop evaluation "transcription" = Return t /\
                                   get_prop evaluation "feedback" = Return f)).
Proof.
  cbv zeta. unfold processAnswer_resume, moveToNext.
  destruct (p_settles p) as [aiResult|error].
  - destruct (get_prop aiResult "transcription") as [t|error] eqn:Ht.
    + destruct (get_prop aiResult "feedback") as [f|error] eqn:Hf.
      * destruct (c_currentIndex (p_closure p) <? 2)%nat; cbn;
          repeat split; right; exists t, f; repeat split; eauto.
      * destruct (c_currentIndex (p_closure p) <? 2)%nat; cbn;
          repeat split; left; split; eauto 8.
    + destruct (c_currentIndex (p_closure p) <? 2)%nat; cbn;
        repeat split; left; split; eauto 8.
  - destruct (c_currentIndex (p_closure p) <? 2)%nat; cbn;
      repeat split; left; split; eauto 8.
Qed.

Lemma handleSkip_fields (c : Closure) (s : State) :
  let s' := handleSkip c s in
  selectedQuestions s' = selectedQuestions s /\
  life s' = life s /\
  pending s' = pending s /\
  (s' = s \/
   exists q english,
     currentQ c = Some (q, english) /\
     results s' = results s ++ [skippedResult q english] /\
     viewState s' = (if (c_currentIndex c <? 2)%nat then QUESTION else DONE)).
Proof.
  cbv zeta. unfold handleSkip, moveToNext.
  destruct (currentQ c) as [[q english]|]; [|auto].
  destruct (c_currentIndex c <? 2)%nat; cbn; repeat split; right; eauto.
Qed.














Lemma shape_handle (e : Event) (s : State) (w : World X) :
  Forall (result_ok host) (results s) ->
  Forall (fun p => input_ok host (p_input p)) (pending s) ->
  let s' := fst (handle host e s w) in
  Forall (result_ok host) (results s') /\
  Forall (fun p => input_ok host (p_input p)) (pending s').
Proof.
  intros HR HP. cbv zeta.
  assert (Hbegin : forall c input s0,
             results s0 = results s -> pending s0 = pending s -> input_ok host input ->
             Forall (result_ok host) (results (fst (processAnswer_begin host c input s0 w))) /\
             Forall (fun p => input_ok host (p_input p))
                    (pending (fst (processAnswer_begin host c input s0 w)))).
  { intros c input s0 Hr0 Hp0 Hin.
    destruct (processAnswer_begin_fields c input s0 w) as (_ & Hr & _ & _ & Hp).
    rewrite Hr, Hr0. split; [exact HR|].
    destruct Hp as [->|(p & -> & Hpi & _)]; rewrite Hp0; [exact HP|].
    apply Forall_app. split; [exact HP|]. constructor; [rewrite Hpi; exact Hin|constructor]. }
  destruct e as [| |confirmed| |mode|value|media|chunks| | |n| |n media];
    cbn [handle fst]; try (split; assumption).
  - unfold handleExit. destruct (0 <? length (results s))%nat; [destruct confirmed|];
      split; assumption.
  - destruct (handleSkip_fields (closure_of s) s) as (_ & _ & Hp & [->|Hmoved]);
      [split; assumption|].
    destruct Hmoved as (q & english & _ & Hr & _). rewrite Hr, Hp.
    split; [|exact HP]. apply Forall_app. split; [exact HR|].
    constructor; [|constructor]. unfold result_ok. cbn. auto.
  - unfold startRecording, startRecording_resume. destruct media; split; assumption.
  - unfold stopRecording. destruct (mediaRecorderRef s) as [r|]; [|split; assumption].
    destruct (viewState s); try (split; assumption).
    destruct (r_recording r); [|split; assumption].
    apply Hbegin; reflexivity.
  - unfold submitTextAnswer. destruct (truthy _) eqn:Ht; [|split; assumption].
    apply Hbegin; [reflexivity|reflexivity|exact Ht].
  - destruct (pending s !! n) as [p|] eqn:Hp; [|split; assumption].
    destruct (processAnswer_resume_fields p (setPending (delete n (pending s)) s) w)
      as (_ & _ & Hp' & _ & _ & _ & Hres).
    rewrite Hp'. cbn [pending setPending].
    split; [|rewrite delete_take_drop; apply Forall_app; split;
              [apply Forall_take|apply Forall_drop]; exact HP].
    destruct Hres as [(-> & _)|(t & f & -> & _)]; [exact HR|].
    apply Forall_app. split; [exact HR|]. constructor; [|constructor].
    pose proof (proj1 (Forall_lookup _ _) HP n p Hp) as Hin. cbn in Hin.
    unfold result_ok, evaluatedResult. cbn.
    destruct (p_input p) as [blob|text]; [left|right]; eauto.
  - destruct (requested s !! n) as [c|]; [|split; assumption].
    unfold startRecording_resume. destruct media; split; assumption.
Qed.

Lemma session_shape
    (questions : list QuestionItem) (w : World X) (events : list Event) :
  Forall (result_ok host) (results (fst (session host questions w events))) /\
  Forall (fun p => input_ok host (p_input p))
         (pending (fst (session host questions w events))).
Proof.
  unfold session.
  assert (H0 : Forall (result_ok host) (results (fst (mount host questions w))) /\
               Forall (fun p => input_ok host (p_input p))
                      (pending (fst (mount host questions w)))).
  { unfold mount, mount_effect. destruct (length questions <? 3)%nat.
    - cbn. split; constructor.
    - destruct (sort_random host QuestionItem questions (env w)). cbn. split; constructor. }
  revert H0. generalize (mount host questions w).
  induction events as [|e rest IH]; intros [s0 w0] H0; [exact H0|].
  unfold run. cbn [fold_left]. apply IH.
  cbn [fst] in H0. destruct H0 as (HR & HP).
  unfold step. destruct (life s0); try (split; assumption).
  destruct (enabled s0 e); [|split; assumption].
  pose proof (shape_handle e s0 w0 HR HP) as H. cbv zeta in H.
  destruct (handle host e s0 w0) as [s' w']. cbn [fst] in *.
  destruct (RoundFacts.rerender_fields s') as (Hr & _ & Hp & _).
  rewrite Hr, Hp. exact H.
Qed.

(** X13. In any session every recorded result is either a skip, with
    the fixed transcription and feedback and no answer attached, or an
    evaluated answer that carries exactly one artifact: the recording,
    of type audio/webm, or the typed text, which is not blank. *)
Theorem every_result_is_a_skip_or_one_answer
    (questions : list QuestionItem) (w : World X) (events : list Event) :
  let s := fst (session host questions w events) in
  Forall (result_ok host) (results s).
Proof. cbn zeta. apply session_shape. Qed.

(** X27. The count of completed questions that [MockHistoryList] shows
    for a session is the number of its rounds that carry an answer:
    skipped rounds are not counted, and every other recorded round has
    its recording or its text. *)
Theorem score_counts_the_answered_rounds
    (questions : list QuestionItem) (w : World X) (events : list Event)
    (session_id : string) (timestamp : Z) :
  let s := fst (session host questions w events) in
  Views.score (mkMockSession session_id timestamp (results s))
  = length (List.filter Views.answered (results s)).
Proof.
  cbn zeta. unfold Views.score. cbn [rounds].
  destruct (session_shape questions w events) as (HR & _).
  induction HR as [|r rs Hr _ IH]; [reflexivity|].
  cbn [List.filter].
  assert (Hsame : Views.completed r = Views.answered r).
  { unfold result_ok in Hr. unfold Views.completed, Views.answered.
    destruct (skipped r) as [[|]|].
    - destruct Hr as (Ha & Ht & _). rewrite Ha, Ht. reflexivity.
    - destruct Hr.
    - destruct Hr as [(blob & Ha & _ & Ht)|(text & Ht & Ha & _)];
        rewrite Ha, ?Ht; reflexivity. }
  rewrite Hsame. destruct (Views.answered r); cbn [length]; rewrite IH; reflexivity.
Qed.


(** X15. When an evaluation settles, the round it was submitted in is
    always left: the view goes to QUESTION, or to DONE when the answer
    was given in round 2, and the evaluation is no longer in flight. A
    parsed answer other than [null] is recorded, whatever it holds
    under [transcription] and [feedback]; a rejection, or the answer
    [null], records nothing and is reported to the console and in an
    alert. The service is not called. *)
Theorem settled_evaluation_leaves_the_round
    (s : State) (w : World X) (n : nat) (p : Pending) :
  life s = Mounted ->
  pending s !! n = Some p ->
  let after := step host (s, w) (Settle n) in
  let s' := fst after in
  let leaving := (c_currentIndex (p_closure p) <? 2)%nat in
  pending s' = delete n (pending s) /\
  viewState s' = (if leaving then QUESTION else DONE) /\
  currentIndex s' = (if leaving then S (currentIndex s) else currentIndex s) /\
  env (snd after) = env w /\
  match p_settles p with
  | Return JNull | Throw _ =>
      results s' = results s /\
      exists error,
        log (snd after)
        = log w ++ [ConsoleError "" error;
                    Alert "Error processing answer. Skipping evaluation."]
  | Return evaluation =>
      exists t f,
        get_prop evaluation "transcription" = Return t /\
        get_prop evaluation "feedback" = Return f /\
        results s' = results s ++ [evaluatedResult p t f] /\
        log (snd after) = log w
  end.
Proof.
  intros Hl Hp. cbv zeta. unfold step. rewrite Hl.
  assert (Hen : enabled s (Settle n) = true).
  { cbn. apply Nat.ltb_lt. apply lookup_lt_is_Some. eauto. }
  rewrite Hen. cbn [handle]. rewrite Hp.
  pose proof (processAnswer_resume_fields p (setPending (delete n (pending s)) s) w) as H.
  cbv zeta in H.
  destruct (processAnswer_resume p (setPending (delete n (pending s)) s) w) as [s1 w1].
  cbn [fst snd] in *.
  destruct H as (_ & _ & Hp1 & _ & Hv1 & Hi1 & Hres).
  destruct (RoundFacts.rerender_fields s1) as (Hr & _ & Hpr & _ & _ & Hir & Hvr & _).
  rewrite Hr, Hpr, Hir, Hvr, Hp1, Hv1, Hi1. cbn [pending setPending currentIndex] in *.
  repeat (split; [reflexivity|]).
  destruct Hres as [(Hsame & error & Hlog & Henv & Hwhy)
                   |(t & f & Happ & -> & ev & Hev & Ht & Hf)].
  - split; [exact Henv|].
    destruct Hwhy as [->|(ev & -> & Hthrows)]; [eauto|].
    destruct ev; try (destruct Hthrows as [H|H]; discriminate H). eauto.
  - split; [reflexivity|]. rewrite Hev.
    destruct ev; try (exists t, f; auto). discriminate Ht.
Qed.

(** X16. Skip pressed while the answer of the round is being
    evaluated leaves the round twice. The skip records the round as
    skipped and moves on; when the evaluation settles, still in the
    closure of the render that submitted it, the same round is recorded
    again, now as evaluated, and the index moves on once more. Pressed
    in round 0 this jumps over round 1; pressed in round 1 it moves the
    index to 3, where the render has no question and crashes; pressed
    in round 2 it ends the session with both results. *)
Theorem skip_during_evaluation_leaves_the_round_twice
    (s : State) (w : World X) (p : Pending) (evaluation : JSON)
    (q0 q1 q2 : QuestionItem) (e0 e1 e2 : bool) :
  life s = Mounted ->
  viewState s = PROCESSING ->
  selectedQuestions s = [mkSelected (Some q0) e0; mkSelected (Some q1) e1;
                         mkSelected (Some q2) e2] ->
  (currentIndex s <= 2)%nat ->
  pending s = [p] ->
  p_closure p = closure_of s ->
  currentQ (closure_of s) = Some (p_item p, p_isEnglish p) ->
  p_settles p = Return evaluation ->
  evaluation <> JNull ->
  let s' := fst (run host (s, w) [ClickSkip; Settle 0]) in
  exists t f,
    results s'
    = results s ++ [skippedResult (p_item p) (p_isEnglish p); evaluatedResult p t f] /\
    questionId (skippedResult (p_item p) (p_isEnglish p)) = questionId (evaluatedResult p t f) /\
    currentIndex s' = (if (currentIndex s <? 2)%nat then (currentIndex s + 2)%nat else 2%nat) /\
    viewState s' = (if (currentIndex s <? 2)%nat then QUESTION else DONE) /\
    (life s' = Crashed <-> currentIndex s = 1%nat).
Proof.
  intros Hl Hv Hsel Hidx Hp Hc Hq Hs Hnn. cbv zeta.
  destruct p as [c it en qt inp st]. cbn [p_closure p_item p_isEnglish p_settles] in *.
  subst c st.
  assert (Hget : exists t f, get_prop evaluation "transcription" = Return t /\
                             get_prop evaluation "feedback" = Return f).
  { destruct evaluation; cbn; eauto. congruence. }
  destruct Hget as (t & f & Ht & Hf). exists t, f.
  destruct s as [sel idx res vs im ta mr pend req lf jr]. unfold closure_of in *.
  cbn [life viewState selectedQuestions currentIndex pending results] in *.
  subst lf vs sel pend.
  destruct idx as [|[|[|idx]]]; [| | |lia];
    cbn in Hq; injection Hq as Hit Hen; subst it en;
    cbn; rewrite Ht, Hf; cbn; rewrite <- ?app_assoc;
    repeat split; intros; try discriminate; try lia.
Qed.

(** X17. An input that is turned down leaves the round open. Submitting
    a text that is blank once trimmed changes nothing at all and calls
    nothing; a microphone that cannot be opened is reported to the
    console and in an alert, and the round stays as it was, so that the
    user can still answer in text or skip. *)
Theorem rejected_input_keeps_the_round_open (s : State) (w : World X) (e : Event) :
  life s = Mounted ->
  enabled s e = true ->
  match e with
  | ClickSubmit => truthy (Some (String_trim host (MockInterviewView.textAnswer s))) = false
  | ClickRecord (Throw _) => True
  | _ => False
  end ->
  let after := step host (s, w) e in
  results (fst after) = results s /\
  pending (fst after) = pending s /\
  viewState (fst after) = viewState s /\
  currentIndex (fst after) = currentIndex s /\
  env (snd after) = env w /\
  log (snd after)
  = log w ++ match e with
             | ClickRecord (Throw err) =>
                 [ConsoleError "" err; Alert "无法访问麦克风，请允许权限。"]
             | _ => []
             end.
Proof.
  intros Hl Hen Hrej. cbv zeta.
  destruct (RoundFacts.rerender_fields s) as (Hr & _ & Hp & _ & _ & Hi & Hv & _).
  destruct e as [| | | | | |[u|err]| | | | | |]; try contradiction;
    unfold step; rewrite Hl, Hen.
  - cbn [handle startRecording startRecording_resume fst snd env log].
    repeat split; assumption.
  - rewrite app_nil_r. cbn [handle]. unfold submitTextAnswer. rewrite Hrej.
    cbn [fst snd]. repeat split; assumption.
Qed.

End WithPlatform.



Lemma settled_evaluation_leaves_the_round_witness :
  let s := fst (session TestHost.host [Samples.qa; Samples.qb; Samples.qc]
                  (TestHost.start Samples.quiet)
                  [ClickStart; SelectMode TEXT; ChangeText "first"; ClickSubmit]) in
  let after := step TestHost.host (s, TestHost.start Samples.quiet) (Settle 0) in
  pending (fst after) = [] /\ viewState (fst after) = QUESTION /\
  currentIndex (fst after) = 1%nat /\ length (results (fst after)) = 1%nat.
Proof.
  cbv zeta.
  destruct (settled_evaluation_leaves_the_round TestHost.host
              (fst (session TestHost.host [Samples.qa; Samples.qb; Samples.qc]
                      (TestHost.start Samples.quiet)
                      [ClickStart; SelectMode TEXT; ChangeText "first"; ClickSubmit]))
              (TestHost.start Samples.quiet) 0
              (mkPending
                 (mkClosure [mkSelected (Some Samples.qa) false;
                             mkSelected (Some Samples.qb) false;
                             mkSelected (Some Samples.qc) true] 0)
                 Samples.qa false (question Samples.qa) (TextAnswer "first")
                 (Return (GeminiService.fallbackEvaluation (TextAnswer "first"))))
              eq_refl eq_refl)
    as (Hp & Hv & Hi & _ & t & f & _ & _ & Hr & _).
  rewrite Hp, Hv, Hi, Hr. repeat split.
Defined.

Lemma skip_during_evaluation_leaves_the_round_twice_witness :
  let s := fst (session TestHost.host [Samples.qa; Samples.qb; Samples.qc]
                  (TestHost.start Samples.quiet)
                  [ClickStart; SelectMode TEXT; ChangeText "first"; ClickSubmit]) in
  let s' := fst (run TestHost.host (s, TestHost.start Samples.quiet) [ClickSkip; Settle 0]) in
  map questionId (results s') = [id Samples.qa; id Samples.qa] /\
  currentIndex s' = 2%nat.
Proof.
  cbv zeta.
  destruct (skip_during_evaluation_leaves_the_round_twice TestHost.host
              (fst (session TestHost.host [Samples.qa; Samples.qb; Samples.qc]
                      (TestHost.start Samples.quiet)
                      [ClickStart; SelectMode TEXT; ChangeText "first"; ClickSubmit]))
              (TestHost.start Samples.quiet)
              (mkPending
                 (mkClosure [mkSelected (Some Samples.qa) false;
                             mkSelected (Some Samples.qb) false;
                             mkSelected (Some Samples.qc) true] 0)
                 Samples.qa false (question Samples.qa) (TextAnswer "first")
                 (Return (GeminiService.fallbackEvaluation (TextAnswer "first"))))
              (GeminiService.fallbackEvaluation (TextAnswer "first"))
              Samples.qa Samples.qb Samples.qc false false true
              eq_refl eq_refl eq_refl ltac:(vm_compute; repeat constructor) eq_refl eq_refl eq_refl eq_refl
              ltac:(discriminate))
    as (t & f & Hr & _ & Hi & _).
  rewrite Hr, Hi. split; reflexivity.
Defined.

Lemma rejected_input_keeps_the_round_open_witness :
  let s := fst (session TestHost.host [Samples.qa; Samples.qb; Samples.qc]
                  (TestHost.start Samples.quiet) [ClickStart; SelectMode TEXT]) in
  step TestHost.host (s, TestHost.start Samples.quiet) (ChangeText "   ")
  = (setTextAnswer "   " s, TestHost.start Samples.quiet) /\
  let after := step TestHost.host (setTextAnswer "   " s, TestHost.start Samples.quiet)
                 ClickSubmit in
  viewState (fst after) = QUESTION /\ pending (fst after) = [] /\
  snd after = TestHost.start Samples.quiet.
Proof.
  cbv zeta. split; [reflexivity|].
  destruct (rejected_input_keeps_the_round_open TestHost.host
              (setTextAnswer "   "
                 (fst (session TestHost.host [Samples.qa; Samples.qb; Samples.qc]
                         (TestHost.start Samples.quiet) [ClickStart; SelectMode TEXT])))
              (TestHost.start Samples.quiet) ClickSubmit eq_refl eq_refl eq_refl)
    as (_ & Hp & Hv & _ & _ & _).
  rewrite Hp, Hv. repeat split.
Defined.

End SessionShapeFacts.

(** ** Favourites, notes and practice counts *)

Module BankFacts.
Import Types App AppHandlers Views.

Lemma favorites_after_toggle (i : string) (l : list QuestionItem) :
  (forall q, In q l -> id q = i -> is_favorite q = true) ->
  favorites (map (fun q => if String.eqb (id q) i then toggled q else q) l)
  = List.filter (fun q => negb (String.eqb (id q) i)) (favorites l).
Proof.
  unfold favorites. induction l as [|a l IH]; intros Hfav; [reflexivity|].
  cbn [map List.filter].
  rewrite IH by (intros q Hq; apply Hfav; right; exact Hq).
  destruct (String.eqb (id a) i) eqn:E.
  - apply String.eqb_eq in E.
    rewrite (Hfav a (or_introl eq_refl) E).
    unfold is_favorite at 1, toggled. cbn [isFavorite].
    rewrite (Hfav a (or_introl eq_refl) E). cbn [negb List.filter].
    apply String.eqb_eq in E. rewrite E. reflexivity.
  - destruct (is_favorite a); [|reflexivity].
    cbn [List.filter]. rewrite E. reflexivity.
Qed.

Lemma same_id_same_question (l : list QuestionItem) (q q' : QuestionItem) :
  List.NoDup (map id l) -> In q l -> In q' l -> id q' = id q -> q' = q.
Proof.
  induction l as [|a l IH]; intros Hnd Hq Hq' Hid; [destruct Hq|].
  cbn [map] in Hnd. apply List.NoDup_cons_iff in Hnd as [Hnotin Hnd].
  destruct Hq as [->|Hq], Hq' as [->|Hq']; auto.
  - destruct Hnotin. rewrite <- Hid. apply in_map. exact Hq'.
  - destruct Hnotin. rewrite Hid. apply in_map. exact Hq.
Qed.

(** X18. In a bank whose ids are distinct, the remove button of a card
    of [FavoritesView] removes exactly that card from the favourites:
    the other cards stay, in the same order. *)
Theorem removing_a_favorite_removes_exactly_that_card (st : AppState) (q : QuestionItem) :
  List.NoDup (map id (questions st)) ->
  In q (favorites (questions st)) ->
  favorites (questions (toggleFavorite (id q) st))
  = List.filter (fun q' => negb (String.eqb (id q') (id q))) (favorites (questions st)).
Proof.
  intros Hnd Hq. unfold toggleFavorite. cbn [questions].
  apply favorites_after_toggle. intros q' Hq' Hid.
  unfold favorites in Hq. apply filter_In in Hq as [Hin Hfav].
  rewrite (same_id_same_question _ q q' Hnd Hin Hq' Hid). exact Hfav.
Qed.

(** The first card of the sample bank is removed. *)
Lemma removing_a_favorite_removes_exactly_that_card_witness :
  favorites (questions (toggleFavorite "q-1-0" MoreSamples.bank)) = [toggled Samples.qc].
Proof.
  exact (removing_a_favorite_removes_exactly_that_card MoreSamples.bank (toggled Samples.qa)
           ltac:(cbn; repeat constructor; cbn; intuition discriminate)
           ltac:(cbn; tauto)).
Defined.

Lemma toggled_twice (q : QuestionItem) : is_favorite (toggled (toggled q)) = is_favorite q.
Proof. unfold is_favorite, toggled. cbn. apply negb_involutive. Qed.

(** X19. [toggleFavorite] changes nothing but the favourite flag of the
    questions with the given id: ids, order, notes and practice counts
    stay, so a note survives the removal of its favourite. Toggling
    twice gives back the favourites there were. *)
Theorem toggleFavorite_keeps_notes_and_undoes_itself (i : string) (st : AppState) :
  let st1 := toggleFavorite i st in
  let st2 := toggleFavorite i st1 in
  map id (questions st1) = map id (questions st) /\
  map userNotes (questions st1) = map userNotes (questions st) /\
  map practiceCount (questions st1) = map practiceCount (questions st) /\
  map is_favorite (questions st1)
  = map (fun q => if String.eqb (id q) i then negb (is_favorite q) else is_favorite q)
        (questions st) /\
  map is_favorite (questions st2) = map is_favorite (questions st) /\
  map id (favorites (questions st2)) = map id (favorites (questions st)) /\
  mockHistory st1 = mockHistory st /\ analysis st1 = analysis st /\ view st1 = view st.
Proof.
  cbv zeta. unfold toggleFavorite. cbn [questions mockHistory analysis view].
  rewrite !map_map.
  repeat split; try (apply map_ext; intros q; destruct (String.eqb (id q) i) eqn:E;
                     cbn; rewrite ?E; cbn; rewrite ?negb_involutive; reflexivity).
  unfold favorites. induction (questions st) as [|a l IH]; [reflexivity|].
  cbn [map List.filter].
  destruct (String.eqb (id a) i) eqn:E; cbn [id toggled]; rewrite ?E.
  - rewrite toggled_twice. destruct (is_favorite a); cbn [map]; rewrite IH; reflexivity.
  - destruct (is_favorite a); cbn [map]; rewrite IH; reflexivity.
Qed.

(** X20. [updateNote] sets the note of the questions with the given id
    and touches nothing else: the favourites and the practice counts
    stay. A later note for the same id replaces the earlier one, and
    notes for different ids can be written in either order. *)
Theorem updateNote_last_write_wins (i j n m : string) (st : AppState) :
  updateNote i m (updateNote i n st) = updateNote i m st /\
  (i <> j -> updateNote i n (updateNote j m st) = updateNote j m (updateNote i n st)) /\
  map userNotes (questions (updateNote i n st))
  = map (fun q => if String.eqb (id q) i then Some n else userNotes q) (questions st) /\
  map id (favorites (questions (updateNote i n st))) = map id (favorites (questions st)) /\
  map practiceCount (questions (updateNote i n st)) = map practiceCount (questions st).
Proof.
  unfold updateNote. cbn [questions view profile analysis isAnalyzing
                          isGeneratingQuestions mockHistory].
  split; [|split; [|split; [|split]]].
  - f_equal. rewrite map_map. apply map_ext. intros q.
    destruct (String.eqb (id q) i) eqn:E; cbn [id noted]; rewrite E; reflexivity.
  - intros Hij. f_equal. rewrite !map_map. apply map_ext. intros q.
    destruct (String.eqb (id q) i) eqn:Ei, (String.eqb (id q) j) eqn:Ej;
      cbn [id noted]; rewrite ?Ei, ?Ej; try reflexivity.
    apply String.eqb_eq in Ei, Ej. congruence.
  - rewrite map_map. apply map_ext. intros q.
    destruct (String.eqb (id q) i); reflexivity.
  - unfold favorites. induction (questions st) as [|a l IH]; [reflexivity|].
    cbn [map List.filter].
    assert (Hf : is_favorite (if String.eqb (id a) i then noted n a else a) = is_favorite a)
      by (destruct (String.eqb (id a) i); reflexivity).
    rewrite Hf. destruct (is_favorite a); [|exact IH].
    cbn [map]. rewrite IH. f_equal. destruct (String.eqb (id a) i); reflexivity.
  - rewrite map_map. apply map_ext. intros q.
    destruct (String.eqb (id q) i); reflexivity.
Qed.

(** X21. Practice counts never go below zero, so a question practised
    in a session shows its badge afterwards: after [handleMockComplete]
    the card of every question named in the results shows the old count
    plus one, the other cards show what they showed, and no count is
    negative. *)
Theorem practised_questions_show_their_badge {X} (host : Platform X)
    (results : list MockRoundResult) (prev : AppState) (x : X) :
  Forall (fun q => match practiceCount q with Some n => 0 <= n | None => True end)
         (questions prev) ->
  let st := fst (handleMockComplete host results prev x) in
  map practiceBadge (questions st)
  = map (fun q => if decide (id q ∈ (list_to_set (map questionId results) : gset string))
                  then Some (match practiceCount q with Some n => n | None => 0 end + 1)
                  else practiceBadge q)
        (questions prev) /\
  Forall (fun q => match practiceCount q with Some n => 0 <= n | None => True end)
         (questions st).
Proof.
  intros Hnn. cbv zeta. unfold handleMockComplete.
  destruct (Date_now host x) as [t1 x1]. destruct (Date_now host x1) as [t2 x2].
  cbn [fst questions]. split.
  - rewrite map_map. apply map_ext_in. intros q Hq.
    destruct (decide _); [|reflexivity].
    pose proof (proj1 (List.Forall_forall _ _) Hnn q Hq) as Hn.
    unfold practiceBadge, practised. cbn [practiceCount].
    cbn beta in Hn. revert Hn. destruct (practiceCount q) as [n|]; intros Hn.
    + destruct (Z.ltb_spec 0 (n + 1)); [reflexivity|lia].
    + reflexivity.
  - apply List.Forall_forall. intros q' Hq'. apply in_map_iff in Hq' as (q & <- & Hq).
    pose proof (proj1 (List.Forall_forall _ _) Hnn q Hq) as Hn.
    destruct (decide _); [|exact Hn].
    unfold practised. cbn [practiceCount].
    cbn beta in Hn. revert Hn. destruct (practiceCount q); intros Hn; lia.
Qed.

(** Question [q-1-0] was skipped in the session, [q-1-1] was not played. *)
Lemma practised_questions_show_their_badge_witness :
  let prev := mkAppState MOCK_SESSION MoreSamples.emptyProfile None [Samples.qa; Samples.qb]
                false false [] in
  let results := [MockInterviewView.skippedResult Samples.qa false] in
  map practiceBadge
    (questions (fst (handleMockComplete TestHost.host results prev Samples.quiet)))
  = [Some 1; None].
Proof.
  cbv zeta.
  destruct (practised_questions_show_their_badge TestHost.host
              [MockInterviewView.skippedResult Samples.qa false]
              (mkAppState MOCK_SESSION MoreSamples.emptyProfile None [Samples.qa; Samples.qb]
                 false false [])
              Samples.quiet
              ltac:(repeat constructor; cbn; lia)) as (Hbadges & _).
  rewrite Hbadges. vm_compute. reflexivity.
Defined.

End BankFacts.

(** ** The history list *)

Module HistoryFacts.
Import Types App Views.

Lemma insert_session_perm (a : MockSession) (l : list MockSession) :
  Permutation (insert_session a l) (a :: l).
Proof.
  induction l as [|b l IH]; cbn [insert_session]; [reflexivity|].
  destruct (timestamp b - timestamp a <=? 0); [reflexivity|].
  rewrite IH. apply perm_swap.
Qed.

Lemma insert_session_sorted (a : MockSession) (l : list MockSession) :
  StronglySorted (fun s s' => timestamp s' <= timestamp s) l ->
  StronglySorted (fun s s' => timestamp s' <= timestamp s) (insert_session a l).
Proof.
  induction l as [|b l IH]; intros Hs; cbn [insert_session].
  - constructor; constructor.
  - apply StronglySorted_inv in Hs as [Hl Hb].
    destruct (Z.leb_spec (timestamp b - timestamp a) 0) as [Hle|Hgt].
    + constructor; [constructor; assumption|].
      constructor; [lia|].
      eapply List.Forall_impl; [|exact Hb]. cbn. intros s Hsb. lia.
    + constructor; [apply IH; exact Hl|].
      rewrite insert_session_perm. constructor; [lia|exact Hb].
Qed.

Lemma insert_session_same_time (t : Z) (a : MockSession) (l : list MockSession) :
  List.filter (fun s => timestamp s =? t) (insert_session a l)
  = List.filter (fun s => timestamp s =? t) (a :: l).
Proof.
  induction l as [|b l IH]; cbn [insert_session]; [reflexivity|].
  destruct (Z.leb_spec (timestamp b - timestamp a) 0) as [Hle|Hgt]; [reflexivity|].
  cbn [List.filter] in *. rewrite IH.
  destruct (Z.eqb_spec (timestamp b) t) as [Hb|Hb];
    destruct (Z.eqb_spec (timestamp a) t) as [Ha|Ha]; try reflexivity. lia.
Qed.

(** X22. [MockHistoryList] shows every saved session exactly once,
    newest first: no session is shown below an older one, and sessions
    saved in the same millisecond keep the order in which they were
    saved. *)
Theorem history_is_shown_newest_first (history : list MockSession) :
  Permutation (sortedHistory history) history /\
  StronglySorted (fun s s' => timestamp s' <= timestamp s) (sortedHistory history) /\
  forall t, List.filter (fun s => timestamp s =? t) (sortedHistory history)
            = List.filter (fun s => timestamp s =? t) history.
Proof.
  unfold sortedHistory. induction history as [|a l (IHp & IHs & IHt)]; cbn [fold_right].
  - repeat split; constructor.
  - split; [|split].
    + rewrite insert_session_perm. constructor. exact IHp.
    + apply insert_session_sorted. exact IHs.
    + intros t. rewrite insert_session_same_time. cbn [List.filter].
      rewrite IHt. reflexivity.
Qed.

Lemma sortedHistory_newest_last (l : list MockSession) (a : MockSession) :
  Forall (fun s => timestamp s < timestamp a) l ->
  sortedHistory (l ++ [a]) = a :: sortedHistory l.
Proof.
  unfold sortedHistory. induction l as [|b l IH]; intros Hall; [reflexivity|].
  apply Forall_cons in Hall as [Hb Hall].
  cbn [app fold_right]. rewrite (IH Hall). cbn [insert_session].
  destruct (Z.leb_spec (timestamp a - timestamp b) 0); [lia|reflexivity].
Qed.

(** X23. When the clock has moved past every saved session,
    [handleMockComplete] switches to the history view and the session
    it saves, with all the results handed over, is the first one the
    list shows; the sessions below it are shown as before. *)
Theorem saved_session_is_shown_first {X} (host : Platform X)
    (results : list MockRoundResult) (prev : AppState) (x x1 x2 : X) (t1 t2 : Z) :
  Date_now host x = (t1, x1) ->
  Date_now host x1 = (t2, x2) ->
  Forall (fun s => timestamp s < t2) (mockHistory prev) ->
  let st := fst (handleMockComplete host results prev x) in
  view st = MOCK_HISTORY /\
  sortedHistory (mockHistory st)
  = mkMockSession ("session-" +:+ pretty t1) t2 results :: sortedHistory (mockHistory prev).
Proof.
  intros H1 H2 Hall. cbv zeta. unfold handleMockComplete. rewrite H1, H2.
  cbn [fst view mockHistory]. split; [reflexivity|].
  apply sortedHistory_newest_last. exact Hall.
Qed.

(** A second session saved on the scripted host, whose clock ticks. *)
Lemma saved_session_is_shown_first_witness :
  let old := mkMockSession "session-5" 6 [] in
  let prev := mkAppState QUESTIONS (mkUserProfile "" "" "" None) None [] false false [old] in
  map timestamp
    (sortedHistory (mockHistory (fst (handleMockComplete TestHost.host [] prev
                                        (TestHost.mkScript [] [] 7 [])))))
  = [8; 6].
Proof.
  cbv zeta.
  destruct (saved_session_is_shown_first TestHost.host []
              (mkAppState QUESTIONS (mkUserProfile "" "" "" None) None [] false false
                 [mkMockSession "session-5" 6 []])
              (TestHost.mkScript [] [] 7 []) (TestHost.mkScript [] [] 8 [])
              (TestHost.mkScript [] [] 9 []) 7 8 eq_refl eq_refl
              ltac:(repeat constructor)) as (_ & Hshown).
  rewrite Hshown. reflexivity.
Defined.

End HistoryFacts.

(** ** Starting an analysis *)

Module StartFacts.
Import Types GeminiService AppHandlers.

(** X24. [handleStartAnalysis] always ends with both loading flags
    cleared and the submitted profile stored, and never touches the
    history. If the analysis cannot be generated, the view, the analysis
    and the questions stay as they were and no question request is
    sent: the failure is reported to the console and in an alert. If
    the analysis is generated, it is stored and shown, whether or not
    the questions then follow; when they fail, the questions there were
    are kept. *)
Theorem handleStartAnalysis_settles_the_flags {X} (host : Platform X)
    (asQuestionItems : list JsObject -> list QuestionItem)
    (profile0 : UserProfile) (state : AppState) (w : World X) :
  let resumeInput :=
    mkResumeInput (resumeText profile0)
      (match resumeFile profile0 with
       | Some (mimeType, data, _) => Some (mkResumeFile mimeType data)
       | None => None
       end) in
  let major := targetMajor profile0 in
  let uni := targetUni profile0 in
  let after := handleStartAnalysis host asQuestionItems profile0 state w in
  let st := fst after in
  isAnalyzing st = false /\ isGeneratingQuestions st = false /\
  profile st = profile0 /\ mockHistory st = mockHistory state /\
  match generateAnalysis host resumeInput major uni w with
  | (Throw error, w1) =>
      view st = view state /\ analysis st = analysis state /\
      questions st = questions state /\
      snd after = reportFailure error w1
  | (Return analysisData, w1) =>
      view st = ANALYSIS /\ analysis st = Some analysisData /\
      match generateQuestions host resumeInput major uni w1 with
      | (Throw error, w2) =>
          questions st = questions state /\ snd after = reportFailure error w2
      | (Return qData, w2) =>
          questions st = asQuestionItems qData /\ snd after = w2
      end
  end.
Proof.
  cbv zeta. unfold handleStartAnalysis.
  destruct (generateAnalysis host _ _ _ w) as [[analysisData|error] w1];
    [|cbn; repeat split].
  destruct (generateQuestions host _ _ _ w1) as [[qData|error] w2]; cbn; repeat split.
Qed.

End StartFacts.

(** ** Editing a self-introduction *)

Module IntroFacts.
Import Types GeminiService AppHandlers Views.

Lemma set_field_same (k : string) (v : JSON) (fields : JsObject) :
  lookup_field k fields = Some v -> set_field k v fields = fields.
Proof.
  induction fields as [|[k' v'] rest IH]; cbn [lookup_field set_field]; [discriminate|].
  destruct (String.eqb k k') eqn:E.
  - intros [= ->]. apply String.eqb_eq in E. subst k'. reflexivity.
  - intros H. rewrite (IH H). reflexivity.
Qed.

Lemma contentKey_not_style (lang : Lang) : "style" <> contentKey lang.
Proof. destruct lang; discriminate. Qed.

Lemma style_matches_true (style : string) (intro : JSON) :
  style_matches style intro = Return true ->
  exists fields, intro = JObj fields /\ lookup_field "style" fields = Some (JStr style).
Proof.
  unfold style_matches. destruct intro as [| | | | |fields]; cbn; try discriminate.
  intros H. exists fields. split; [reflexivity|].
  destruct (lookup_field "style" fields) as [[| | |s| |]|]; try discriminate.
  injection H as H. apply String.eqb_eq in H. subst s. reflexivity.
Qed.

Lemma style_matches_edited (style : string) (lang : Lang) (v : JSON) (fields : JsObject) :
  style_matches style (JObj (set_field (contentKey lang) v fields))
  = style_matches style (JObj fields).
Proof.
  unfold style_matches. cbn [get_prop obind].
  rewrite QuestionFacts.lookup_set_field_ne by apply contentKey_not_style. reflexivity.
Qed.

Section WithPlatform.
Context {X : Type} (host : Platform X).

Lemma Forall2_in_right {A B} (R : A -> B -> Prop) (l : list A) (l' : list B) (b : B) :
  Forall2 R l l' -> In b l' -> exists a, In a l /\ R a b.
Proof.
  induction 1 as [|x y l l' Hxy _ IH]; intros Hin; [destruct Hin|].
  destruct Hin as [<-|Hin]; [exists x; split; [left; reflexivity|exact Hxy]|].
  destruct (IH Hin) as (a & Ha & Hr). exists a. split; [right; exact Ha|exact Hr].
Qed.

Lemma map_updateIntro_run (style : string) (lang : Lang) (value : string)
    (elems : list JSON) :
  Forall (fun intro => intro <> JNull) elems ->
  exists elems',
    map_updateIntro host style lang value elems = Return elems' /\
    Forall2 (rewritten style lang value) elems elems'.
Proof.
  induction elems as [|intro rest IH]; intros Hnn.
  - exists []. split; [reflexivity|constructor].
  - apply Forall_cons in Hnn as [Hintro Hrest].
    destruct (IH Hrest) as (rest' & Hrun & Hrel).
    cbn [map_updateIntro]. unfold updateIntro at 1. rewrite Hrun.
    destruct (style_matches style intro) as [[|]|e] eqn:Hm.
    + destruct (style_matches_true style intro Hm) as (fields & -> & Hstyle).
      cbn [obind spread]. eexists. split; [reflexivity|].
      constructor; [|exact Hrel]. right. exists fields. auto.
    + cbn [obind]. eexists. split; [reflexivity|].
      constructor; [|exact Hrel]. left. auto.
    + unfold style_matches in Hm. destruct intro; cbn in Hm; try discriminate.
      congruence.
Qed.

Lemma find_intro_rewritten (style : string) (lang : Lang) (value : string)
    (elems elems' : list JSON) :
  Forall2 (rewritten style lang value) elems elems' ->
  match find_intro style elems with
  | Return (Some shown) =>
      exists before,
        shown = JObj before /\
        find_intro style elems'
        = Return (Some (JObj (set_field (contentKey lang) (JStr value) before)))
  | Return None => elems' = elems
  | Throw _ => True
  end.
Proof.
  induction 1 as [|old new rest rest' Hhead Hrest IH]; [reflexivity|].
  cbn [find_intro].
  destruct Hhead as [(Hm & ->)|(fields & -> & Hm & ->)].
  - rewrite Hm. cbn [obind].
    destruct (find_intro style rest) as [[shown|]|e]; auto.
    rewrite IH. reflexivity.
  - rewrite Hm. cbn [obind]. exists fields. split; [reflexivity|].
    rewrite style_matches_edited, Hm. reflexivity.
Qed.

(** X25. Typing into a version of a self-introduction in
    [AnalysisView] edits what the view shows: when some intro carries
    the style of the active tab, after [handleUpdateIntro] the intro
    shown under that tab holds the typed text under the edited
    language and is otherwise unchanged. When no intro carries the
    style, the view shows the first intro, and the edit is lost: the
    analysis stays as it was. The questions, the view and the history
    are never touched. *)
Theorem edited_intro_is_the_one_shown (style : string) (lang : Lang) (value : string)
    (state : AppState) (data : JSON) (elems : list JSON) :
  analysis state = Some data ->
  get_prop data "intros" = Return (Some (JArr elems)) ->
  Forall (fun intro => intro <> JNull) elems ->
  exists state' data',
    handleUpdateIntro host style lang value state = Return state' /\
    analysis state' = Some data' /\
    questions state' = questions state /\ view state' = view state /\
    mockHistory state' = mockHistory state /\
    match find_intro style elems with
    | Return (Some shown) =>
        activeIntro data style = Return (Some shown) /\
        exists before after,
          shown = JObj before /\
          activeIntro data' style = Return (Some (JObj after)) /\
          lookup_field (contentKey lang) after = Some (JStr value) /\
          forall k, k <> contentKey lang -> lookup_field k after = lookup_field k before
    | _ =>
        activeIntro data style = Return (elems !! 0%nat) /\ data' = data
    end.
Proof.
  intros Han Hintros Hnn.
  destruct data as [| | | | |fields]; try discriminate Hintros.
  cbn [get_prop] in Hintros. injection Hintros as Hintros.
  destruct (map_updateIntro_run style lang value elems Hnn) as (elems' & Hrun & Hrel).
  unfold handleUpdateIntro. rewrite Han. cbn [truthy_json get_prop obind].
  rewrite Hintros, Hrun. cbn [obind spread].
  eexists _, _. split; [reflexivity|]. cbn [analysis questions view mockHistory].
  repeat (split; [reflexivity|]).
  pose proof (find_intro_rewritten style lang value elems elems' Hrel) as Hfind.
  unfold activeIntro. cbn [get_prop obind]. rewrite Hintros.
  rewrite QuestionFacts.lookup_set_field_eq.
  assert (Hreturns : exists found, find_intro style elems = Return found).
  { clear -Hnn. induction elems as [|intro rest IH]; [eexists; reflexivity|].
    apply Forall_cons in Hnn as [Hintro Hrest]. cbn [find_intro].
    destruct intro as [| | | | |fs]; try congruence;
      try (cbn; exact (IH Hrest)).
    unfold style_matches. cbn [get_prop obind].
    destruct (match lookup_field "style" fs with
              | Some (JStr s) => String.eqb s style
              | _ => false
              end); [eexists; reflexivity|exact (IH Hrest)]. }
  destruct Hreturns as (found & Hfound). rewrite Hfound in Hfind |- *.
  destruct found as [shown|].
  - destruct Hfind as (before & -> & Hafter). cbn [obind]. split; [reflexivity|].
    exists before, (set_field (contentKey lang) (JStr value) before).
    split; [reflexivity|]. rewrite Hafter. cbn [obind]. split; [reflexivity|].
    split; [apply QuestionFacts.lookup_set_field_eq|].
    intros k Hk. apply QuestionFacts.lookup_set_field_ne. exact Hk.
  - subst elems'. cbn [obind]. split; [reflexivity|].
    rewrite (set_field_same _ _ _ Hintros). reflexivity.
Qed.

Lemma conforms_object (properties : list (string * Schema)) (required : list string)
    (v : JSON) :
  conforms (SchObject properties required) v = true ->
  exists fields,
    v = JObj fields /\
    (forall k, In k required -> exists v', lookup_field k fields = Some v') /\
    (forall k sch v', In (k, sch) properties -> lookup_field k fields = Some v' ->
                      conforms sch v' = true).
Proof.
  destruct v as [| | | | |fields]; cbn [conforms]; try discriminate.
  intros [Hreq Hprops]%andb_prop. exists fields. split; [reflexivity|]. split.
  - intros k Hk. pose proof (proj1 (forallb_forall _ _) Hreq k Hk) as H.
    cbn beta in H. revert H. destruct (lookup_field k fields); [eauto|discriminate].
  - intros k sch v' Hin Hk.
    pose proof (proj1 (forallb_forall _ _) Hprops (k, sch) Hin) as H.
    cbn [fst snd] in H. rewrite Hk in H. exact H.
Qed.

Lemma conforms_set_field (properties : list (string * Schema)) (required : list string)
    (fields : JsObject) (k : string) (v : JSON) :
  conforms (SchObject properties required) (JObj fields) = true ->
  (forall sch, In (k, sch) properties -> conforms sch v = true) ->
  conforms (SchObject properties required) (JObj (set_field k v fields)) = true.
Proof.
  cbn [conforms]. intros [Hreq Hprops]%andb_prop Hv. apply andb_true_intro. split.
  - apply forallb_forall. intros k' Hk'.
    pose proof (proj1 (forallb_forall _ _) Hreq k' Hk') as H. cbn beta in H |- *.
    destruct (String.eqb_spec k' k) as [->|Hne].
    + rewrite QuestionFacts.lookup_set_field_eq. reflexivity.
    + rewrite QuestionFacts.lookup_set_field_ne by exact Hne. exact H.
  - apply forallb_forall. intros [k' sch] Hin.
    pose proof (proj1 (forallb_forall _ _) Hprops (k', sch) Hin) as H.
    cbn beta in H |- *. cbn [fst snd] in *.
    destruct (String.eqb_spec k' k) as [->|Hne].
    + rewrite QuestionFacts.lookup_set_field_eq. apply Hv. exact Hin.
    + rewrite QuestionFacts.lookup_set_field_ne by exact Hne. exact H.
Qed.

Lemma conforms_array (description : option string) (items : Schema) (v : JSON) :
  conforms (SchArray description items) v = true ->
  exists elems, v = JArr elems /\ Forall (fun e => conforms items e = true) elems.
Proof.
  destruct v as [| | | |elems|]; cbn [conforms]; try discriminate.
  intros H. exists elems. split; [reflexivity|].
  apply List.Forall_forall. apply forallb_forall. exact H.
Qed.

(** X26. Editing keeps the analysis in the shape of its schema: when
    the stored analysis conforms to [introSchema], [handleUpdateIntro]
    never throws and the analysis it stores conforms to it again,
    whatever the style, the language and the text. *)
Theorem handleUpdateIntro_keeps_the_analysis_in_shape (style : string) (lang : Lang)
    (value : string) (state : AppState) (data : JSON) :
  analysis state = Some data ->
  conforms introSchema data = true ->
  exists state' data',
    handleUpdateIntro host style lang value state = Return state' /\
    analysis state' = Some data' /\
    conforms introSchema data' = true.
Proof.
  intros Han Hconf.
  assert (Hshape : exists p1 p2 p3 itemProps itemReq required,
             introSchema
             = SchObject [p1; p2; p3; ("intros", SchArray None (SchObject itemProps itemReq))]
                 required /\
             fst p1 <> "intros" /\ fst p2 <> "intros" /\ fst p3 <> "intros" /\
             In "intros" required /\
             forall sch, In (contentKey lang, sch) itemProps ->
                         exists d, sch = SchString d None).
  { unfold introSchema. do 6 eexists. split; [reflexivity|].
    cbn [fst]. repeat split; try discriminate; [cbn; tauto|].
    intros sch Hin. cbn [In] in Hin.
    destruct lang; cbn [contentKey] in Hin;
      repeat (destruct Hin as [Hin|Hin]; [try discriminate Hin|]);
      try (injection Hin as <-; eauto); destruct Hin. }
  destruct Hshape as (p1 & p2 & p3 & itemProps & itemReq & required & Hs & H1 & H2 & H3
                      & Hreq & Hkey).
  rewrite Hs in *. clear Hs.
  destruct (conforms_object _ _ _ Hconf) as (fields & -> & Hrequired & Hprops).
  destruct (Hrequired "intros" Hreq) as (intros0 & Hintros).
  pose proof (Hprops "intros" _ intros0 ltac:(cbn; tauto) Hintros) as Harr.
  destruct (conforms_array _ _ _ Harr) as (elems & -> & Helems).
  assert (Hnn : Forall (fun intro => intro <> JNull) elems).
  { eapply List.Forall_impl; [|exact Helems]. intros e He ->. discriminate He. }
  destruct (map_updateIntro_run style lang value elems Hnn) as (elems' & Hrun & Hrel).
  unfold handleUpdateIntro. rewrite Han. cbn [truthy_json get_prop obind].
  rewrite Hintros, Hrun. cbn [obind spread].
  eexists _, _. split; [reflexivity|]. split; [reflexivity|].
  apply conforms_set_field; [exact Hconf|].
  intros sch Hin. cbn [In] in Hin.
  destruct Hin as [Heq|[Heq|[Heq|[Hin|[]]]]];
    try (subst; cbn [fst] in *; congruence).
  injection Hin as <-. cbn [conforms]. apply forallb_forall.
  intros new Hnew.
  destruct (Forall2_in_right _ _ _ new Hrel Hnew) as (old & Hold & Hr).
  pose proof (proj1 (List.Forall_forall _ _) Helems old Hold) as Hc_old.
  destruct Hr as [(_ & ->)|(fs & -> & _ & ->)]; [exact Hc_old|].
  apply conforms_set_field; [exact Hc_old|].
  intros sch Hin. destruct (Hkey sch Hin) as (d & ->). reflexivity.
Qed.

End WithPlatform.

(** The Chinese version of the one intro of the sample analysis is edited. *)
Lemma edited_intro_is_the_one_shown_witness :
  exists state' data' after,
    handleUpdateIntro TestHost.host "Affinity" CN "老师们好。" MoreSamples.analysed
    = Return state' /\
    analysis state' = Some data' /\
    activeIntro data' "Affinity" = Return (Some (JObj after)) /\
    lookup_field "contentCN" after = Some (JStr "老师们好。") /\
    lookup_field "contentEN" after = Some (JStr "Good morning.").
Proof.
  destruct (edited_intro_is_the_one_shown TestHost.host "Affinity" CN "老师们好。"
              MoreSamples.analysed MoreSamples.analysis1 [MoreSamples.affinityIntro]
              eq_refl eq_refl ltac:(repeat constructor; discriminate))
    as (state' & data' & Hrun & Han & _ & _ & _ & Hshown).
  cbn in Hshown. destruct Hshown as (_ & before & after & Hbefore & Hafter & Hcn & Hother).
  exists state', data', after. repeat (split; [assumption|]).
  rewrite (Hother "contentEN" ltac:(discriminate)).
  injection Hbefore as <-. reflexivity.
Defined.

Lemma handleUpdateIntro_keeps_the_analysis_in_shape_witness :
  exists state' data',
    handleUpdateIntro TestHost.host "Affinity" EN "Good afternoon." MoreSamples.analysed
    = Return state' /\
    analysis state' = Some data' /\
    conforms introSchema data' = true.
Proof.
  exact (handleUpdateIntro_keeps_the_analysis_in_shape TestHost.host "Affinity" EN
           "Good afternoon." MoreSamples.analysed MoreSamples.analysis1 eq_refl
           ltac:(vm_compute; reflexivity)).
Defined.

End IntroFacts.
